(** * Blackjack engine of not-gambling-bot: a shallow embedding

    The development follows [src/commands/blackjack.ts].  Numeric enums are
    inductive types, [number] totals are integers ([Z]), arrays are lists
    read and written by index, and the state the round mutates in place
    (the [Blackjack] object, its players, their hands) is threaded
    explicitly.  What a round takes from outside, the random card ids, the
    replies of the message collector and whether the prompt has been
    deleted, are parameters. *)

From stdpp Require Import base numbers list gmap strings pretty.

Local Open Scope Z_scope.

(** ** Enumerations *)

Inductive Suit := CLUBS | DIAMONDS | HEARTS | SPADES.

Inductive Rank :=
  | ACE | _2 | _3 | _4 | _5 | _6 | _7 | _8 | _9 | _10 | JACK | QUEEN | KING.

Inductive Move := INVALID | HIT | STAND | DOUBLE | SPLIT | SURRENDER.

Inductive Result := LOSE | TIE | WIN.

Module Status.
Inductive t := BLACKJACK | WAIT | CURRENT | SURRENDER | BUST | STAND | DOUBLE.
End Status.

#[global] Instance Suit_eq_dec : EqDecision Suit.
Proof. solve_decision. Defined.
#[global] Instance Rank_eq_dec : EqDecision Rank.
Proof. solve_decision. Defined.
#[global] Instance Move_eq_dec : EqDecision Move.
Proof. solve_decision. Defined.
#[global] Instance Result_eq_dec : EqDecision Result.
Proof. solve_decision. Defined.
#[global] Instance Status_eq_dec : EqDecision Status.t.
Proof. solve_decision. Defined.

(** The numeric value of a [Rank] member ([Rank.ACE] is [0], [Rank.KING]
    is [12]; [Rank.length] is [13]). *)
Definition Rank_index (r : Rank) : Z :=
  match r with
  | ACE => 0 | _2 => 1 | _3 => 2 | _4 => 3 | _5 => 4 | _6 => 5 | _7 => 6
  | _8 => 7 | _9 => 8 | _10 => 9 | JACK => 10 | QUEEN => 11 | KING => 12
  end.

Definition Rank_of_index (n : nat) : Rank :=
  match n with
  | 0 => ACE | 1 => _2 | 2 => _3 | 3 => _4 | 4 => _5 | 5 => _6 | 6 => _7
  | 7 => _8 | 8 => _9 | 9 => _10 | 10 => JACK | 11 => QUEEN | _ => KING
  end%nat.

(** [randInt(Suit.length * Rank.length)] yields ids below [52], so the
    quotient by [13] is below [4]. *)
Definition Suit_of_index (n : nat) : Suit :=
  match n with
  | 0 => CLUBS | 1 => DIAMONDS | 2 => HEARTS | _ => SPADES
  end%nat.

Definition PERFECT : Z := 21.

(** ** Card *)

Record Card := mkCard { suit : Suit; rank : Rank; down : bool }.

#[global] Instance Card_eq_dec : EqDecision Card.
Proof. solve_decision. Defined.

Module Card.
(** [Card.fromId(id, down)]; [down] defaults to [false]. *)
Definition fromId (id : nat) (down : bool) : Card :=
  mkCard (Suit_of_index (id / 13)) (Rank_of_index (id mod 13)) down.

(** [Card.value()] *)
Definition value (c : Card) : Z :=
  if bool_decide (Rank_index _10 <= Rank_index (rank c)) then 10
  else Rank_index (rank c) + 1.
End Card.

(** ** HandSum *)

Record HandSum := mkHandSum { sum : Z; soft : bool }.

#[global] Instance HandSum_eq_dec : EqDecision HandSum.
Proof. solve_decision. Defined.

Module HandSum.
(** The [reduce] of [fromCards]: the total with every ace counted 1. *)
Definition rawSum (cards : list Card) : Z :=
  fold_left (fun sum card => sum + Card.value card) cards 0.

(** [cards.some(card => card.rank === Rank.ACE)] *)
Definition someAce (cards : list Card) : bool :=
  existsb (fun card => bool_decide (rank card = ACE)) cards.

Definition fromCards (cards : list Card) : HandSum :=
  let rawSum := rawSum cards in
  if someAce cards then
    let soft := bool_decide (rawSum + 10 <= PERFECT) in
    mkHandSum (if soft then rawSum + 10 else rawSum) soft
  else mkHandSum rawSum false.

(** [hit(card)] updates the receiver in place; here it returns the
    updated sum. *)
Definition hit (this : HandSum) (card : Card) : HandSum :=
  let this1 :=
    if bool_decide (rank card = ACE) && bool_decide (sum this + 11 <= PERFECT)
    then mkHandSum (sum this + 11) true
    else mkHandSum (sum this + Card.value card) (soft this) in
  if soft this1 && bool_decide (sum this1 > PERFECT)
  then mkHandSum (sum this1 - 10) false
  else this1.

Definition bust (this : HandSum) : bool := bool_decide (sum this > PERFECT).
End HandSum.

(** ** Hand *)

Record Hand := mkHand {
  cards : list Card;
  handSum : HandSum;
  status : Status.t
}.

#[global] Instance Hand_eq_dec : EqDecision Hand.
Proof. solve_decision. Defined.

Module Hand.
Definition bust (this : Hand) : bool := HandSum.bust (handSum this).

Definition blackjack (this : Hand) : bool :=
  bool_decide (sum (handSum this) = PERFECT)
  && bool_decide (length (cards this) <= 2)%nat.

(** [new Hand(cards)] *)
Definition new (cards : list Card) : Hand :=
  let this := mkHand cards (HandSum.fromCards cards) Status.WAIT in
  mkHand cards (handSum this)
         (if blackjack this then Status.BLACKJACK else Status.WAIT).

(** [hit(card)] with the card already drawn: push it, then update the
    sum incrementally. *)
Definition hit (this : Hand) (card : Card) : Hand :=
  mkHand (cards this ++ [card]) (HandSum.hit (handSum this) card)
         (status this).

Definition setStatus (s : Status.t) (this : Hand) : Hand :=
  mkHand (cards this) (handSum this) s.

Definition compare (this hand : Hand) : Result :=
  let ourSum := sum (handSum this) in
  let theirSum := sum (handSum hand) in
  if bool_decide (ourSum > theirSum) then WIN
  else if bool_decide (ourSum < theirSum) then LOSE
  else if bool_decide (ourSum ≠ PERFECT) then TIE
  else
    let ourBJ := bool_decide (length (cards this) <= 2)%nat in
    let theirBJ := bool_decide (length (cards hand) <= 2)%nat in
    if ourBJ && negb theirBJ then WIN
    else if negb ourBJ && theirBJ then LOSE
    else TIE.
End Hand.

(** ** Dealer

    [class Dealer extends Hand]: the inherited part is the field [super]. *)

Record Dealer := mkDealer { super : Hand; hidden : bool }.

Module Dealer.
(** [new Dealer(cards)]: [hidden] starts [true]. *)
Definition new (cards : list Card) : Dealer := mkDealer (Hand.new cards) true.

Definition setStatus (s : Status.t) (this : Dealer) : Dealer :=
  mkDealer (Hand.setStatus s (super this)) (hidden this).

Definition hit (this : Dealer) (card : Card) : Dealer :=
  mkDealer (Hand.hit (super this) card) (hidden this).

(** [reveal()]: [hidden] is cleared, the second card is turned up and
    returned.  [this.cards[1]] is [undefined] on a shorter array, and the
    assignment to its [down] then throws: [None]. *)
Definition reveal (this : Dealer) : option (Card * Dealer) :=
  match cards (super this) !! 1%nat with
  | Some c =>
      let c' := mkCard (suit c) (rank c) false in
      Some (c', mkDealer (mkHand (<[1%nat := c']> (cards (super this)))
                                 (handSum (super this))
                                 (status (super this)))
                         false)
  | None => None
  end.
End Dealer.

(** ** Player *)

Definition User := nat.

Record Player := mkPlayer { hands : list Hand; user : User }.

(** ** What the round shows

    [display(description)] renders the whole table with a description
    line.  The descriptions of [runGame] are, in source order: *)

Inductive Description :=
  | Prompt                          (* the default: hit, stand, double down, split, or surrender *)
  | DealerBlackjack (line : Result) (* DEALER BLACKJACK, then You tied! or You lost! *)
  | BestSum                         (* You can't do that, you've got the best sum! *)
  | HitBust (card : Card)           (* You draw card and BUST / You lost! *)
  | HitDraw (card : Card)           (* You draw card *)
  | DoubleBust (card : Card)        (* You double down and draw card and BUST / You lost! *)
  | DoubleDraw (card : Card)        (* You double down and draw card *)
  | SplitFirstTurn                  (* You can only split on the first turn of your hand! *)
  | SplitSameValue                  (* You can only split if your cards have the same value! *)
  | SplitDraw (card1 card2 : Card)  (* You split your hand and draw card1 and card2 *)
  | SurrenderFirstTurn              (* You can only surrender on the first turn of your hand! *)
  | Surrendered                     (* You surrender your hand *)
  | DealerReveal (card : Card)      (* Dealer's other card was card *)
  | DealerBust (card : Card)        (* Dealer draws card and BUSTS / You won! *)
  | DealerDraw (card : Card)        (* Dealer draws card *)
  | Verdict (line : Result)         (* You lost! / You tied! / You won! *)
  | Inactivity.                     (* content: Ended due to inactivity. *)

(** What reaches the channel: a new message, or an edit of the prompt. *)
Inductive Event := Sent (d : Description) | Edited (d : Description).

#[global] Instance Description_eq_dec : EqDecision Description.
Proof. solve_decision. Defined.
#[global] Instance Event_eq_dec : EqDecision Event.
Proof. solve_decision. Defined.

Definition shown (e : Event) : Description :=
  match e with Sent d | Edited d => d end.

(** The outcome line a description carries, if any: the tie or loss
    under DEALER BLACKJACK, the loss under a draw that busts a hand (HIT
    or DOUBLE), the win under the bust of the dealer, and the line of the
    final [switch]. *)
Definition settlement (d : Description) : option Result :=
  match d with
  | DealerBlackjack r => Some r
  | HitBust _ => Some LOSE
  | DoubleBust _ => Some LOSE
  | DealerBust _ => Some WIN
  | Verdict r => Some r
  | _ => None
  end.

Definition settlements (l : list Event) : list Result :=
  omap (fun e => settlement (shown e)) l.

Definition inactivityNotices (l : list Event) : nat :=
  length (filter (fun e => shown e = Inactivity) l).

(** ** The round *)

(** [players], [dealer] and [prompt] are the fields of the class;
    [drawn] counts the calls to [randInt] so far and [log] records what
    was sent to the channel, oldest first. *)
Record Blackjack := mkBlackjack {
  players : list Player;
  dealer : Dealer;
  prompt : option Description;
  drawn : nat;
  log : list Event
}.

(** A reply of the message collector of [Player.move]: it ended with
    reason ["limit"] after collecting the one accepted message, whose text
    [getMove] read as [move], or it ended for another reason (its minute
    ran out). *)
Inductive Reply := Collected (move : Move) | Expired.

(** How one pass through the body of the [while (true)] of a hand ends. *)
Inductive Flow :=
  | Continue    (* [break] out of the switch, or [continue]: next move *)
  | BreakHand   (* [break hand] *)
  | Throw.      (* a TypeError *)

Inductive DealerEnd :=
  | Stood       (* [break dealer] *)
  | Busted      (* [return] from [runGame] *)
  | Unfinished. (* the iteration bound of the model was reached *)

Inductive Outcome :=
  | Returned                (* the promise of [runGame] resolved *)
  | Awaiting (p h : nat)    (* suspended in [player.move()] of hand [h] of player [p]: no reply yet *)
  | Abandoned               (* the collector ended without a move: the promise of [move] never settles *)
  | Threw                   (* the promise of [runGame] rejected *)
  | Diverged.               (* the dealer loop did not finish within its bound *)

Module Blackjack.
Definition setPlayers (ps : list Player) (g : Blackjack) : Blackjack :=
  mkBlackjack ps (dealer g) (prompt g) (drawn g) (log g).

Definition setDealer (d : Dealer) (g : Blackjack) : Blackjack :=
  mkBlackjack (players g) d (prompt g) (drawn g) (log g).

Definition setDrawn (k : nat) (g : Blackjack) : Blackjack :=
  mkBlackjack (players g) (dealer g) (prompt g) k (log g).

(** [player.hands[h]] of [this.players[p]] *)
Definition getHand (g : Blackjack) (p h : nat) : option Hand :=
  players g !! p ≫= fun player => hands player !! h.

(** An in-place change of [this.players[p].hands[h]]. *)
Definition updHand (p h : nat) (f : Hand -> Hand) (g : Blackjack) : Blackjack :=
  setPlayers
    (alter (fun player => mkPlayer (alter f h (hands player)) (user player))
           p (players g)) g.

(** [this.players[p].hands.splice(i, 0, hand)] *)
Definition spliceHand (p i : nat) (hand : Hand) (g : Blackjack) : Blackjack :=
  setPlayers
    (alter (fun player =>
              mkPlayer (take i (hands player) ++ hand :: drop i (hands player))
                       (user player))
           p (players g)) g.

(** [display(description)]: send a new prompt if there is none yet or
    if the prompt has been deleted, edit the prompt otherwise.  Whether
    somebody deleted the prompt is not up to the round: [deleted k] is the
    [deleted] flag of the prompt as [display] finds it once [k] messages
    have been sent or edited. *)
Definition display (deleted : nat -> bool) (description : Description)
    (g : Blackjack) : Blackjack :=
  match prompt g with
  | None =>
      mkBlackjack (players g) (dealer g) (Some description) (drawn g)
                  (log g ++ [Sent description])
  | Some _ =>
      if deleted (length (log g))
      then mkBlackjack (players g) (dealer g) (Some description) (drawn g)
                       (log g ++ [Sent description])
      else mkBlackjack (players g) (dealer g) (Some description) (drawn g)
                       (log g ++ [Edited description])
  end.

(** [dealerMove()], after its pause. *)
Definition dealerMove (g : Blackjack) : Move :=
  let sum := sum (handSum (super (dealer g))) in
  let soft := soft (handSum (super (dealer g))) in
  if bool_decide (sum < 17) || bool_decide (sum = 17) && soft then HIT
  else STAND.
End Blackjack.

Section Round.
(** [randInt k] is what the call number [k] of
    [randInt(Suit.length * Rank.length)] returns, an id below [52]. *)
Variable randInt : nat -> nat.

(** [deleted k]: the prompt is found deleted by the [display] that
    follows [k] messages sent or edited. *)
Variable deleted : nat -> bool.

(** [Card.fromRandom(down)] as call number [k]. *)
Definition fromRandom (down : bool) (k : nat) : Card * nat :=
  (Card.fromId (randInt k) down, S k).

(** [Hand.deal()] *)
Definition dealHand (k : nat) : Hand * nat :=
  let '(c0, k) := fromRandom false k in
  let '(c1, k) := fromRandom false k in
  (Hand.new [c0; c1], k).

(** [Dealer.deal()] *)
Definition dealDealer (k : nat) : Dealer * nat :=
  let '(c0, k) := fromRandom false k in
  let '(c1, k) := fromRandom true k in
  (Dealer.new [c0; c1], k).

(** [Player.deal(user, game)] *)
Definition dealPlayer (user : User) (k : nat) : Player * nat :=
  let '(hand, k) := dealHand k in
  (mkPlayer [hand] user, k).

(** [this.users.map(user => Player.deal(user, this))] *)
Fixpoint dealPlayers (users : list User) (k : nat) : list Player * nat :=
  match users with
  | [] => ([], k)
  | user :: users =>
      let '(player, k) := dealPlayer user k in
      let '(players, k) := dealPlayers users k in
      (player :: players, k)
  end.

(** The default argument [Card.fromRandom()] of [Hand.hit]. *)
Definition draw (g : Blackjack) : Card * Blackjack :=
  let '(card, k) := fromRandom false (drawn g) in
  (card, Blackjack.setDrawn k g).

(** [Player.move()] once its collector has ended: a collected move
    resolves the promise; otherwise the prompt, if any, is edited to the
    inactivity notice and the promise is left pending. *)
Definition move (reply : Reply) (g : Blackjack) : Blackjack * option Move :=
  match reply with
  | Collected m => (g, Some m)
  | Expired =>
      (match prompt g with
       | Some _ =>
           mkBlackjack (players g) (dealer g) (Some Inactivity) (drawn g)
                       (log g ++ [Edited Inactivity])
       | None => g
       end, None)
  end.

(** One pass through the body of [while (true)] for hand [h] of player
    [p], with the move just obtained. *)
Definition playMove (m : Move) (g : Blackjack) (p h : nat) : Blackjack * Flow :=
  match Blackjack.getHand g p h with
  | None => (g, Throw) (* [hand] is [undefined] *)
  | Some hand =>
    if bool_decide (sum (handSum hand) = PERFECT) && bool_decide (m ≠ STAND)
    then (Blackjack.display deleted BestSum g, Continue)
    else
      match m with
      | HIT =>
          let '(card, g) := draw g in
          let g := Blackjack.updHand p h (fun hand => Hand.hit hand card) g in
          if Hand.bust (Hand.hit hand card)
          then (Blackjack.display deleted (HitBust card) g, BreakHand)
          else (Blackjack.display deleted (HitDraw card) g, Continue)
      | STAND =>
          (Blackjack.updHand p h (Hand.setStatus Status.STAND) g, BreakHand)
      | DOUBLE =>
          let '(card, g) := draw g in
          let g := Blackjack.updHand p h (fun hand => Hand.hit hand card) g in
          if Hand.bust (Hand.hit hand card)
          then (Blackjack.display deleted (DoubleBust card) g, BreakHand)
          else
            let g := Blackjack.updHand p h (Hand.setStatus Status.SURRENDER) g in
            (Blackjack.display deleted (DoubleDraw card) g, BreakHand)
      | SPLIT =>
          if bool_decide (2 < length (cards hand))%nat
          then (Blackjack.display deleted SplitFirstTurn g, Continue)
          else
            match cards hand !! 0%nat, cards hand !! 1%nat with
            | Some c0, Some c1 =>
                if bool_decide (Card.value c0 ≠ Card.value c1)
                then (Blackjack.display deleted SplitSameValue g, Continue)
                else
                  (* [hand.cards.pop()], [new Hand([...])], [splice] *)
                  let popped := default c1 (last (cards hand)) in
                  let g := Blackjack.updHand p h
                             (fun hand => mkHand (removelast (cards hand))
                                                 (handSum hand) (status hand)) g in
                  let g := Blackjack.spliceHand p (S h) (Hand.new [popped]) g in
                  let g := Blackjack.updHand p h
                             (fun hand => mkHand (cards hand)
                                                 (HandSum.fromCards (cards hand))
                                                 (status hand)) g in
                  let '(card1, g) := draw g in
                  let g := Blackjack.updHand p h (fun hand => Hand.hit hand card1) g in
                  let '(card2, g) := draw g in
                  let g := Blackjack.updHand p (S h) (fun hand => Hand.hit hand card2) g in
                  (Blackjack.display deleted (SplitDraw card1 card2) g, Continue)
            | _, _ => (g, Throw)
            end
      | SURRENDER =>
          if bool_decide (2 < length (cards hand))%nat
          then (Blackjack.display deleted SurrenderFirstTurn g, Continue)
          else
            let g := Blackjack.updHand p h (Hand.setStatus Status.SURRENDER) g in
            (Blackjack.display deleted Surrendered g, BreakHand)
      | INVALID => (g, Continue)
      end
  end.

(** [hand = player.hands[h]; hand.status = Status.CURRENT]: the turn of
    the hand begins. *)
Definition beginHand (g : Blackjack) (p h : nat) : Blackjack :=
  Blackjack.updHand p h (Hand.setStatus Status.CURRENT) g.

(** The head of the [for ... of this.players] at index [p], down to the
    first hand whose turn begins; [n] bounds the players still to visit.
    [None]: the loop over the players is over. *)
Fixpoint enterPlayer (n : nat) (g : Blackjack) (p : nat)
  : Blackjack * option (nat * nat) :=
  match n with
  | O => (g, None)
  | S n =>
      match players g !! p with
      | None => (g, None)
      | Some player =>
          let g := Blackjack.display deleted Prompt g in
          match hands player !! 0%nat with
          | Some _ => (beginHand g p 0, Some (p, 0%nat))
          | None => enterPlayer n g (S p)
          end
      end
  end.

(** The test [h < player.hands.length] after [++h]. *)
Definition nextHand (g : Blackjack) (p h : nat) : Blackjack * option (nat * nat) :=
  match Blackjack.getHand g p h with
  | Some _ => (beginHand g p h, Some (p, h))
  | None => enterPlayer (length (players g) - S p) g (S p)
  end.

(** [hit] of the dealer raises this weight by at least one, and the
    dealer does not draw with a total above 17: the loop of the dealer
    makes at most [28 - weight] draws. *)
Definition weight (s : HandSum) : Z := sum s + (if soft s then 0 else 10).

(** The [while (true)] of the dealer. *)
Fixpoint dealerLoop (n : nat) (g : Blackjack) : Blackjack * DealerEnd :=
  match n with
  | O => (g, Unfinished)
  | S n =>
      match Blackjack.dealerMove g with
      | HIT =>
          let '(card, g) := draw g in
          let g := Blackjack.setDealer (Dealer.hit (dealer g) card) g in
          if bool_decide (sum (handSum (super (dealer g))) > PERFECT)
          then
            let g := Blackjack.setDealer
                       (Dealer.setStatus Status.BUST (dealer g)) g in
            (Blackjack.display deleted (DealerBust card) g, Busted)
          else dealerLoop n (Blackjack.display deleted (DealerDraw card) g)
      | STAND =>
          (Blackjack.setDealer (Dealer.setStatus Status.STAND (dealer g)) g,
           Stood)
      | _ => dealerLoop n g
      end
  end.

(** The final [switch] on [this.players[0].hands[0].compare(this.dealer)]. *)
Definition settle (g : Blackjack) : Blackjack * Outcome :=
  match Blackjack.getHand g 0 0 with
  | Some hand =>
      (Blackjack.display deleted (Verdict (Hand.compare hand (super (dealer g)))) g,
       Returned)
  | None => (g, Threw)
  end.

(** From [this.dealer.status = Status.CURRENT] to the end of [runGame]. *)
Definition dealerTurn (g : Blackjack) : Blackjack * Outcome :=
  let g := Blackjack.setDealer (Dealer.setStatus Status.CURRENT (dealer g)) g in
  match Dealer.reveal (dealer g) with
  | None => (g, Threw)
  | Some (card, d) =>
      let g := Blackjack.display deleted (DealerReveal card) (Blackjack.setDealer d g) in
      let bound := S (Z.to_nat (28 - weight (handSum (super (dealer g))))) in
      match dealerLoop bound g with
      | (g, Busted) => (g, Returned)
      | (g, Stood) => settle g
      | (g, Unfinished) => (g, Diverged)
      end
  end.

(** The turns of the participants from the [await player.move()] of hand
    [h] of player [p] on, then the dealer.  Every pass of a hand's loop
    takes one reply; with none left the round is waiting. *)
Fixpoint playersLoop (replies : list Reply) (g : Blackjack) (p h : nat)
  : Blackjack * Outcome :=
  match replies with
  | [] => (g, Awaiting p h)
  | reply :: replies =>
      match move reply g with
      | (g, None) => (g, Abandoned)
      | (g, Some m) =>
          match playMove m g p h with
          | (g, Continue) => playersLoop replies g p h
          | (g, BreakHand) =>
              match nextHand g p (S h) with
              | (g, Some (p', h')) => playersLoop replies g p' h'
              | (g, None) => dealerTurn g
              end
          | (g, Throw) => (g, Threw)
          end
      end
  end.

(** The state [runGame] starts from: hands dealt, nothing shown yet. *)
Definition deal (users : list User) : Blackjack :=
  let '(players, k) := dealPlayers users 0 in
  let '(dealer, k) := dealDealer k in
  mkBlackjack players dealer None k [].

(** The branch of [runGame] taken when the dealer was dealt 21. *)
Definition dealerBlackjack (g : Blackjack) : Blackjack * Outcome :=
  match Dealer.reveal (dealer g) with
  | None => (g, Threw)
  | Some (_, d) =>
      let g := Blackjack.setDealer d g in
      match Blackjack.getHand g 0 0 with
      | Some hand =>
          let line :=
            if bool_decide (sum (handSum hand) = PERFECT) then TIE else LOSE in
          (Blackjack.display deleted (DealerBlackjack line) g, Returned)
      | None => (g, Threw)
      end
  end.

Definition runGame (users : list User) (replies : list Reply)
  : Blackjack * Outcome :=
  let g := deal users in
  if bool_decide (sum (handSum (super (dealer g))) = PERFECT)
  then dealerBlackjack g
  else
    match enterPlayer (length (players g)) g 0 with
    | (g, Some (p, h)) => playersLoop replies g p h
    | (g, None) => dealerTurn g
    end.
End Round.

(** ** Reading a move *)

Definition getMove (content : string) : Move :=
  if decide (content = "h") then HIT
  else if decide (content = "hit") then HIT
  else if decide (content = "s") then STAND
  else if decide (content = "stand") then STAND
  else if decide (content = "d") then DOUBLE
  else if decide (content = "double") then DOUBLE
  else if decide (content = "double down") then DOUBLE
  else if decide (content = "p") then SPLIT
  else if decide (content = "split") then SPLIT
  else if decide (content = "r") then SURRENDER
  else if decide (content = "surrender") then SURRENDER
  else INVALID.

(** A message arriving in the channel while a collector is open. *)
Record Incoming := mkIncoming { sender : User; content : string }.

Section Collector.
(** [content.trim().toLowerCase()] *)
Variable normalize : string -> string.

(** The filter of the collector of [Player.move] for [user]: the move to
    resolve with, if the message is kept.  Where the bot may manage
    messages the kept message is deleted before the move is resolved;
    [safeDelete] of [../utils.js] is taken to fulfil. *)
Definition keep (user : User) (m : Incoming) : option Move :=
  if decide (sender m ≠ user) then None
  else
    let move := getMove (normalize (content m)) in
    if decide (move = INVALID) then None else Some move.

(** The collector ([max: 1]) over the messages that arrive within its
    minute: it ends on the first message kept, or on the time. *)
Fixpoint collect (user : User) (incoming : list Incoming) : Reply :=
  match incoming with
  | [] => Expired
  | m :: incoming =>
      match keep user m with
      | Some move => Collected move
      | None => collect user incoming
      end
  end.
End Collector.

(** ** Rendering *)

Definition Suit_position (s : Suit) : nat :=
  match s with CLUBS => 0 | DIAMONDS => 1 | HEARTS => 2 | SPADES => 3 end.

Definition Status_position (s : Status.t) : nat :=
  match s with
  | Status.BLACKJACK => 0 | Status.WAIT => 1 | Status.CURRENT => 2
  | Status.SURRENDER => 3 | Status.BUST => 4 | Status.STAND => 5
  | Status.DOUBLE => 6
  end.

Definition suitToString : list string := ["♣"; "♦"; "♥"; "♠"].

Definition statusToEmoji : list string :=
  ["✨"; "⬛"; "➡️"; "🏳️"; "💥"; "🔒"; "💵"].

(** An array element in a template: [undefined] prints as such. *)
Definition element (table : list string) (i : nat) : string :=
  default "undefined" (table !! i).

(** The line feed, character 10. *)
Definition newline : string :=
  String (Ascii.Ascii false true false true false false false false) "".

(** A field of an embed, and the embed of [getEmbed]. *)
Record Field := mkField { name : string; value : string }.

Record Embed := mkEmbed {
  color : Z;
  title : string;
  description : Description;
  fields : list Field;
  footer : string
}.

Section Rendering.
(** [range(2, 11)] of [../utils.js], [player.user.tag] and
    [config.colors.info] are not part of this file. *)
Variable range_2_11 : list Z.
Variable tag : User -> string.
Variable infoColor : Z.

Definition rankToString : list string :=
  ["A"] ++ map pretty range_2_11 ++ ["J"; "Q"; "K"].

(** [Card.toString()] *)
Definition Card_toString (this : Card) : string :=
  if down this then "??"
  else element suitToString (Suit_position (suit this))
       +:+ element rankToString (Z.to_nat (Rank_index (rank this))).

(** [HandSum.toString()] *)
Definition HandSum_toString (this : HandSum) : string :=
  pretty (sum this) +:+ (if soft this then "s" else "h").

(** [Hand.getCardsAsString()] *)
Definition getCardsAsString (this : Hand) : string :=
  String.concat " " (map (fun card => "`" +:+ Card_toString card +:+ "`") (cards this)).

(** [Hand.toString()] *)
Definition Hand_toString (this : Hand) : string :=
  "**" +:+ (if Hand.bust this then "BUST"
            else if Hand.blackjack this then "BLACKJACK"
            else HandSum_toString (handSum this))
  +:+ "** " +:+ getCardsAsString this.

(** [Dealer.toString()]; [None]: hidden with no card, [card.rank] throws. *)
Definition Dealer_toString (this : Dealer) : option string :=
  if hidden this then
    match cards (super this) !! 0%nat with
    | Some card =>
        Some ("**" +:+ (if decide (rank card = ACE) then pretty 11 +:+ "s"
                        else pretty (Card.value card) +:+ "h")
              +:+ "+** " +:+ getCardsAsString (super this))
    | None => None
    end
  else Some (Hand_toString (super this)).

(** [getEmbed(description)] *)
Definition getEmbed (g : Blackjack) (description : Description) : option Embed :=
  let playerFields :=
    map (fun player =>
           mkField (tag (user player))
                   (String.concat newline
                      (map (fun hand =>
                              element statusToEmoji (Status_position (status hand))
                              +:+ " " +:+ Hand_toString hand)
                           (hands player))))
        (players g) in
  match Dealer_toString (dealer g) with
  | Some text =>
      Some (mkEmbed infoColor "Blackjack" description
              (mkField "Dealer"
                 (element statusToEmoji (Status_position (status (super (dealer g))))
                  +:+ " " +:+ text)
               :: playerFields)
              "See the full rules with `rules blackjack`")
  | None => None
  end.
End Rendering.

(** ** The command

    [channels] maps a channel to the users playing in it; users and
    channels are identified by their snowflake, a number here. *)

Record Message := mkMessage {
  channelId : nat;
  author : User;
  mentions : list User   (* [message.mentions.users.array()] *)
}.

(** [[message.author, ...message.mentions.users.array()]]; the ids are
    the users. *)
Definition playerUsers (message : Message) : list User :=
  author message :: mentions message.

(** The text of the error: the conflicting ids as listed, and the verb. *)
Inductive Verb := IS | ARE.

Record BotError := mkBotError { conflictIds : list User; verb : Verb }.

(** [execute] up to the start of the round: the check for players already
    playing in the channel, which throws, and their registration. *)
Definition register (channels : gmap nat (gset User)) (message : Message)
  : BotError + gmap nat (gset User) :=
  let playerIds := playerUsers message in
  let currentIds := default ∅ (channels !! channelId message) in
  if bool_decide (0 < size currentIds)%nat
     && existsb (fun id => bool_decide (id ∈ currentIds)) playerIds
  then
    let conflictIds := filter (fun id => id ∈ currentIds) playerIds in
    inl (mkBotError conflictIds
           (if bool_decide (head conflictIds ≠ Some (author message))
               && bool_decide (length conflictIds = 1%nat)
            then IS else ARE))
  else
    inr (<[channelId message := currentIds ∪ list_to_set playerIds]> channels).

(** [execute] after the round: the players leave the channel.  [None]:
    [channels.get(...)] is [undefined] and reading its [size] throws. *)
Definition release (channels : gmap nat (gset User)) (message : Message)
  : option (gmap nat (gset User)) :=
  let playerIds := playerUsers message in
  match channels !! channelId message with
  | None => None
  | Some ids =>
      if bool_decide (length playerIds = size ids)
      then Some (delete (channelId message) channels)
      else Some (<[channelId message := ids ∖ list_to_set playerIds]> channels)
  end.

(** A run of [execute] is suspended at [await game.runGame()], and the
    runs of other commands go on meanwhile.  Each contributes its two
    synchronous parts: the part up to the [await], and the part after it
    once its round has returned.  An error thrown by a part leaves
    [channels] as it was. *)
Inductive Call := Begin (message : Message) | Resume (message : Message).

Definition call (channels : gmap nat (gset User)) (c : Call)
  : gmap nat (gset User) :=
  match c with
  | Begin message =>
      match register channels message with
      | inr channels' => channels'
      | inl _ => channels
      end
  | Resume message =>
      match release channels message with
      | Some channels' => channels'
      | None => channels
      end
  end.

Definition calls (channels : gmap nat (gset User)) (cs : list Call)
  : gmap nat (gset User) :=
  fold_left call cs channels.

(** How a run of [execute] stands once the replies are used up. *)
Inductive Executed :=
  | Rejected (e : BotError)              (* the check threw *)
  | Finished (g : Blackjack)             (* the round returned, the players left *)
  | Pending (g : Blackjack) (o : Outcome)
      (* the round has not returned: it awaits a move, was abandoned, or threw *)
  | ReleaseThrew (g : Blackjack).        (* the round returned, leaving threw *)

(** [execute], with the parts of other commands that run while its round
    is awaited, in [meanwhile]; [[]] when none does. *)
Definition execute (randInt : nat -> nat) (deleted : nat -> bool)
    (channels : gmap nat (gset User))
    (message : Message) (replies : list Reply) (meanwhile : list Call)
  : gmap nat (gset User) * Executed :=
  match register channels message with
  | inl e => (channels, Rejected e)
  | inr channels1 =>
      let channels2 := calls channels1 meanwhile in
      match runGame randInt deleted (playerUsers message) replies with
      | (g, Returned) =>
          match release channels2 message with
          | Some channels3 => (channels3, Finished g)
          | None => (channels2, ReleaseThrew g)
          end
      | (g, o) => (channels2, Pending g o)
      end
  end.

(** The users playing in a channel. *)
Definition playingIn (channels : gmap nat (gset User)) (channel : nat) : gset User :=
  default ∅ (channels !! channel).

(** ** Notions used in the statements *)

(** A hand of at most two cards, the [ourBJ] of [compare]. *)
Definition natural (hand : Hand) : Prop := (length (cards hand) <= 2)%nat.

(** Exactly two cards, of equal point value. *)
Definition splittable (hand : Hand) : Prop :=
  exists c0 c1, cards hand = [c0; c1] /\ Card.value c0 = Card.value c1.

(** [this.players[p].hands.length] *)
Definition handCount (g : Blackjack) (p : nat) : nat :=
  match players g !! p with
  | Some player => length (hands player)
  | None => 0%nat
  end.

(** A hand in play holds at least two cards and its sum is the sum of its
    cards; [tableOk] says so of every hand of every participant. *)
Definition inPlay (hand : Hand) : Prop :=
  (2 <= length (cards hand))%nat /\ handSum hand = HandSum.fromCards (cards hand).

Definition tableOk (g : Blackjack) : Prop :=
  Forall (fun player => Forall inPlay (hands player)) (players g).

(** While the participants play no inactivity has been reported, and
    the prompt exists. *)
Definition turnTalk (d : Description) : Prop := d <> Inactivity.

Definition quiet (g : Blackjack) : Prop :=
  is_Some (prompt g) /\ Forall (fun e => turnTalk (shown e)) (log g).

(** Settlement as the specification words it, for one hand: a hand whose
    status is BUST or SURRENDER loses; any other hand wins when the dealer
    is bust and is compared with the dealer otherwise. *)
Definition settleHand_spec (dealer hand : Hand) : Result :=
  if bool_decide (status hand = Status.BUST \/ status hand = Status.SURRENDER)
  then LOSE
  else if Hand.bust dealer then WIN
  else Hand.compare hand dealer.

(** ... and for the round: one [Result] for every hand of every
    participant. *)
Definition settle_spec (g : Blackjack) : list Result :=
  flat_map (fun player => map (settleHand_spec (super (dealer g))) (hands player))
           (players g).

(** Settlement against a dealer dealt 21 as the specification words it:
    every participant ties with an initial 21 and loses otherwise. *)
Definition dealerBlackjack_spec (g : Blackjack) : list Result :=
  flat_map (fun player =>
              match hands player !! 0%nat with
              | Some hand =>
                  [if bool_decide (sum (handSum hand) = PERFECT) then TIE else LOSE]
              | None => []
              end)
           (players g).

(** ** Rounds used as examples *)

(** The results of [randInt] read from a list ([0] once it is used up). *)
Definition replay (ids : list nat) : nat -> nat := fun k => nth k ids 0%nat.

(** Nobody deletes the prompt. *)
Definition neverDeleted : nat -> bool := fun _ => false.

Definition alice : User := 7%nat.
Definition bob : User := 8%nat.

(** One participant dealt 5 and 6, dealer 10 and 7; the participant
    doubles down and draws a 2. *)
Definition roundDouble : Blackjack * Outcome :=
  runGame (replay [4; 5; 9; 6; 1]%nat) neverDeleted [alice] [Collected DOUBLE].

(** One participant dealt 10 and 5, dealer 10 and 8; the participant hits
    and draws a king. *)
Definition roundHitBust : Blackjack * Outcome :=
  runGame (replay [9; 4; 9; 7; 12]%nat) neverDeleted [alice] [Collected HIT].

(** One participant dealt ace and king, dealer 5 and 6. *)
Definition dealtBlackjack : Blackjack := deal (replay [0; 12; 4; 5]%nat) [alice].

Definition roundBlackjack (replies : list Reply) : Blackjack * Outcome :=
  runGame (replay [0; 12; 4; 5]%nat) neverDeleted [alice] replies.

(** Two participants, dealt 5 and 6, and ace and king; dealer ace and
    king. *)
Definition roundDealerNatural : Blackjack * Outcome :=
  runGame (replay [4; 5; 0; 12; 0; 12]%nat) neverDeleted [alice; bob] [].

(** Two participants, dealt 10 and 10, and 10 and 7; dealer 10 and 8; both
    stand. *)
Definition roundTwoStand : Blackjack * Outcome :=
  runGame (replay [9; 9; 9; 6; 9; 7]%nat) neverDeleted [alice; bob]
          [Collected STAND; Collected STAND].

(** One participant dealt 8 and 8, dealer 10 and 8; the participant
    splits, drawing 3 and 4, and then leaves. *)
Definition splitThenLeave (post : list Reply) : Blackjack * Outcome :=
  runGame (replay [7; 7; 9; 7; 2; 3]%nat) neverDeleted [alice]
          ([Collected SPLIT] ++ Expired :: post).

(** A dealer on a hard 16 that draws a 5. *)
Definition dealerOn16 : Blackjack :=
  mkBlackjack []
    (mkDealer (Hand.setStatus Status.CURRENT
                 (Hand.new [mkCard CLUBS _10 false; mkCard HEARTS _6 false]))
              false)
    (Some Prompt) 0 [Sent Prompt].

(** A participant on 10 and queen, and one on 10 and 9, their turn
    begun. *)
Definition tenQueen : Hand :=
  Hand.setStatus Status.CURRENT
    (Hand.new [mkCard CLUBS _10 false; mkCard DIAMONDS QUEEN false]).

Definition tenNine : Hand :=
  Hand.setStatus Status.CURRENT
    (Hand.new [mkCard CLUBS _10 false; mkCard DIAMONDS _9 false]).

Definition tableOf (hand : Hand) : Blackjack :=
  mkBlackjack [mkPlayer [hand] alice]
    (Dealer.new [mkCard CLUBS _10 false; mkCard SPADES _8 true])
    (Some Prompt) 4 [Sent Prompt].

(** A participant who stood on 10 and 10, before the turn of a dealer
    holding 10 and 8. *)
Definition tableStood : Blackjack :=
  tableOf (Hand.setStatus Status.STAND
             (Hand.new [mkCard CLUBS _10 false; mkCard HEARTS _10 false])).

(** The round of [splitThenLeave] once the split is made, awaiting the
    next move. *)
Definition afterSplit : Blackjack :=
  (runGame (replay [7; 7; 9; 7; 2; 3]%nat) neverDeleted [alice] [Collected SPLIT]).1.

(** ** Further notions *)

(** The numeric value of a [Suit] member. *)
Definition Suit_index (s : Suit) : Z :=
  match s with CLUBS => 0 | DIAMONDS => 1 | HEARTS => 2 | SPADES => 3 end.

(** The same comparison seen from the other hand. *)
Definition opposite (r : Result) : Result :=
  match r with LOSE => WIN | TIE => TIE | WIN => LOSE end.

(** [hit] after [hit], card by card. *)
Definition hitAll (s : HandSum) (cards : list Card) : HandSum :=
  fold_left HandSum.hit cards s.

(** A card worth ten points. *)
Definition tenValued (c : Card) : Prop := Card.value c = 10.

(** A hand of exactly two cards. *)
Definition twoCards (hand : Hand) : Prop := length (cards hand) = 2%nat.

(** The cards on the table: those of every hand of every participant and
    those of the dealer. *)
Definition cardsOf (player : Player) : nat :=
  sum_list (map (fun hand => length (cards hand)) (hands player)).

Definition cardsHeld (g : Blackjack) : nat :=
  (sum_list (map cardsOf (players g)) + length (cards (super (dealer g))))%nat.

(** What one pass of the loop of a hand does to that hand: the hands that
    take its place in the list of the participant, the number of cards
    drawn, and how the pass ends.  [card1] and [card2] are the next two
    cards of the shoe. *)
Inductive turnStep (card1 card2 : Card) (hand : Hand)
  : list Hand -> nat -> Flow -> Prop :=
  | ts_refused :
      turnStep card1 card2 hand [hand] 0 Continue
  | ts_hit :
      Hand.bust (Hand.hit hand card1) = false ->
      turnStep card1 card2 hand [Hand.hit hand card1] 1 Continue
  | ts_bust :
      Hand.bust (Hand.hit hand card1) = true ->
      turnStep card1 card2 hand [Hand.hit hand card1] 1 BreakHand
  | ts_stand :
      turnStep card1 card2 hand [Hand.setStatus Status.STAND hand] 0 BreakHand
  | ts_double :
      Hand.bust (Hand.hit hand card1) = false ->
      turnStep card1 card2 hand
               [Hand.setStatus Status.SURRENDER (Hand.hit hand card1)] 1 BreakHand
  | ts_surrender :
      (length (cards hand) <= 2)%nat ->
      turnStep card1 card2 hand [Hand.setStatus Status.SURRENDER hand] 0 BreakHand
  | ts_split (c0 c1 : Card) :
      cards hand = [c0; c1] ->
      Card.value c0 = Card.value c1 ->
      turnStep card1 card2 hand
               [Hand.hit (mkHand [c0] (HandSum.fromCards [c0]) (status hand)) card1;
                Hand.hit (Hand.new [c1]) card2]
               2 Continue.

(** The list of hands with the hand at [h] replaced by [repl]. *)
Definition replaceHand (h : nat) (repl : list Hand) (hs : list Hand) : list Hand :=
  take h hs ++ repl ++ drop (S h) hs.

(** While the participants of a round dealt to [users] play: every hand
    is in play, the hand awaited exists, the dealer is as dealt, and the
    first participant has a hand. *)
Definition seated (randInt : nat -> nat) (users : list User)
    (g : Blackjack) (p h : nat) : Prop :=
  tableOk g
  /\ (h < handCount g p)%nat
  /\ dealer g = dealer (deal randInt users)
  /\ (0 < handCount g 0)%nat.

(** The hand awaited has the status CURRENT and is not bust, and the
    hands whose turn is still to come hold two cards each. *)
Definition awaitedOk (g : Blackjack) (p h : nat) : Prop :=
  tableOk g
  /\ exists player hand,
      players g !! p = Some player
      /\ hands player !! h = Some hand
      /\ status hand = Status.CURRENT
      /\ Hand.bust hand = false
      /\ Forall twoCards (drop (S h) (hands player))
      /\ Forall (fun player => Forall twoCards (hands player))
                (drop (S p) (players g)).

(** The hands of the participants that are bust. *)
Definition bustIn (hs : list Hand) : nat :=
  sum_list (map (fun hand => if Hand.bust hand then 1%nat else 0%nat) hs).

Definition bustHands (g : Blackjack) : nat :=
  sum_list (map (fun player => bustIn (hands player)) (players g)).

(** In the round dealt as [g0] the turn of participant [p] begins in
    [g]: nobody has drawn a card or split, the participants after [p] are
    as dealt, and so is the hand of [p] but for its status, now
    CURRENT. *)
Definition atTurn (g0 g : Blackjack) (p : nat) : Prop :=
  length (players g) = length (players g0)
  /\ (forall q, (q < length (players g0))%nat -> handCount g q = 1%nat)
  /\ dealer g = dealer g0
  /\ drawn g = drawn g0
  /\ (forall q, (p < q)%nat -> players g !! q = players g0 !! q)
  /\ (forall hand, Blackjack.getHand g0 p 0 = Some hand ->
        Blackjack.getHand g p 0 = Some (Hand.setStatus Status.CURRENT hand)).

(** The lines of a loss shown so far are those of the hands that went
    bust, one for each, and nothing else carries an outcome line. *)
Definition bustLines (g : Blackjack) : Prop :=
  settlements (log g) = replicate (bustHands g) LOSE.

(** The policy of the dealer on a hand sum, as [dealerMove] tests it. *)
Definition policyHits (s : HandSum) : Prop :=
  sum s < 17 \/ sum s = 17 /\ soft s = true.

#[global] Instance policyHits_dec (s : HandSum) : Decision (policyHits s).
Proof. unfold policyHits. apply _. Defined.

(** The dealer after [n] more cards, the draws number [k], [k + 1], ...
    of the shoe, in this order. *)
Fixpoint drawsOnto (randInt : nat -> nat) (k n : nat) (d : Dealer) : Dealer :=
  match n with
  | O => d
  | S n => drawsOnto randInt (S k) n (Dealer.hit d (Card.fromId (randInt k) false))
  end.

(** A part of another command that leaves the entry of [channel] alone
    or adds to it: every [Begin], and a [Resume] in another channel. *)
Definition keeps (channel : nat) (c : Call) : Prop :=
  match c with
  | Begin _ => True
  | Resume message => channelId message <> channel
  end.

(** A message the collector of [user] does not keep: it is from someone
    else, or its text does not read as a move. *)
Definition ignored (normalize : string -> string) (user : User)
    (m : Incoming) : Prop :=
  sender m <> user \/ getMove (normalize (content m)) = INVALID.

(** The round is in the turns of the participants: it waits for a move,
    or was left there. *)
Definition playing (o : Outcome) : Prop :=
  o = Abandoned \/ exists p h, o = Awaiting p h.

(** * Properties *)

(** ** Card values and hand totals *)

Lemma value_pos (c : Card) : 1 <= Card.value c <= 10.
Proof.
  destruct c as [s r d]; destruct r; vm_compute; split; discriminate.
Qed.

Lemma value_ace (c : Card) : rank c = ACE -> Card.value c = 1.
Proof. intros E. unfold Card.value. rewrite E. reflexivity. Qed.

Lemma rawSum_from (cs : list Card) (a : Z) :
  fold_left (fun sum card => sum + Card.value card) cs a = a + HandSum.rawSum cs.
Proof.
  unfold HandSum.rawSum. revert a.
  induction cs as [|c cs IH]; intros a; simpl; [lia|].
  rewrite (IH (a + Card.value c)), (IH (0 + Card.value c)). lia.
Qed.

Lemma rawSum_snoc (cs : list Card) (c : Card) :
  HandSum.rawSum (cs ++ [c]) = HandSum.rawSum cs + Card.value c.
Proof.
  unfold HandSum.rawSum at 1. rewrite fold_left_app. simpl.
  fold (HandSum.rawSum cs). reflexivity.
Qed.

Lemma rawSum_cons (c : Card) (cs : list Card) :
  HandSum.rawSum (c :: cs) = Card.value c + HandSum.rawSum cs.
Proof. unfold HandSum.rawSum at 1. simpl. rewrite rawSum_from. lia. Qed.

Lemma rawSum_nonneg (cs : list Card) : 0 <= HandSum.rawSum cs.
Proof.
  induction cs as [|c cs IH]; [reflexivity|].
  rewrite rawSum_cons. pose proof (value_pos c). lia.
Qed.

Lemma rawSum_length (cs : list Card) : Z.of_nat (length cs) <= HandSum.rawSum cs.
Proof.
  induction cs as [|c cs IH]; [reflexivity|].
  rewrite rawSum_cons. pose proof (value_pos c). simpl length. lia.
Qed.

Lemma someAce_snoc (cs : list Card) (c : Card) :
  HandSum.someAce (cs ++ [c]) = HandSum.someAce cs || bool_decide (rank c = ACE).
Proof.
  unfold HandSum.someAce. rewrite existsb_app. simpl.
  rewrite orb_false_r. reflexivity.
Qed.

Lemma someAce_rawSum (cs : list Card) : HandSum.someAce cs = true -> 1 <= HandSum.rawSum cs.
Proof.
  destruct cs as [|c cs]; [discriminate|]. intros _.
  pose proof (rawSum_length (c :: cs)). simpl length in *. lia.
Qed.

(** The incremental update after a full computation is the full
    computation on the longer array. *)
Lemma hit_fromCards (cs : list Card) (c : Card) :
  HandSum.hit (HandSum.fromCards cs) c = HandSum.fromCards (cs ++ [c]).
Proof.
  unfold HandSum.hit, HandSum.fromCards, PERFECT.
  rewrite someAce_snoc, rawSum_snoc.
  pose proof (value_pos c) as Hv.
  pose proof (rawSum_nonneg cs) as H0.
  destruct (HandSum.someAce cs) eqn:Ha.
  - apply someAce_rawSum in Ha. simpl orb.
    destruct (bool_decide (rank c = ACE)) eqn:Hc.
    + apply bool_decide_eq_true in Hc. rewrite (value_ace c Hc) in *.
      repeat (case_bool_decide; simpl in * ); try lia; f_equal; lia.
    + repeat (case_bool_decide; simpl in * ); try lia; f_equal; lia.
  - simpl orb. destruct (bool_decide (rank c = ACE)) eqn:Hc.
    + apply bool_decide_eq_true in Hc. rewrite (value_ace c Hc) in *.
      repeat (case_bool_decide; simpl in * ); try lia; f_equal; lia.
    + repeat (case_bool_decide; simpl in * ); try lia; f_equal; lia.
Qed.

(** C6.  For every list of cards and every card appended to it,
    [HandSum.hit] applied to [HandSum.fromCards] of the list gives the
    same sum and the same soft flag as [HandSum.fromCards] of the extended
    list. *)
Theorem hit_agrees_with_fromCards (cs : list Card) (c : Card) :
  sum (HandSum.hit (HandSum.fromCards cs) c) = sum (HandSum.fromCards (cs ++ [c]))
  /\ soft (HandSum.hit (HandSum.fromCards cs) c) = soft (HandSum.fromCards (cs ++ [c])).
Proof. rewrite hit_fromCards. split; reflexivity. Qed.

(** ** Comparison of two hands *)

(** C7.  [Hand.compare] gives WIN to the strictly higher total and LOSE
    to the lower; equal totals tie, except at 21, where a hand of at most
    two cards beats a longer one and two hands of the same kind tie. *)
Theorem compare_by_total_then_natural (this hand : Hand) :
  let ourSum := sum (handSum this) in
  let theirSum := sum (handSum hand) in
  (ourSum > theirSum -> Hand.compare this hand = WIN)
  /\ (ourSum < theirSum -> Hand.compare this hand = LOSE)
  /\ (ourSum = theirSum -> ourSum <> 21 -> Hand.compare this hand = TIE)
  /\ (ourSum = theirSum -> ourSum = 21 -> natural this -> ~ natural hand ->
      Hand.compare this hand = WIN)
  /\ (ourSum = theirSum -> ourSum = 21 -> ~ natural this -> natural hand ->
      Hand.compare this hand = LOSE)
  /\ (ourSum = theirSum -> ourSum = 21 -> (natural this <-> natural hand) ->
      Hand.compare this hand = TIE).
Proof.
  unfold Hand.compare, natural, PERFECT. cbv zeta.
  repeat split; intros;
    repeat (case_bool_decide; simpl; try lia; try tauto).
Qed.

(** C7 at a natural 21 against a three-card 21, and at 20 against 21. *)
Lemma compare_by_total_then_natural_witness :
  let ak := Hand.new [mkCard SPADES ACE false; mkCard HEARTS KING false] in
  let k56 := Hand.new [mkCard CLUBS KING false; mkCard CLUBS _5 false;
                       mkCard CLUBS _6 false] in
  let kq := Hand.new [mkCard CLUBS KING false; mkCard DIAMONDS QUEEN false] in
  Hand.compare ak k56 = WIN /\ Hand.compare k56 ak = LOSE
  /\ Hand.compare k56 k56 = TIE /\ Hand.compare kq k56 = LOSE
  /\ Hand.compare ak kq = WIN /\ Hand.compare kq kq = TIE.
Proof.
  intros ak k56 kq.
  destruct (compare_by_total_then_natural ak k56) as (_ & _ & _ & Hwin & _ & _).
  destruct (compare_by_total_then_natural k56 ak) as (_ & _ & _ & _ & Hlose & _).
  destruct (compare_by_total_then_natural k56 k56) as (_ & _ & _ & _ & _ & Htie).
  destruct (compare_by_total_then_natural kq k56) as (_ & Hlt & _).
  destruct (compare_by_total_then_natural ak kq) as (Hgt & _).
  destruct (compare_by_total_then_natural kq kq) as (_ & _ & Heq & _).
  unfold natural in *.
  split; [|split; [|split; [|split; [|split]]]].
  - apply Hwin; [reflexivity..| |]; vm_compute; lia.
  - apply Hlose; [reflexivity..| |]; vm_compute; lia.
  - apply Htie; [reflexivity..|]; vm_compute; lia.
  - apply Hlt; reflexivity.
  - apply Hgt; reflexivity.
  - apply Heq; [reflexivity|]. vm_compute. discriminate.
Defined.

(** ** State plumbing *)

Lemma display_players (deleted :
  nat -> bool) d g : players (Blackjack.display deleted d g) = players g.
Proof.
  unfold Blackjack.display.
  destruct (prompt g); [destruct (deleted _)|]; reflexivity.
Qed.

Lemma display_dealer (deleted :
  nat -> bool) d g : dealer (Blackjack.display deleted d g) = dealer g.
Proof.
  unfold Blackjack.display.
  destruct (prompt g); [destruct (deleted _)|]; reflexivity.
Qed.

Lemma display_drawn (deleted :
  nat -> bool) d g : drawn (Blackjack.display deleted d g) = drawn g.
Proof.
  unfold Blackjack.display.
  destruct (prompt g); [destruct (deleted _)|]; reflexivity.
Qed.

Lemma display_prompt (deleted :
  nat -> bool) d g : prompt (Blackjack.display deleted d g) = Some d.
Proof.
  unfold Blackjack.display.
  destruct (prompt g); [destruct (deleted _)|]; reflexivity.
Qed.

Lemma display_log (deleted : nat -> bool) d g :
  exists e, shown e = d /\ log (Blackjack.display deleted d g) = log g ++ [e].
Proof.
  unfold Blackjack.display.
  destruct (prompt g);
    [destruct (deleted _); [exists (Sent d) | exists (Edited d)] | exists (Sent d)];
    split; reflexivity.
Qed.

Lemma display_getHand (deleted : nat -> bool) d g p h :
  Blackjack.getHand (Blackjack.display deleted d g) p h = Blackjack.getHand g p h.
Proof. unfold Blackjack.getHand. rewrite display_players. reflexivity. Qed.

Lemma settlements_snoc (l : list Event) (e : Event) :
  settlements (l ++ [e]) = settlements l ++ option_list (settlement (shown e)).
Proof.
  unfold settlements. rewrite omap_app. simpl.
  destruct (settlement (shown e)); reflexivity.
Qed.

Lemma inactivityNotices_snoc (l : list Event) (e : Event) :
  inactivityNotices (l ++ [e])
  = (inactivityNotices l + if decide (shown e = Inactivity) then 1 else 0)%nat.
Proof.
  unfold inactivityNotices. rewrite filter_app, length_app.
  rewrite filter_cons, filter_nil. destruct (decide (shown e = Inactivity)); reflexivity.
Qed.

Lemma display_settlements (deleted : nat -> bool) d g :
  settlements (log (Blackjack.display deleted d g))
  = settlements (log g) ++ option_list (settlement d).
Proof.
  destruct (display_log deleted d g) as (e & He & ->).
  rewrite settlements_snoc, He. reflexivity.
Qed.

Lemma display_inactivityNotices (deleted : nat -> bool) d g :
  d <> Inactivity ->
  inactivityNotices (log (Blackjack.display deleted d g)) = inactivityNotices (log g).
Proof.
  intros Hd. destruct (display_log deleted d g) as (e & He & ->).
  rewrite inactivityNotices_snoc, He.
  destruct (decide (d = Inactivity)); [contradiction | lia].
Qed.

Lemma getHand_updHand g p h f hand :
  Blackjack.getHand g p h = Some hand ->
  Blackjack.getHand (Blackjack.updHand p h f g) p h = Some (f hand).
Proof.
  unfold Blackjack.getHand, Blackjack.updHand, Blackjack.setPlayers.
  cbn [players]. rewrite list_lookup_alter_eq.
  destruct (players g !! p) as [player|]; [|discriminate].
  cbn. rewrite list_lookup_alter_eq. intros ->. reflexivity.
Qed.

(** ** The dealer *)

Lemma weight_hit (s : HandSum) (c : Card) : weight s + 1 <= weight (HandSum.hit s c).
Proof.
  pose proof (value_pos c).
  unfold weight, HandSum.hit, PERFECT. destruct s as [n [|]]; simpl;
    repeat (case_bool_decide; simpl in * ); lia.
Qed.

Lemma dealerMove_cases g :
  let s := handSum (super (dealer g)) in
  (Blackjack.dealerMove g = HIT /\ (sum s < 17 \/ sum s = 17 /\ soft s = true))
  \/ (Blackjack.dealerMove g = STAND
      /\ ~ (sum s < 17 \/ sum s = 17 /\ soft s = true)).
Proof.
  unfold Blackjack.dealerMove. cbv zeta.
  destruct (soft (handSum (super (dealer g))));
    repeat (case_bool_decide; simpl); intuition (try lia; try discriminate).
Qed.

(** With enough iterations the loop of the dealer ends, standing or
    bust, and it touches nothing but the dealer, the draw count and the
    prompt. *)
Lemma dealerLoop_ends (randInt : nat -> nat) (deleted : nat -> bool) (n : nat) (g : Blackjack) :
  (0 < n)%nat ->
  28 - weight (handSum (super (dealer g))) < Z.of_nat n ->
  exists g',
    players g' = players g
    /\ inactivityNotices (log g') = inactivityNotices (log g)
    /\ ((dealerLoop randInt deleted n g = (g', Stood)
         /\ status (super (dealer g')) = Status.STAND
         /\ Blackjack.dealerMove g' = STAND
         /\ settlements (log g') = settlements (log g)
         /\ (~ sum (handSum (super (dealer g))) > PERFECT ->
             ~ sum (handSum (super (dealer g'))) > PERFECT))
        \/ (dealerLoop randInt deleted n g = (g', Busted)
            /\ status (super (dealer g')) = Status.BUST
            /\ sum (handSum (super (dealer g'))) > PERFECT
            /\ settlements (log g') = settlements (log g) ++ [WIN])).
Proof.
  revert g. induction n as [|n IH]; intros g Hpos Hn; [lia|].
  - simpl dealerLoop.
    destruct (dealerMove_cases g) as [[-> Hc]|[Hm Hc]].
    + unfold draw, fromRandom. cbv zeta. simpl.
      set (card := Card.fromId (randInt (drawn g)) false).
      pose proof (weight_hit (handSum (super (dealer g))) card) as Hw.
      case_bool_decide as Hb.
      * eexists. split; [|split; [|right; split; [reflexivity|]]].
        -- rewrite display_players. reflexivity.
        -- rewrite display_inactivityNotices by discriminate. reflexivity.
        -- rewrite display_dealer, display_settlements. simpl.
           split; [reflexivity|]. split; [exact Hb|reflexivity].
      * match goal with |- context [dealerLoop _ deleted n ?g1] =>
          destruct (IH g1) as (g' & Hp & Hi & Hend) end.
        { unfold weight in Hn. destruct Hc as [Hc|[Hc Hs]];
            [destruct (soft _) | rewrite Hs in Hn]; lia. }
        { rewrite display_dealer. simpl. lia. }
        exists g'. rewrite display_players in Hp.
        rewrite display_inactivityNotices in Hi by discriminate.
        rewrite display_settlements in Hend. simpl in Hend.
        rewrite app_nil_r in Hend. rewrite display_dealer in Hend.
        simpl in Hp, Hi, Hend.
        split; [exact Hp|]. split; [exact Hi|].
        destruct Hend as [(E & Hs & Hm & Hl & Hk)|Hend]; [left|right; exact Hend].
        repeat (split; [assumption|]). intros _. apply Hk. exact Hb.
    + rewrite Hm. eexists. split; [|split; [|left; split; [reflexivity|]]];
        try reflexivity.
      split; [reflexivity|]. split; [|split; [reflexivity|]].
      * unfold Blackjack.dealerMove in *. simpl. exact Hm.
      * simpl. tauto.
Qed.

Lemma drawsOnto_snoc randInt (n : nat) :
  forall k d,
    drawsOnto randInt k (S n) d
    = drawsOnto randInt (S k) n (Dealer.hit d (Card.fromId (randInt k) false)).
Proof. reflexivity. Qed.

(** The loop of the dealer, draw by draw: the dealer takes the next
    cards of the shoe for as long as the policy hits, and stops on the
    first total on which the policy stands, at 21 or below, or on the
    first total above 21. *)
Lemma dealerLoop_trace randInt (deleted : nat -> bool) (n : nat) :
  forall g,
    (0 < n)%nat ->
    28 - weight (handSum (super (dealer g))) < Z.of_nat n ->
    Hand.bust (super (dealer g)) = false ->
    exists k g' e,
      dealerLoop randInt deleted n g = (g', e)
      /\ (forall j, (j < k)%nat ->
            policyHits (handSum (super (drawsOnto randInt (drawn g) j (dealer g)))))
      /\ ((e = Stood
           /\ ~ policyHits (handSum (super (drawsOnto randInt (drawn g) k (dealer g))))
           /\ sum (handSum (super (drawsOnto randInt (drawn g) k (dealer g)))) <= 21
           /\ dealer g'
              = Dealer.setStatus Status.STAND (drawsOnto randInt (drawn g) k (dealer g)))
          \/ (e = Busted
              /\ sum (handSum (super (drawsOnto randInt (drawn g) k (dealer g)))) > 21
              /\ dealer g'
                 = Dealer.setStatus Status.BUST
                     (drawsOnto randInt (drawn g) k (dealer g))))
      /\ drawn g' = (drawn g + k)%nat
      /\ players g' = players g.
Proof.
  induction n as [|n IH]; intros g Hpos Hn Hnb; [lia|].
  simpl dealerLoop.
  destruct (dealerMove_cases g) as [[-> Hc]|[Hm Hc]].
  - unfold draw, fromRandom. cbv zeta.
    cbn [dealer drawn Blackjack.setDealer Blackjack.setDrawn].
    set (card := Card.fromId (randInt (drawn g)) false).
    pose proof (weight_hit (handSum (super (dealer g))) card) as Hw.
    case_bool_decide as Hb.
    + exists 1%nat. eexists. exists Busted. split; [reflexivity|].
      split; [intros j Hj; replace j with 0%nat by lia; exact Hc|].
      split; [right; split; [reflexivity|]; split; [exact Hb|];
              rewrite display_dealer; reflexivity|].
      rewrite display_drawn, display_players. split; [simpl; lia | reflexivity].
    + match goal with |- context [dealerLoop _ _ n ?g1] =>
        destruct (IH g1) as (k & g' & e & Hrun & Hhits & Hend & Hk & Hp) end.
      { unfold weight in Hn. destruct Hc as [Hc|[Hc Hs]];
          [destruct (soft _) | rewrite Hs in Hn]; lia. }
      { rewrite display_dealer. simpl. lia. }
      { rewrite display_dealer. unfold Hand.bust, HandSum.bust. cbn [super].
        apply bool_decide_eq_false_2. exact Hb. }
      rewrite display_dealer, display_drawn in Hhits, Hend.
      rewrite display_drawn in Hk. rewrite display_players in Hp.
      cbn [dealer drawn players Blackjack.setDealer Blackjack.setDrawn]
        in Hhits, Hend, Hk, Hp.
      exists (S k), g', e. split; [exact Hrun|].
      split; [intros [|j] Hj; [exact Hc | apply Hhits; lia]|].
      split; [exact Hend|]. split; [lia | exact Hp].
  - rewrite Hm. exists 0%nat. eexists. exists Stood. split; [reflexivity|].
    split; [intros j Hj; lia|].
    split; [left; split; [reflexivity|]; split; [exact Hc|]; split; [|reflexivity]|].
    + unfold Hand.bust, HandSum.bust, PERFECT in Hnb.
      apply bool_decide_eq_false in Hnb. simpl. lia.
    + split; [simpl; lia | reflexivity].
Qed.

(** C8.  The move of the dealer is a function of its hand sum: HIT
    exactly when the total is below 17, or is 17 and soft, STAND
    otherwise.  The loop of a dealer that is not bust follows it: the
    dealer draws the next cards of the shoe, one at a time, for as long
    as the policy hits, and the loop ends in one of two ways only, by
    standing on the first total on which the policy stands, a total of
    at most 21, or by busting on the first total above 21.  It draws
    nothing else and touches no participant. *)
Theorem dealer_policy_and_loop_end randInt (deleted : nat -> bool) (g : Blackjack) :
  let s := handSum (super (dealer g)) in
  (Blackjack.dealerMove g = if bool_decide (policyHits s) then HIT else STAND)
  /\ (Hand.bust (super (dealer g)) = false ->
      forall n, (0 < n)%nat -> 28 - weight s < Z.of_nat n ->
      exists k g' e,
        dealerLoop randInt deleted n g = (g', e)
        /\ (forall j, (j < k)%nat ->
              policyHits
                (handSum (super (drawsOnto randInt (drawn g) j (dealer g)))))
        /\ ((e = Stood
             /\ ~ policyHits
                    (handSum (super (drawsOnto randInt (drawn g) k (dealer g))))
             /\ sum (handSum (super (drawsOnto randInt (drawn g) k (dealer g))))
                <= 21
             /\ dealer g'
                = Dealer.setStatus Status.STAND
                    (drawsOnto randInt (drawn g) k (dealer g)))
            \/ (e = Busted
                /\ sum (handSum (super (drawsOnto randInt (drawn g) k (dealer g))))
                   > 21
                /\ dealer g'
                   = Dealer.setStatus Status.BUST
                       (drawsOnto randInt (drawn g) k (dealer g))))
        /\ drawn g' = (drawn g + k)%nat
        /\ players g' = players g).
Proof.
  cbv zeta. split.
  - unfold policyHits.
    destruct (dealerMove_cases g) as [[-> Hc]|[-> Hc]]; case_bool_decide; tauto.
  - intros Hnb n Hpos Hn. exact (dealerLoop_trace randInt deleted n g Hpos Hn Hnb).
Qed.

(** C8 on a dealer holding a hard 16 who draws a 5: HIT, then STAND on 21. *)
Lemma dealer_policy_and_loop_end_witness :
  Blackjack.dealerMove dealerOn16 = HIT
  /\ exists k g' e,
      dealerLoop (replay [4%nat]) neverDeleted 13 dealerOn16 = (g', e)
      /\ (forall j, (j < k)%nat ->
            policyHits
              (handSum (super (drawsOnto (replay [4%nat]) (drawn dealerOn16) j
                                         (dealer dealerOn16)))))
      /\ ((e = Stood
           /\ ~ policyHits
                  (handSum (super (drawsOnto (replay [4%nat]) (drawn dealerOn16) k
                                             (dealer dealerOn16))))
           /\ sum (handSum (super (drawsOnto (replay [4%nat]) (drawn dealerOn16) k
                                             (dealer dealerOn16))))
              <= 21
           /\ dealer g'
              = Dealer.setStatus Status.STAND
                  (drawsOnto (replay [4%nat]) (drawn dealerOn16) k
                             (dealer dealerOn16)))
          \/ (e = Busted
              /\ sum (handSum (super (drawsOnto (replay [4%nat]) (drawn dealerOn16) k
                                                (dealer dealerOn16))))
                 > 21
              /\ dealer g'
                 = Dealer.setStatus Status.BUST
                     (drawsOnto (replay [4%nat]) (drawn dealerOn16) k
                                (dealer dealerOn16))))
      /\ drawn g' = (drawn dealerOn16 + k)%nat
      /\ players g' = players dealerOn16.
Proof.
  destruct (dealer_policy_and_loop_end (replay [4%nat]) neverDeleted dealerOn16)
    as [Hm Hl].
  split; [exact Hm|].
  apply (Hl eq_refl 13%nat); [lia | vm_compute; reflexivity].
Defined.

(** ** The moves of a participant *)

(** HIT on a hand that is not at 21: one card is drawn into the hand,
    whose status is left as it was; the turn ends exactly when the hand is
    bust. *)
Lemma playMove_HIT randInt (deleted : nat -> bool) g p h hand :
  Blackjack.getHand g p h = Some hand ->
  sum (handSum hand) <> PERFECT ->
  let hand' := Hand.hit hand (Card.fromId (randInt (drawn g)) false) in
  exists g',
    playMove randInt deleted HIT g p h
    = (g', if Hand.bust hand' then BreakHand else Continue)
    /\ Blackjack.getHand g' p h = Some hand'
    /\ status hand' = status hand
    /\ drawn g' = S (drawn g).
Proof.
  intros Hget Hsum hand'. unfold playMove. rewrite Hget.
  rewrite bool_decide_eq_false_2 by exact Hsum. cbn [andb].
  unfold draw, fromRandom. cbv zeta. cbn [drawn players dealer prompt log].
  fold hand'.
  destruct (Hand.bust hand'); eexists; (split; [reflexivity|]);
    rewrite display_getHand, display_drawn;
    (split; [rewrite (getHand_updHand _ _ _ _ hand) by exact Hget; reflexivity|]);
    split; reflexivity.
Qed.

(** DOUBLE on a hand that is not at 21: one card is drawn and the turn
    ends; a hand that is not bust gets the status SURRENDER, a bust hand
    keeps its status. *)
Lemma playMove_DOUBLE randInt (deleted : nat -> bool) g p h hand :
  Blackjack.getHand g p h = Some hand ->
  sum (handSum hand) <> PERFECT ->
  let hand' := Hand.hit hand (Card.fromId (randInt (drawn g)) false) in
  exists g',
    playMove randInt deleted DOUBLE g p h = (g', BreakHand)
    /\ Blackjack.getHand g' p h
       = Some (if Hand.bust hand' then hand'
               else Hand.setStatus Status.SURRENDER hand')
    /\ drawn g' = S (drawn g).
Proof.
  intros Hget Hsum hand'. unfold playMove. rewrite Hget.
  rewrite bool_decide_eq_false_2 by exact Hsum. cbn [andb].
  unfold draw, fromRandom. cbv zeta. cbn [drawn players dealer prompt log].
  fold hand'.
  destruct (Hand.bust hand'); eexists; (split; [reflexivity|]);
    rewrite display_getHand, display_drawn; (split; [|reflexivity]).
  - rewrite (getHand_updHand _ _ _ _ hand) by exact Hget. reflexivity.
  - rewrite (getHand_updHand _ _ _ _ hand').
    + reflexivity.
    + rewrite (getHand_updHand _ _ _ _ hand) by exact Hget. reflexivity.
Qed.

(** C2, on the round [roundDouble].  The participant holds 5 and 6 and
    doubles down; one card, a 2, is drawn, the hand is 13 and not bust,
    and its turn is over (the dealer has played and the round returned).
    The status of the hand is then SURRENDER, not DOUBLE. *)
Theorem double_leaves_status_surrender :
  exists g hand,
    roundDouble = (g, Returned)
    /\ Blackjack.getHand g 0 0 = Some hand
    /\ length (cards hand) = 3%nat
    /\ Hand.bust hand = false
    /\ status hand = Status.SURRENDER
    /\ status hand <> Status.DOUBLE.
Proof.
  eexists. eexists. split; [vm_compute; reflexivity|].
  split; [reflexivity|]. repeat split. discriminate.
Qed.

(** C3, on the round [roundHitBust].  The participant holds 10 and 5,
    hits and draws a king: the hand is bust at 25 and its turn is over
    (the dealer has played and the round returned).  The status of the
    hand is still CURRENT, not BUST. *)
Theorem hit_bust_leaves_status_current :
  exists g hand,
    roundHitBust = (g, Returned)
    /\ Blackjack.getHand g 0 0 = Some hand
    /\ sum (handSum hand) = 25
    /\ Hand.bust hand = true
    /\ status hand = Status.CURRENT
    /\ status hand <> Status.BUST.
Proof.
  eexists. eexists. split; [vm_compute; reflexivity|].
  split; [reflexivity|]. repeat split. discriminate.
Qed.

Lemma equal_pair_not_perfect (c0 c1 : Card) :
  Card.value c0 = Card.value c1 -> sum (HandSum.fromCards [c0; c1]) <> PERFECT.
Proof.
  destruct c0 as [s0 r0 d0], c1 as [s1 r1 d1].
  destruct r0, r1; intros H1 H2; vm_compute in H1, H2; congruence.
Qed.

Lemma getHand_player g p h hand :
  Blackjack.getHand g p h = Some hand ->
  exists player, players g !! p = Some player /\ hands player !! h = Some hand.
Proof.
  unfold Blackjack.getHand. destruct (players g !! p) as [player|]; [|discriminate].
  intros H. exists player. split; [reflexivity | exact H].
Qed.

Lemma handCount_display (deleted :
  nat -> bool) d g p : handCount (Blackjack.display deleted d g) p = handCount g p.
Proof. unfold handCount. rewrite display_players. reflexivity. Qed.

(** A split that is carried out: the turn goes on, the split is shown,
    and the participant has one hand more. *)
Lemma playMove_SPLIT_accepted randInt (deleted : nat -> bool) g p h hand c0 c1 :
  Blackjack.getHand g p h = Some hand ->
  sum (handSum hand) <> PERFECT ->
  cards hand = [c0; c1] ->
  Card.value c0 = Card.value c1 ->
  exists g' card1 card2,
    playMove randInt deleted SPLIT g p h = (g', Continue)
    /\ prompt g' = Some (SplitDraw card1 card2)
    /\ handCount g' p = S (handCount g p).
Proof.
  intros Hget Hsum Hcards Hval. unfold playMove. rewrite Hget.
  rewrite bool_decide_eq_false_2 by exact Hsum. cbn [andb].
  rewrite Hcards. cbn [length lookup list_lookup].
  rewrite bool_decide_eq_false_2 by lia.
  rewrite bool_decide_eq_false_2 by (intros Hne; apply Hne; exact Hval).
  unfold draw, fromRandom. cbv zeta. cbn [drawn players dealer prompt log].
  eexists. eexists. eexists. split; [reflexivity|].
  split; [apply display_prompt|].
  rewrite handCount_display. unfold handCount.
  destruct (getHand_player g p h hand Hget) as (player & Hp & Hh).
  unfold Blackjack.updHand, Blackjack.spliceHand, Blackjack.setPlayers,
    Blackjack.setDrawn.
  cbn [players]. rewrite !list_lookup_alter_eq, Hp. cbn.
  rewrite !length_alter, length_app. cbn [length].
  rewrite length_take, length_drop, length_alter.
  apply lookup_lt_Some in Hh. lia.
Qed.

(** C9.  For a hand in play (at least two cards, its sum the sum of its
    cards), SPLIT is carried out exactly when the hand has exactly two
    cards of equal point value; a split that is refused leaves the
    participants with their hands (cards, sums, statuses, hand lists), the
    dealer and the draw count as they were; either way the turn of the
    same hand goes on. *)
Theorem split_accepted_iff_equal_pair randInt (deleted : nat -> bool) g p h hand :
  Blackjack.getHand g p h = Some hand ->
  (2 <= length (cards hand))%nat ->
  handSum hand = HandSum.fromCards (cards hand) ->
  exists g',
    playMove randInt deleted SPLIT g p h = (g', Continue)
    /\ (splittable hand <-> handCount g' p = S (handCount g p))
    /\ (~ splittable hand ->
        players g' = players g /\ dealer g' = dealer g /\ drawn g' = drawn g
        /\ Blackjack.getHand g' p h = Some hand).
Proof.
  intros Hget Hlen Hwf.
  assert (Hdec : splittable hand \/ ~ splittable hand).
  { unfold splittable.
    destruct (cards hand) as [|c0 [|c1 [|c2 rest]]] eqn:Hc;
      try (right; intros (a & b & E & _); discriminate).
    destruct (decide (Card.value c0 = Card.value c1)) as [Hv|Hv].
    - left. exists c0, c1. split; [reflexivity | exact Hv].
    - right. intros (a & b & E & Hab). injection E as <- <-. contradiction. }
  destruct Hdec as [Hs|Hs].
  - destruct Hs as (c0 & c1 & Hc & Hv).
    assert (Hsum : sum (handSum hand) <> PERFECT).
    { rewrite Hwf, Hc. apply equal_pair_not_perfect. exact Hv. }
    destruct (playMove_SPLIT_accepted randInt deleted g p h hand c0 c1 Hget Hsum Hc Hv)
      as (g' & card1 & card2 & Hrun & _ & Hcount).
    exists g'. split; [exact Hrun|]. split.
    + split; [intros _; exact Hcount | intros _; exists c0, c1; auto].
    + intros Hn. exfalso. apply Hn. exists c0, c1. auto.
  - assert (Hrej : exists d, playMove randInt deleted SPLIT g p h
                             = (Blackjack.display deleted d g, Continue)).
    { unfold playMove. rewrite Hget.
      destruct (bool_decide (sum (handSum hand) = PERFECT)
                && bool_decide (SPLIT <> STAND)); [eauto|].
      case_bool_decide as Hl; [eauto|].
      destruct (cards hand) as [|c0 [|c1 [|c2 rest]]] eqn:Hc;
        simpl in Hlen, Hl; try lia.
      cbn [lookup list_lookup].
      case_bool_decide as Hv; [eauto|].
      exfalso. apply Hs. exists c0, c1. split; [exact Hc|].
      destruct (decide (Card.value c0 = Card.value c1)); [assumption|contradiction]. }
    destruct Hrej as (d & Hrun). exists (Blackjack.display deleted d g).
    split; [exact Hrun|]. split.
    + rewrite handCount_display. split; [contradiction | lia].
    + intros _. rewrite display_players, display_dealer, display_drawn,
        display_getHand. auto.
Qed.

(** C9 on 10 of clubs with queen of diamonds, which splits, and on 10 of
    clubs with 9 of diamonds, which does not. *)
Lemma split_accepted_iff_equal_pair_witness :
  (exists g',
     playMove (replay [9; 24; 9; 46; 2; 3]%nat) neverDeleted SPLIT (tableOf tenQueen) 0 0
     = (g', Continue)
     /\ (splittable tenQueen <-> handCount g' 0 = S (handCount (tableOf tenQueen) 0))
     /\ (~ splittable tenQueen ->
         players g' = players (tableOf tenQueen)
         /\ dealer g' = dealer (tableOf tenQueen)
         /\ drawn g' = drawn (tableOf tenQueen)
         /\ Blackjack.getHand g' 0 0 = Some tenQueen))
  /\ (exists g',
       playMove (replay [9; 24; 9; 46; 2; 3]%nat) neverDeleted SPLIT (tableOf tenNine) 0 0
       = (g', Continue)
       /\ (splittable tenNine <-> handCount g' 0 = S (handCount (tableOf tenNine) 0))
       /\ (~ splittable tenNine ->
           players g' = players (tableOf tenNine)
           /\ dealer g' = dealer (tableOf tenNine)
           /\ drawn g' = drawn (tableOf tenNine)
           /\ Blackjack.getHand g' 0 0 = Some tenNine)).
Proof.
  split.
  - apply (split_accepted_iff_equal_pair (replay [9; 24; 9; 46; 2; 3]%nat) neverDeleted
             (tableOf tenQueen));
      [reflexivity | simpl; lia | reflexivity].
  - apply (split_accepted_iff_equal_pair (replay [9; 24; 9; 46; 2; 3]%nat) neverDeleted
             (tableOf tenNine));
      [reflexivity | simpl; lia | reflexivity].
Defined.

(** ** A hand built as a blackjack *)

Lemma new_blackjack_sum (cs : list Card) :
  status (Hand.new cs) = Status.BLACKJACK -> sum (handSum (Hand.new cs)) = PERFECT.
Proof.
  unfold Hand.new, Hand.blackjack. cbn [status handSum cards].
  case_bool_decide as Hs; [intros _; exact Hs | cbn [andb]; discriminate].
Qed.

(** At 21 every move but STAND is refused and changes nothing but the
    prompt. *)
Lemma playMove_at_21 randInt (deleted : nat -> bool) g p h hand m :
  Blackjack.getHand g p h = Some hand ->
  sum (handSum hand) = PERFECT ->
  m <> STAND ->
  playMove randInt deleted m g p h = (Blackjack.display deleted BestSum g, Continue).
Proof.
  intros Hget Hsum Hm. unfold playMove. rewrite Hget.
  rewrite bool_decide_eq_true_2 by exact Hsum.
  rewrite bool_decide_eq_true_2 by exact Hm. reflexivity.
Qed.

Lemma playMove_STAND randInt (deleted : nat -> bool) g p h hand :
  Blackjack.getHand g p h = Some hand ->
  playMove randInt deleted STAND g p h
  = (Blackjack.updHand p h (Hand.setStatus Status.STAND) g, BreakHand).
Proof.
  intros Hget. unfold playMove. rewrite Hget.
  rewrite (bool_decide_eq_false_2 (STAND <> STAND)) by (intros H; apply H; reflexivity).
  rewrite andb_false_r. reflexivity.
Qed.

(** C4 fails as stated: the participant of [roundBlackjack] is dealt ace
    and king, so the hand is built with the status BLACKJACK; with no reply
    yet the round is awaiting a move for that very hand, whose status is
    now CURRENT. *)
Lemma blackjack_status_is_overwritten :
  exists hand g hand',
    Blackjack.getHand dealtBlackjack 0 0 = Some hand
    /\ status hand = Status.BLACKJACK
    /\ roundBlackjack [] = (g, Awaiting 0 0)
    /\ Blackjack.getHand g 0 0 = Some hand'
    /\ cards hand' = cards hand
    /\ status hand' = Status.CURRENT.
Proof.
  eexists. eexists. eexists.
  split; [vm_compute; reflexivity|]. split; [reflexivity|].
  split; [vm_compute; reflexivity|]. split; [reflexivity|].
  split; reflexivity.
Qed.

(** ** The deal *)

Lemma dealPlayers_first randInt (user : User) (users : list User) (k : nat) :
  exists hand rest, (dealPlayers randInt (user :: users) k).1
                    = mkPlayer [hand] user :: rest.
Proof.
  simpl. destruct (dealPlayers randInt users (S (S k))) as [ps k'].
  eexists. eexists. reflexivity.
Qed.

Lemma deal_shape randInt (users : list User) :
  exists c0 c1,
    down c0 = false
    /\ deal randInt users
       = mkBlackjack (dealPlayers randInt users 0).1 (Dealer.new [c0; c1]) None
                     (S (S (dealPlayers randInt users 0).2)) [].
Proof.
  unfold deal. destruct (dealPlayers randInt users 0) as [ps k].
  eexists. eexists. split; [|reflexivity]. reflexivity.
Qed.

Lemma deal_first_hand randInt (users : list User) :
  users <> [] -> exists hand, Blackjack.getHand (deal randInt users) 0 0 = Some hand.
Proof.
  destruct users as [|user users]; [congruence|]. intros _.
  destruct (deal_shape randInt (user :: users)) as (c0 & c1 & _ & ->).
  destruct (dealPlayers_first randInt user users 0) as (hand & rest & E).
  unfold Blackjack.getHand. cbn [players]. rewrite E. exists hand. reflexivity.
Qed.

(** C5, as the code has it.  When the two cards dealt to the dealer total
    21 its hidden card is turned up and the round returns at once: no
    reply is read and the hands of the participants stay as dealt; one
    outcome is announced, that of the first participant's hand, TIE if it
    totals 21 and LOSE otherwise. *)
Theorem dealer_blackjack_ends_round randInt (deleted : nat -> bool) (users : list User) :
  users <> [] ->
  sum (handSum (super (dealer (deal randInt users)))) = PERFECT ->
  exists hand g',
    Blackjack.getHand (deal randInt users) 0 0 = Some hand
    /\ (forall replies, runGame randInt deleted users replies = (g', Returned))
    /\ players g' = players (deal randInt users)
    /\ drawn g' = drawn (deal randInt users)
    /\ hidden (dealer g') = false
    /\ Forall (fun c => down c = false) (cards (super (dealer g')))
    /\ log g' = [Sent (DealerBlackjack
                         (if bool_decide (sum (handSum hand) = PERFECT)
                          then TIE else LOSE))].
Proof.
  intros Hu Hsum.
  destruct (deal_first_hand randInt users Hu) as (hand & Hget).
  exists hand. unfold runGame.
  rewrite bool_decide_eq_true_2 by exact Hsum.
  destruct (deal_shape randInt users) as (c0 & c1 & Hd0 & E).
  rewrite E in *. unfold dealerBlackjack. cbn [dealer Dealer.reveal Dealer.new
    super Hand.new cards lookup list_lookup].
  unfold Blackjack.getHand in *. cbn [players Blackjack.setDealer] in *.
  rewrite Hget. eexists. split; [reflexivity|].
  split; [intros replies; reflexivity|].
  cbn. repeat split; try reflexivity.
  repeat constructor. exact Hd0.
Qed.

(** C5 on one participant dealt 5 and 6 against a dealer dealt ace and
    king. *)
Lemma dealer_blackjack_ends_round_witness :
  exists hand g',
    Blackjack.getHand (deal (replay [4; 5; 0; 12]%nat) [alice]) 0 0 = Some hand
    /\ (forall replies,
        runGame (replay [4; 5; 0; 12]%nat) neverDeleted [alice] replies = (g', Returned))
    /\ players g' = players (deal (replay [4; 5; 0; 12]%nat) [alice])
    /\ drawn g' = drawn (deal (replay [4; 5; 0; 12]%nat) [alice])
    /\ hidden (dealer g') = false
    /\ Forall (fun c => down c = false) (cards (super (dealer g')))
    /\ log g' = [Sent (DealerBlackjack
                         (if bool_decide (sum (handSum hand) = PERFECT)
                          then TIE else LOSE))].
Proof.
  apply (dealer_blackjack_ends_round (replay [4; 5; 0; 12]%nat) neverDeleted [alice]);
    [discriminate | reflexivity].
Defined.

(** C5 fails as stated: in [roundDealerNatural] the dealer is dealt 21,
    the first participant holds 11 and the second holds 21.  The round
    announces the single outcome LOSE; settling every participant would
    give LOSE to the first and TIE to the second. *)
Lemma dealer_blackjack_settles_first_only :
  exists g,
    roundDealerNatural = (g, Returned)
    /\ settlements (log g) = [LOSE]
    /\ dealerBlackjack_spec g = [LOSE; TIE].
Proof.
  eexists. split; [vm_compute; reflexivity|]. split; reflexivity.
Qed.

(** ** Settlement *)

Lemma reveal_Some (d : Dealer) :
  (2 <= length (cards (super d)))%nat ->
  exists card d',
    Dealer.reveal d = Some (card, d')
    /\ handSum (super d') = handSum (super d)
    /\ status (super d') = status (super d).
Proof.
  intros Hlen. unfold Dealer.reveal.
  destruct (lookup_lt_is_Some_2 (cards (super d)) 1%nat) as [c Hc]; [lia|].
  rewrite Hc. eexists. eexists. split; [reflexivity|]. split; reflexivity.
Qed.

(** The turn of the dealer and what follows return, the loop of the
    dealer needing no more passes than its bound; the participants are
    left as they were and one outcome is announced: the automatic win on a
    bust dealer, and otherwise the comparison of the first hand of the
    first participant with the dealer. *)
Lemma dealerTurn_settles randInt (deleted : nat -> bool) g hand :
  Blackjack.getHand g 0 0 = Some hand ->
  (2 <= length (cards (super (dealer g))))%nat ->
  Hand.bust (super (dealer g)) = false ->
  exists g',
    dealerTurn randInt deleted g = (g', Returned)
    /\ players g' = players g
    /\ inactivityNotices (log g') = inactivityNotices (log g)
    /\ ((Hand.bust (super (dealer g')) = true
         /\ status (super (dealer g')) = Status.BUST
         /\ settlements (log g') = settlements (log g) ++ [WIN])
        \/ (Hand.bust (super (dealer g')) = false
            /\ status (super (dealer g')) = Status.STAND
            /\ settlements (log g')
               = settlements (log g) ++ [Hand.compare hand (super (dealer g'))])).
Proof.
  intros Hget Hlen Hnb. unfold dealerTurn. cbv zeta.
  destruct (reveal_Some (dealer (Blackjack.setDealer
              (Dealer.setStatus Status.CURRENT (dealer g)) g)))
    as (card & d' & -> & Hsum & _); [exact Hlen|].
  cbn [dealer Blackjack.setDealer Dealer.setStatus super Hand.setStatus handSum]
    in Hsum.
  set (g1 := Blackjack.display deleted (DealerReveal card) _).
  assert (Hd1 : handSum (super (dealer g1)) = handSum (super (dealer g))).
  { unfold g1. rewrite display_dealer. exact Hsum. }
  assert (Hp1 : players g1 = players g).
  { unfold g1. rewrite display_players. reflexivity. }
  assert (Hs1 : settlements (log g1) = settlements (log g)).
  { unfold g1. rewrite display_settlements. simpl. apply app_nil_r. }
  assert (Hi1 : inactivityNotices (log g1) = inactivityNotices (log g)).
  { unfold g1. rewrite display_inactivityNotices by discriminate. reflexivity. }
  destruct (dealerLoop_ends randInt deleted
              (S (Z.to_nat (28 - weight (handSum (super (dealer g1)))))) g1)
    as (g' & Hp & Hi & Hend); [lia | lia |].
  destruct Hend as [(-> & Hst & _ & Hl & Hk)|(-> & Hst & Hb & Hl)].
  - unfold settle, Blackjack.getHand. rewrite Hp, Hp1.
    unfold Blackjack.getHand in Hget. rewrite Hget.
    eexists. split; [reflexivity|].
    rewrite display_players, display_dealer, display_settlements.
    rewrite display_inactivityNotices by discriminate.
    split; [congruence|]. split; [congruence|]. right.
    split; [|split; [exact Hst | simpl; congruence]].
    unfold Hand.bust, HandSum.bust in *.
    apply bool_decide_eq_false in Hnb. apply bool_decide_eq_false.
    apply Hk. rewrite Hd1. exact Hnb.
  - exists g'. split; [reflexivity|]. split; [congruence|]. split; [congruence|].
    left. split; [|split; [exact Hst | congruence]].
    unfold Hand.bust, HandSum.bust. apply bool_decide_eq_true_2. exact Hb.
Qed.

(** C1, as the code has it.  Once the turns of the participants are over
    the dealer plays and the round returns with one outcome announced, for
    the first hand of the first participant.  When that hand is neither
    bust nor surrendered, the outcome is the one the specification gives
    it: WIN if the dealer is bust, and otherwise the result of
    [Hand.compare] against the final hand of the dealer.  The dealer ends
    with the status BUST or STAND accordingly. *)
Theorem settlement_of_first_hand randInt (deleted : nat -> bool) g hand :
  Blackjack.getHand g 0 0 = Some hand ->
  status hand <> Status.BUST ->
  status hand <> Status.SURRENDER ->
  Hand.bust hand = false ->
  (2 <= length (cards (super (dealer g))))%nat ->
  Hand.bust (super (dealer g)) = false ->
  exists g',
    dealerTurn randInt deleted g = (g', Returned)
    /\ players g' = players g
    /\ status (super (dealer g'))
       = (if Hand.bust (super (dealer g')) then Status.BUST else Status.STAND)
    /\ settlements (log g')
       = settlements (log g) ++ [settleHand_spec (super (dealer g')) hand]
    /\ settleHand_spec (super (dealer g')) hand
       = (if Hand.bust (super (dealer g')) then WIN
          else Hand.compare hand (super (dealer g'))).
Proof.
  intros Hget Hb Hs _ Hlen Hnb.
  destruct (dealerTurn_settles randInt deleted g hand Hget Hlen Hnb)
    as (g' & Hrun & Hp & _ & Hend).
  exists g'. split; [exact Hrun|]. split; [exact Hp|].
  assert (Hspec : settleHand_spec (super (dealer g')) hand
                  = if Hand.bust (super (dealer g')) then WIN
                    else Hand.compare hand (super (dealer g'))).
  { unfold settleHand_spec. rewrite bool_decide_eq_false_2 by tauto. reflexivity. }
  rewrite Hspec.
  destruct Hend as [(-> & -> & ->)|(-> & -> & ->)]; repeat split; reflexivity.
Qed.

(** C1 on a participant who stood on 20 against a dealer holding 10 and
    8. *)
Lemma settlement_of_first_hand_witness :
  exists g',
    dealerTurn (replay []) neverDeleted tableStood = (g', Returned)
    /\ players g' = players tableStood
    /\ status (super (dealer g'))
       = (if Hand.bust (super (dealer g')) then Status.BUST else Status.STAND)
    /\ settlements (log g')
       = settlements (log tableStood)
         ++ [settleHand_spec (super (dealer g'))
               (Hand.setStatus Status.STAND
                  (Hand.new [mkCard CLUBS _10 false; mkCard HEARTS _10 false]))]
    /\ settleHand_spec (super (dealer g'))
         (Hand.setStatus Status.STAND
            (Hand.new [mkCard CLUBS _10 false; mkCard HEARTS _10 false]))
       = (if Hand.bust (super (dealer g')) then WIN
          else Hand.compare
                 (Hand.setStatus Status.STAND
                    (Hand.new [mkCard CLUBS _10 false; mkCard HEARTS _10 false]))
                 (super (dealer g'))).
Proof.
  apply (settlement_of_first_hand (replay []) neverDeleted tableStood);
    [reflexivity | discriminate | discriminate | reflexivity
     | simpl; lia | reflexivity].
Defined.

(** C1 fails as stated: in [roundTwoStand] both participants stand, on 20
    and on 17, and the dealer stands on 18.  The round announces the single
    outcome WIN; settling every hand would give WIN to the first and LOSE
    to the second. *)
Lemma settlement_covers_first_hand_only :
  exists g,
    roundTwoStand = (g, Returned)
    /\ settlements (log g) = [WIN]
    /\ settle_spec g = [WIN; LOSE].
Proof.
  eexists. split; [vm_compute; reflexivity|]. split; reflexivity.
Qed.

(** ** Inactivity *)

Lemma display_quiet (deleted : nat -> bool) d g :
  turnTalk d -> Forall (fun e => turnTalk (shown e)) (log g) ->
  quiet (Blackjack.display deleted d g).
Proof.
  intros Hd Hl. split.
  - rewrite display_prompt. eexists. reflexivity.
  - destruct (display_log deleted d g) as (e & He & ->).
    apply Forall_app. split; [exact Hl|].
    constructor; [rewrite He; exact Hd | constructor].
Qed.

Lemma quiet_counts (l : list Event) :
  Forall (fun e => turnTalk (shown e)) l -> inactivityNotices l = 0%nat.
Proof.
  induction 1 as [|e l Hi _ IHi]; [reflexivity|].
  unfold inactivityNotices in *. rewrite filter_cons.
  destruct (decide (shown e = Inactivity)); [contradiction | exact IHi].
Qed.

Local Ltac quiet_display Hq :=
  apply display_quiet; [discriminate | exact (proj2 Hq)].

(** A move of a participant shows nothing but turn talk. *)
Lemma playMove_quiet randInt (deleted : nat -> bool) m g p h g' f :
  quiet g -> playMove randInt deleted m g p h = (g', f) -> quiet g'.
Proof.
  intros Hq. unfold playMove, draw, fromRandom.
  destruct (Blackjack.getHand g p h) as [hand|]; [|intros [= <- _]; exact Hq].
  destruct (_ && _); [intros [= <- _]; quiet_display Hq|].
  destruct m; cbv zeta; repeat case_match; intros [= <- _];
    first [exact Hq | quiet_display Hq].
Qed.

Lemma enterPlayer_quiet (deleted : nat -> bool) (n : nat) g p g' pos :
  Forall (fun e => turnTalk (shown e)) (log g) ->
  enterPlayer deleted n g p = (g', Some pos) -> quiet g'.
Proof.
  revert g p. induction n as [|n IH]; intros g p Hl; simpl; [discriminate|].
  destruct (players g !! p) as [player|]; [|discriminate].
  assert (Hq : quiet (Blackjack.display deleted Prompt g)).
  { apply display_quiet; [discriminate | exact Hl]. }
  destruct (hands player !! 0%nat).
  - intros [= <- _]. exact Hq.
  - apply IH. exact (proj2 Hq).
Qed.

Lemma nextHand_quiet (deleted : nat -> bool) g p h g' pos :
  quiet g -> nextHand deleted g p h = (g', Some pos) -> quiet g'.
Proof.
  intros Hq. unfold nextHand. destruct (Blackjack.getHand g p h).
  - intros [= <- _]. exact Hq.
  - apply enterPlayer_quiet. exact (proj2 Hq).
Qed.

(** Once the dealer plays, no move is awaited any more. *)
Lemma dealerTurn_not_awaiting randInt (deleted : nat -> bool) g g' p h :
  dealerTurn randInt deleted g <> (g', Awaiting p h).
Proof.
  unfold dealerTurn, settle. cbv zeta. repeat case_match; congruence.
Qed.

(** A round that is awaiting a move after some replies goes on from
    there with the replies that follow. *)
Lemma playersLoop_resume randInt (deleted : nat -> bool) (pre : list Reply) :
  forall g p h g' p' h',
    playersLoop randInt deleted pre g p h = (g', Awaiting p' h') ->
    forall rest,
      playersLoop randInt deleted (pre ++ rest) g p h
      = playersLoop randInt deleted rest g' p' h'.
Proof.
  induction pre as [|reply pre IH]; intros g p h g' p' h'.
  - simpl. intros [= <- <- <-]. reflexivity.
  - simpl. destruct reply as [m|]; simpl; [|destruct (prompt g); discriminate].
    destruct (playMove randInt deleted m g p h) as [g1 f].
    destruct f; [apply IH | | discriminate].
    destruct (nextHand deleted g1 p (S h)) as [g2 [[p2 h2]|]].
    + apply IH.
    + intros H. exfalso. exact (dealerTurn_not_awaiting randInt deleted g2 g' p' h' H).
Qed.

Section Invariant.
Variable randInt : nat -> nat.
Variable deleted : nat -> bool.

(** A property of the round and of the hand whose move is awaited ... *)
Variable I : Blackjack -> nat -> nat -> Prop.

(** ... that a move keeps when the turn goes on, and that the hand
    taking over has when the turn ends. *)
Hypothesis I_Continue : forall m g p h g',
  I g p h -> playMove randInt deleted m g p h = (g', Continue) -> I g' p h.
Hypothesis I_BreakHand : forall m g p h g1 g' p' h',
  I g p h -> playMove randInt deleted m g p h = (g1, BreakHand) ->
  nextHand deleted g1 p (S h) = (g', Some (p', h')) -> I g' p' h'.

Lemma playersLoop_invariant (replies : list Reply) :
  forall g p h g' p' h',
    I g p h ->
    playersLoop randInt deleted replies g p h = (g', Awaiting p' h') ->
    I g' p' h'.
Proof.
  induction replies as [|reply replies IH]; intros g p h g' p' h' Hi.
  - simpl. intros [= <- <- <-]. exact Hi.
  - simpl. destruct reply as [m|]; simpl; [|destruct (prompt g); discriminate].
    destruct (playMove randInt deleted m g p h) as [g1 f] eqn:Hm.
    destruct f; [apply IH; exact (I_Continue m g p h g1 Hi Hm) | | discriminate].
    destruct (nextHand deleted g1 p (S h)) as [g2 [[p2 h2]|]] eqn:Hn.
    + apply IH. exact (I_BreakHand m g p h g1 g2 p2 h2 Hi Hm Hn).
    + intros H. exfalso. exact (dealerTurn_not_awaiting randInt deleted g2 g' p' h' H).
Qed.
End Invariant.

(** A round that awaits a move was dealt no dealer blackjack and has
    entered the turn of a first hand. *)
Lemma runGame_awaiting randInt (deleted : nat -> bool) users replies g p h :
  runGame randInt deleted users replies = (g, Awaiting p h) ->
  exists g0 p0 h0,
    enterPlayer deleted (length (players (deal randInt users))) (deal randInt users) 0
    = (g0, Some (p0, h0))
    /\ playersLoop randInt deleted replies g0 p0 h0 = (g, Awaiting p h)
    /\ forall rest,
        runGame randInt deleted users (replies ++ rest)
        = playersLoop randInt deleted rest g p h.
Proof.
  unfold runGame. cbv zeta. case_bool_decide as Hn.
  - unfold dealerBlackjack. repeat case_match; discriminate.
  - destruct (enterPlayer deleted _ _ _) as [g0 [[p0 h0]|]] eqn:He.
    + intros Hrun. exists g0, p0, h0. split; [reflexivity|]. split; [exact Hrun|].
      apply playersLoop_resume. exact Hrun.
    + intros H. exfalso. exact (dealerTurn_not_awaiting randInt deleted g0 g p h H).
Qed.

(** A round that awaits a move has been quiet. *)
Lemma runGame_awaiting_quiet randInt (deleted : nat -> bool) users replies g p h :
  runGame randInt deleted users replies = (g, Awaiting p h) -> quiet g.
Proof.
  intros Hrun.
  destruct (runGame_awaiting randInt deleted users replies g p h Hrun)
    as (g0 & p0 & h0 & He & Hloop & _).
  refine (playersLoop_invariant randInt deleted (fun g _ _ => quiet g) _ _
            replies g0 p0 h0 g p h _ Hloop).
  - intros m g1 p1 h1 g2 Hq Hm. exact (playMove_quiet randInt deleted m g1 p1 h1 g2 _ Hq Hm).
  - intros m g1 p1 h1 g2 g3 p3 h3 Hq Hm Hn.
    apply (nextHand_quiet deleted g2 p1 (S h1) g3 (p3, h3)); [|exact Hn].
    exact (playMove_quiet randInt deleted m g1 p1 h1 g2 _ Hq Hm).
  - apply (enterPlayer_quiet deleted _ _ _ _ _) with (2 := He).
    destruct (deal_shape randInt users) as (c0 & c1 & _ & ->). constructor.
Qed.

(** C10, as the code has it.  When the round is awaiting a move and the
    collector of that move ends without one, the prompt is edited to the
    inactivity notice, once, and nothing else is shown or changed: no
    outcome line is added for any hand.  But the round does not end: the
    promise of [move] never settles, so [runGame] neither returns nor
    throws, whatever is sent afterwards, and the command that started the
    round stays suspended at its [await], its players registered,
    whatever other commands do meanwhile. *)
Theorem timeout_abandons_round randInt (deleted : nat -> bool) users
    (pre post : list Reply) g p h :
  runGame randInt deleted users pre = (g, Awaiting p h) ->
  exists g',
    runGame randInt deleted users (pre ++ Expired :: post) = (g', Abandoned)
    /\ log g' = log g ++ [Edited Inactivity]
    /\ prompt g' = Some Inactivity
    /\ inactivityNotices (log g') = 1%nat
    /\ settlements (log g') = settlements (log g)
    /\ players g' = players g /\ dealer g' = dealer g /\ drawn g' = drawn g
    /\ forall channels message meanwhile channels1,
         playerUsers message = users ->
         register channels message = inr channels1 ->
         execute randInt deleted channels message (pre ++ Expired :: post)
                 meanwhile
         = (calls channels1 meanwhile, Pending g' Abandoned).
Proof.
  intros Hrun.
  destruct (runGame_awaiting randInt deleted users pre g p h Hrun)
    as (_ & _ & _ & _ & _ & Hgo).
  destruct (runGame_awaiting_quiet randInt deleted users pre g p h Hrun) as [Hp Hl].
  pose proof (quiet_counts (log g) Hl) as Hi.
  assert (Hrun' : runGame randInt deleted users (pre ++ Expired :: post)
                  = (mkBlackjack (players g) (dealer g) (Some Inactivity) (drawn g)
                                 (log g ++ [Edited Inactivity]), Abandoned)).
  { rewrite Hgo. simpl. destruct Hp as [d Hd]. rewrite Hd. reflexivity. }
  eexists. split; [exact Hrun'|]. cbn [log prompt players dealer drawn].
  split; [reflexivity|]. split; [reflexivity|].
  rewrite inactivityNotices_snoc, settlements_snoc, Hi. cbn.
  split; [reflexivity|]. split; [apply app_nil_r|].
  split; [reflexivity|]. split; [reflexivity|]. split; [reflexivity|].
  intros channels message meanwhile channels1 <- Hreg.
  unfold execute. rewrite Hreg, Hrun'. reflexivity.
Qed.

(** C10 on the round [splitThenLeave]: the participant splits a pair of
    8s and then sends nothing until the collector ends. *)
Lemma timeout_abandons_round_witness :
  exists g',
    splitThenLeave [Collected STAND; Collected STAND] = (g', Abandoned)
    /\ log g' = log afterSplit ++ [Edited Inactivity]
    /\ prompt g' = Some Inactivity
    /\ inactivityNotices (log g') = 1%nat
    /\ settlements (log g') = settlements (log afterSplit)
    /\ players g' = players afterSplit
    /\ dealer g' = dealer afterSplit
    /\ drawn g' = drawn afterSplit
    /\ forall channels message meanwhile channels1,
         playerUsers message = [alice] ->
         register channels message = inr channels1 ->
         execute (replay [7; 7; 9; 7; 2; 3]%nat) neverDeleted channels message
                 ([Collected SPLIT] ++ Expired :: [Collected STAND; Collected STAND])
                 meanwhile
         = (calls channels1 meanwhile, Pending g' Abandoned).
Proof.
  apply (timeout_abandons_round (replay [7; 7; 9; 7; 2; 3]%nat) neverDeleted [alice]
           [Collected SPLIT] [Collected STAND; Collected STAND] afterSplit 0 0).
  vm_compute. reflexivity.
Defined.

(** ** Hands in play

    The hypotheses of the split theorem hold of every hand for which a
    round awaits a move. *)

Lemma inPlay_new (c0 c1 : Card) : inPlay (Hand.new [c0; c1]).
Proof. split; [simpl; lia | reflexivity]. Qed.

Lemma inPlay_hit hand card : inPlay hand -> inPlay (Hand.hit hand card).
Proof.
  intros [Hl Hs]. split; simpl.
  - rewrite length_app. lia.
  - rewrite Hs. apply hit_fromCards.
Qed.

Lemma inPlay_setStatus s hand : inPlay hand -> inPlay (Hand.setStatus s hand).
Proof. intros H. exact H. Qed.

Lemma tableOk_display (deleted :
  nat -> bool) d g : tableOk g -> tableOk (Blackjack.display deleted d g).
Proof. unfold tableOk. rewrite display_players. auto. Qed.

Lemma tableOk_updHand p h f g :
  (forall hand, inPlay hand -> inPlay (f hand)) ->
  tableOk g -> tableOk (Blackjack.updHand p h f g).
Proof.
  intros Hf Hok. unfold tableOk, Blackjack.updHand, Blackjack.setPlayers.
  cbn [players]. apply Forall_alter; [exact Hok|].
  intros player _ Hpl. cbn [hands]. apply Forall_alter; [exact Hpl|]. auto.
Qed.

Lemma alter_at {A} (f : A -> A) (pre : list A) (x : A) (suf : list A) :
  alter f (length pre) (pre ++ x :: suf) = pre ++ f x :: suf.
Proof. induction pre as [|y pre IH]; simpl; [reflexivity | f_equal; exact IH]. Qed.

Lemma alter_after {A} (f : A -> A) (pre : list A) (x y : A) (suf : list A) :
  alter f (S (length pre)) (pre ++ x :: y :: suf) = pre ++ x :: f y :: suf.
Proof. induction pre as [|z pre IH]; simpl; [reflexivity | f_equal; exact IH]. Qed.

Lemma splice_after {A} (pre : list A) (x y : A) (suf : list A) :
  take (S (length pre)) (pre ++ x :: suf)
  ++ y :: drop (S (length pre)) (pre ++ x :: suf)
  = pre ++ x :: y :: suf.
Proof.
  induction pre as [|z pre IH]; simpl; [reflexivity | f_equal; exact IH].
Qed.

(** The hands of a participant after a split of the hand at [h]. *)
Lemma split_hands (pre suf : list Hand) (hand : Hand) (c0 c1 card1 card2 : Card) :
  cards hand = [c0; c1] ->
  Forall inPlay (pre ++ hand :: suf) ->
  let h := length pre in
  let hs1 := alter (fun hand => mkHand (removelast (cards hand)) (handSum hand)
                                       (status hand)) h (pre ++ hand :: suf) in
  let hs2 := take (S h) hs1 ++ Hand.new [c1] :: drop (S h) hs1 in
  let hs3 := alter (fun hand => mkHand (cards hand) (HandSum.fromCards (cards hand))
                                       (status hand)) h hs2 in
  let hs4 := alter (fun hand => Hand.hit hand card1) h hs3 in
  Forall inPlay (alter (fun hand => Hand.hit hand card2) (S h) hs4).
Proof.
  intros Hc Hall. cbv zeta.
  rewrite alter_at, splice_after, alter_at, alter_at, alter_after.
  apply Forall_app in Hall as [Hpre Hsuf]. apply Forall_cons in Hsuf as [_ Hsuf].
  apply Forall_app. split; [exact Hpre|].
  rewrite Hc. simpl.
  repeat (apply Forall_cons; split); [| |exact Hsuf].
  - split; [simpl; lia|]. simpl. apply (hit_fromCards [c0] card1).
  - split; [simpl; lia|]. simpl. apply (hit_fromCards [c1] card2).
Qed.

Lemma playMove_tableOk randInt (deleted : nat -> bool) m g p h g' f :
  tableOk g -> playMove randInt deleted m g p h = (g', f) -> tableOk g'.
Proof.
  intros Hok. unfold playMove, draw, fromRandom.
  destruct (Blackjack.getHand g p h) as [hand|] eqn:Hget;
    [|intros [= <- _]; exact Hok].
  destruct (_ && _); [intros [= <- _]; apply tableOk_display, Hok|].
  destruct m; cbv zeta.
  - intros [= <- _]. exact Hok.
  - case_match; intros [= <- _]; apply tableOk_display;
      apply tableOk_updHand;
      first [exact Hok | intros ?; apply inPlay_hit].
  - intros [= <- _]. apply tableOk_updHand; [intros ?; apply inPlay_setStatus | exact Hok].
  - case_match; intros [= <- _]; apply tableOk_display;
      repeat (apply tableOk_updHand;
              [first [intros ?; apply inPlay_hit | intros ?; apply inPlay_setStatus]|]);
      exact Hok.
  - case_bool_decide as Hl; [intros [= <- _]; apply tableOk_display, Hok|].
    destruct (cards hand) as [|c0 [|c1 [|c2 rest]]] eqn:Hc;
      cbn [lookup list_lookup]; try (intros [= <- _]; exact Hok);
      [|simpl in Hl; lia].
    case_bool_decide as Hv; [intros [= <- _]; apply tableOk_display, Hok|].
    intros [= <- _]. apply tableOk_display.
    destruct (getHand_player g p h hand Hget) as (player & Hp & Hh).
    unfold tableOk, Blackjack.updHand, Blackjack.spliceHand, Blackjack.setPlayers,
      Blackjack.setDrawn.
    cbn [players]. rewrite !list_alter_alter_eq.
    apply Forall_alter; [exact Hok|].
    intros player' Hp' Hpl. rewrite Hp in Hp'. injection Hp' as <-.
    unfold compose. cbn [hands].
    rewrite <- (take_drop_middle (hands player) h hand Hh) in Hpl |- *.
    assert (Hlen : length (take h (hands player)) = h).
    { apply length_take_le. apply lookup_lt_Some in Hh. lia. }
    revert Hpl. generalize (take h (hands player)) (drop (S h) (hands player)) Hlen.
    intros pre suf <- Hpl.
    apply (split_hands pre suf hand c0 c1); [exact Hc | exact Hpl].
  - case_bool_decide; intros [= <- _]; apply tableOk_display;
      [exact Hok|].
    apply tableOk_updHand; [intros ?; apply inPlay_setStatus | exact Hok].
Qed.

Lemma handCount_setDrawn k g p : handCount (Blackjack.setDrawn k g) p = handCount g p.
Proof. reflexivity. Qed.

Lemma handCount_updHand p' h f g p :
  handCount (Blackjack.updHand p' h f g) p = handCount g p.
Proof.
  unfold handCount, Blackjack.updHand, Blackjack.setPlayers. cbn [players].
  rewrite list_lookup_alter. destruct (decide (p' = p)) as [->|]; [|reflexivity].
  destruct (players g !! p) as [player|]; [|reflexivity].
  cbn. apply length_alter.
Qed.

Lemma handCount_spliceHand p' i hand g p :
  (handCount g p <= handCount (Blackjack.spliceHand p' i hand g) p)%nat.
Proof.
  unfold handCount, Blackjack.spliceHand, Blackjack.setPlayers. cbn [players].
  rewrite list_lookup_alter. destruct (decide (p' = p)) as [->|]; [|reflexivity].
  destruct (players g !! p) as [player|]; [|reflexivity].
  cbn. rewrite length_app. cbn [length]. rewrite length_take, length_drop. lia.
Qed.

Lemma handCount_getHand g p h :
  (h < handCount g p)%nat <-> is_Some (Blackjack.getHand g p h).
Proof.
  unfold handCount, Blackjack.getHand.
  destruct (players g !! p) as [player|]; cbn.
  - rewrite lookup_lt_is_Some. reflexivity.
  - split; [lia | intros [x Hx]; discriminate].
Qed.

Local Ltac count_hands :=
  repeat first
    [ rewrite handCount_display
    | rewrite handCount_updHand
    | rewrite handCount_setDrawn ].

(** No move takes a hand from the participant. *)
Lemma playMove_handCount randInt (deleted : nat -> bool) m g p h g' f :
  playMove randInt deleted m g p h = (g', f) -> (handCount g p <= handCount g' p)%nat.
Proof.
  unfold playMove, draw, fromRandom.
  destruct (Blackjack.getHand g p h) as [hand|]; [|intros [= <- _]; lia].
  destruct (_ && _); [intros [= <- _]; count_hands; lia|].
  destruct m; cbv zeta; repeat case_match; intros [= <- _]; count_hands;
    try lia.
  etransitivity; [|apply handCount_spliceHand]. count_hands. lia.
Qed.

Lemma enterPlayer_tableOk (deleted : nat -> bool) (n : nat) g p g' o :
  tableOk g -> enterPlayer deleted n g p = (g', o) -> tableOk g'.
Proof.
  revert g p. induction n as [|n IH]; intros g p Hok; simpl;
    [intros [= <- _]; exact Hok|].
  destruct (players g !! p) as [player|]; [|intros [= <- _]; exact Hok].
  destruct (hands player !! 0%nat).
  - intros [= <- _]. apply tableOk_updHand; [intros ?; apply inPlay_setStatus|].
    apply tableOk_display, Hok.
  - apply IH. apply tableOk_display, Hok.
Qed.

Lemma enterPlayer_position (deleted : nat -> bool) (n : nat) g p g' p' h' :
  enterPlayer deleted n g p = (g', Some (p', h')) -> (h' < handCount g' p')%nat.
Proof.
  revert g p. induction n as [|n IH]; intros g p; simpl; [discriminate|].
  destruct (players g !! p) as [player|] eqn:Hp; [|discriminate].
  destruct (hands player !! 0%nat) as [hand|] eqn:Hh.
  - intros [= <- <- <-]. unfold beginHand. count_hands.
    apply handCount_getHand. unfold Blackjack.getHand. rewrite Hp. cbn.
    rewrite Hh. eexists. reflexivity.
  - apply IH.
Qed.

Lemma nextHand_tableOk (deleted : nat -> bool) g p h g' o :
  tableOk g -> nextHand deleted g p h = (g', o) -> tableOk g'.
Proof.
  intros Hok. unfold nextHand. destruct (Blackjack.getHand g p h).
  - intros [= <- _]. apply tableOk_updHand; [intros ?; apply inPlay_setStatus|].
    exact Hok.
  - apply enterPlayer_tableOk. exact Hok.
Qed.

Lemma nextHand_position (deleted : nat -> bool) g p h g' p' h' :
  nextHand deleted g p h = (g', Some (p', h')) -> (h' < handCount g' p')%nat.
Proof.
  unfold nextHand. destruct (Blackjack.getHand g p h) as [hand|] eqn:Hget.
  - intros [= <- <- <-]. unfold beginHand. count_hands.
    apply handCount_getHand. rewrite Hget. eexists. reflexivity.
  - apply enterPlayer_position.
Qed.

Lemma dealPlayers_inPlay randInt (users : list User) (k : nat) :
  Forall (fun player => Forall inPlay (hands player)) (dealPlayers randInt users k).1.
Proof.
  revert k. induction users as [|user users IH]; intros k; simpl; [constructor|].
  specialize (IH (S (S k))).
  destruct (dealPlayers randInt users (S (S k))) as [ps k']. simpl in *.
  constructor; [|exact IH].
  constructor; [apply inPlay_new | constructor].
Qed.

Lemma deal_tableOk randInt (users : list User) : tableOk (deal randInt users).
Proof.
  destruct (deal_shape randInt users) as (c0 & c1 & _ & ->).
  apply dealPlayers_inPlay.
Qed.

(** Whenever a round awaits a move, it awaits it for a hand that exists,
    holds at least two cards, and whose sum is the sum of its cards. *)
Lemma awaited_hand_in_play randInt (deleted : nat -> bool) users replies g p h :
  runGame randInt deleted users replies = (g, Awaiting p h) ->
  exists hand, Blackjack.getHand g p h = Some hand /\ inPlay hand.
Proof.
  intros Hrun.
  destruct (runGame_awaiting randInt deleted users replies g p h Hrun)
    as (g0 & p0 & h0 & He & Hloop & _).
  assert (Hinv : tableOk g /\ (h < handCount g p)%nat).
  { refine (playersLoop_invariant randInt deleted
              (fun g p h => tableOk g /\ (h < handCount g p)%nat) _ _
              replies g0 p0 h0 g p h _ Hloop).
    - intros m g1 p1 h1 g2 [Hok Hpos] Hm. split.
      + exact (playMove_tableOk randInt deleted m g1 p1 h1 g2 _ Hok Hm).
      + pose proof (playMove_handCount randInt deleted m g1 p1 h1 g2 _ Hm). lia.
    - intros m g1 p1 h1 g2 g3 p3 h3 [Hok _] Hm Hn. split.
      + apply (nextHand_tableOk deleted g2 p1 (S h1) g3 _) with (2 := Hn).
        exact (playMove_tableOk randInt deleted m g1 p1 h1 g2 _ Hok Hm).
      + exact (nextHand_position deleted g2 p1 (S h1) g3 p3 h3 Hn).
    - split.
      + apply (enterPlayer_tableOk deleted _ _ _ _ _) with (2 := He). apply deal_tableOk.
      + exact (enterPlayer_position deleted _ _ _ _ _ _ He). }
  destruct Hinv as [Hok Hpos].
  apply handCount_getHand in Hpos as [hand Hget]. exists hand.
  split; [exact Hget|].
  destruct (getHand_player g p h hand Hget) as (player & Hp & Hh).
  apply (Forall_lookup_1 _ _ _ _ (Forall_lookup_1 _ _ _ _ Hok Hp) Hh).
Qed.

(** A 10 with a queen is split; a 10 with a 9 is refused and only the
    prompt changes. *)
Example tenQueen_is_split :
  exists g',
    playMove (replay [9; 24; 9; 46; 2; 3]%nat) neverDeleted SPLIT (tableOf tenQueen) 0 0
    = (g', Continue)
    /\ handCount g' 0 = 2%nat
    /\ prompt g' = Some (SplitDraw (mkCard CLUBS _3 false) (mkCard CLUBS _4 false)).
Proof. eexists. split; [vm_compute; reflexivity|]. split; reflexivity. Qed.

Example tenNine_is_refused :
  playMove (replay [9; 24; 9; 46; 2; 3]%nat) neverDeleted SPLIT (tableOf tenNine) 0 0
  = (Blackjack.display neverDeleted SplitSameValue (tableOf tenNine), Continue).
Proof. vm_compute. reflexivity. Qed.

(** ** The bounds of the model are never reached *)

(** The bound of [enterPlayer] only has to cover the participants still
    to visit. *)
Lemma enterPlayer_bound (deleted : nat -> bool) (n n' : nat) g p :
  (length (players g) - p <= n)%nat ->
  (length (players g) - p <= n')%nat ->
  enterPlayer deleted n g p = enterPlayer deleted n' g p.
Proof.
  revert n' g p. induction n as [|n IH]; intros n' g p Hn Hn'.
  - assert (Hp : players g !! p = None) by (apply lookup_ge_None_2; lia).
    destruct n'; simpl; [|rewrite Hp]; reflexivity.
  - destruct n' as [|n'].
    + assert (Hp : players g !! p = None) by (apply lookup_ge_None_2; lia).
      simpl. rewrite Hp. reflexivity.
    + simpl. destruct (players g !! p) as [player|]; [|reflexivity].
      destruct (hands player !! 0%nat); [reflexivity|].
      apply IH; rewrite display_players; lia.
Qed.

(** A loop of the dealer that ended within [n] passes ends the same way
    within any larger number of passes. *)
Lemma dealerLoop_stable randInt (deleted : nat -> bool) (n m : nat) g g' e :
  (n <= m)%nat ->
  dealerLoop randInt deleted n g = (g', e) -> e <> Unfinished ->
  dealerLoop randInt deleted m g = (g', e).
Proof.
  revert m g. induction n as [|n IH]; intros m g Hle; simpl;
    [intros [= _ <-] Hne; congruence|].
  destruct m as [|m]; [lia|]. simpl.
  destruct (Blackjack.dealerMove g); try (apply IH; lia); [|auto].
  unfold draw, fromRandom. cbv zeta.
  case_bool_decide; [auto | apply IH; lia].
Qed.

(** The turn of the dealer never stops at the bound of its loop, and so
    no round does. *)
Lemma dealerTurn_not_diverged randInt (deleted : nat -> bool) g g' :
  dealerTurn randInt deleted g <> (g', Diverged).
Proof.
  unfold dealerTurn. cbv zeta.
  destruct (Dealer.reveal _) as [[card d]|]; [|congruence].
  set (g1 := Blackjack.display deleted (DealerReveal card) _).
  destruct (dealerLoop_ends randInt deleted
              (S (Z.to_nat (28 - weight (handSum (super (dealer g1)))))) g1)
    as (g2 & _ & _ & [(-> & _)|(-> & _)]); [lia | lia | |].
  - unfold settle. case_match; congruence.
  - congruence.
Qed.

Lemma playersLoop_not_diverged randInt (deleted : nat -> bool) (replies : list Reply) :
  forall g p h g', playersLoop randInt deleted replies g p h <> (g', Diverged).
Proof.
  induction replies as [|reply replies IH]; intros g p h g'; simpl; [discriminate|].
  destruct reply as [m|]; simpl; [|discriminate].
  destruct (playMove randInt deleted m g p h) as [g1 f].
  destruct f; [apply IH | | discriminate].
  destruct (nextHand deleted g1 p (S h)) as [g2 [[p2 h2]|]];
    [apply IH | apply dealerTurn_not_diverged].
Qed.

Lemma runGame_not_diverged randInt (deleted : nat -> bool) users replies g' :
  runGame randInt deleted users replies <> (g', Diverged).
Proof.
  unfold runGame. cbv zeta. case_bool_decide.
  - unfold dealerBlackjack. repeat case_match; discriminate.
  - destruct (enterPlayer deleted _ _ _) as [g0 [[p0 h0]|]];
      [apply playersLoop_not_diverged | apply dealerTurn_not_diverged].
Qed.

(** ** Abandoned rounds are the rounds that timed out *)

Lemma dealerTurn_not_abandoned randInt (deleted : nat -> bool) g g' :
  dealerTurn randInt deleted g <> (g', Abandoned).
Proof.
  unfold dealerTurn, settle. cbv zeta. repeat case_match; congruence.
Qed.

Lemma playersLoop_abandoned randInt (deleted : nat -> bool) (replies : list Reply) :
  forall g p h g',
    playersLoop randInt deleted replies g p h = (g', Abandoned) ->
    exists pre post g1 p1 h1,
      replies = pre ++ Expired :: post
      /\ playersLoop randInt deleted pre g p h = (g1, Awaiting p1 h1).
Proof.
  induction replies as [|reply replies IH]; intros g p h g'; simpl; [discriminate|].
  destruct reply as [m|]; simpl.
  - destruct (playMove randInt deleted m g p h) as [g1 f] eqn:Hm.
    assert (Hcons : forall g2 p2 h2,
      playersLoop randInt deleted replies g2 p2 h2 = (g', Abandoned) ->
      (forall pre, playersLoop randInt deleted (Collected m :: pre) g p h
                   = playersLoop randInt deleted pre g2 p2 h2) ->
      exists pre post g1 p1 h1,
        Collected m :: replies = pre ++ Expired :: post
        /\ playersLoop randInt deleted pre g p h = (g1, Awaiting p1 h1)).
    { intros g2 p2 h2 Hab Hstep.
      destruct (IH g2 p2 h2 g' Hab) as (pre & post & g3 & p3 & h3 & -> & Hpre).
      exists (Collected m :: pre), post, g3, p3, h3.
      split; [reflexivity|]. rewrite Hstep. exact Hpre. }
    destruct f; [| |discriminate].
    + intros Hab. apply (Hcons g1 p h Hab). intros pre. simpl. rewrite Hm. reflexivity.
    + destruct (nextHand deleted g1 p (S h)) as [g2 [[p2 h2]|]] eqn:Hn.
      * intros Hab. apply (Hcons g2 p2 h2 Hab). intros pre. simpl.
        rewrite Hm, Hn. reflexivity.
      * intros H. exfalso. exact (dealerTurn_not_abandoned randInt deleted g2 g' H).
  - intros _. exists [], replies, g, p, h. split; reflexivity.
Qed.

(** A round is abandoned only by a collector that ends without a move
    while the round awaits one. *)
Lemma abandoned_is_timeout randInt (deleted : nat -> bool) users replies g' :
  runGame randInt deleted users replies = (g', Abandoned) ->
  exists pre post g p h,
    replies = pre ++ Expired :: post
    /\ runGame randInt deleted users pre = (g, Awaiting p h).
Proof.
  unfold runGame. cbv zeta. case_bool_decide as Hn.
  - unfold dealerBlackjack. repeat case_match; discriminate.
  - destruct (enterPlayer deleted _ _ _) as [g0 [[p0 h0]|]] eqn:He.
    + apply playersLoop_abandoned.
    + intros H. exfalso. exact (dealerTurn_not_abandoned randInt deleted g0 g' H).
Qed.

(** * Further properties *)

(** ** Cards *)

(** X1.  [Card.fromId] numbers the 52 cards: below 52, the suit and rank
    of the card give the id back as [suit * 13 + rank], so distinct ids
    give distinct cards; and every suit and rank is the card of some id
    below 52. *)
Theorem fromId_numbers_the_deck :
  (forall (id : nat) (down : bool), (id < 52)%nat ->
     Suit_index (suit (Card.fromId id down)) * 13
     + Rank_index (rank (Card.fromId id down)) = Z.of_nat id)
  /\ (forall (s : Suit) (r : Rank) (down : bool),
        exists id, (id < 52)%nat /\ Card.fromId id down = mkCard s r down).
Proof.
  split.
  - intros id down Hid.
    do 52 (destruct id as [|id]; [reflexivity|]). lia.
  - intros s r down.
    exists (Z.to_nat (Suit_index s * 13 + Rank_index r)).
    destruct s, r; split; first [reflexivity | vm_compute; lia].
Qed.

(** X1 on the id 24, the queen of diamonds. *)
Lemma fromId_numbers_the_deck_witness :
  Suit_index (suit (Card.fromId 24 false)) * 13
  + Rank_index (rank (Card.fromId 24 false)) = 24.
Proof.
  apply (proj1 fromId_numbers_the_deck 24%nat false). lia.
Defined.

(** ** Totals *)

Lemma rawSum_Permutation (cs cs' : list Card) :
  cs ≡ₚ cs' -> HandSum.rawSum cs = HandSum.rawSum cs'.
Proof.
  induction 1 as [|c cs cs' _ IH|c c' cs|cs cs' cs'' _ IH1 _ IH2].
  - reflexivity.
  - rewrite !rawSum_cons, IH. reflexivity.
  - rewrite !rawSum_cons. lia.
  - congruence.
Qed.

Lemma someAce_Permutation (cs cs' : list Card) :
  cs ≡ₚ cs' -> HandSum.someAce cs = HandSum.someAce cs'.
Proof.
  unfold HandSum.someAce.
  induction 1 as [|c cs cs' _ IH|c c' cs|cs cs' cs'' _ IH1 _ IH2]; simpl.
  - reflexivity.
  - rewrite IH. reflexivity.
  - rewrite !orb_assoc, (orb_comm (bool_decide (rank c' = ACE))). reflexivity.
  - congruence.
Qed.

(** X2.  The total of a hand does not depend on the order of its cards. *)
Theorem fromCards_any_order (cs cs' : list Card) :
  cs ≡ₚ cs' -> HandSum.fromCards cs = HandSum.fromCards cs'.
Proof.
  intros Hp. unfold HandSum.fromCards.
  rewrite (rawSum_Permutation cs cs' Hp), (someAce_Permutation cs cs' Hp).
  reflexivity.
Qed.

(** X2 on ace, ace, 9 against 9, ace, ace. *)
Lemma fromCards_any_order_witness :
  HandSum.fromCards [mkCard CLUBS ACE false; mkCard HEARTS ACE false;
                     mkCard CLUBS _9 false]
  = HandSum.fromCards [mkCard CLUBS _9 false; mkCard CLUBS ACE false;
                       mkCard HEARTS ACE false].
Proof.
  apply fromCards_any_order. symmetry.
  apply (Permutation_cons_append [_; _] (mkCard CLUBS _9 false)).
Defined.

Lemma hitAll_fromCards (cs ds : list Card) :
  hitAll (HandSum.fromCards cs) ds = HandSum.fromCards (cs ++ ds).
Proof.
  unfold hitAll. revert cs. induction ds as [|d ds IH]; intros cs; simpl.
  - rewrite app_nil_r. reflexivity.
  - rewrite hit_fromCards, IH, <- app_assoc. reflexivity.
Qed.

(** X3.  Cards hit one after the other onto a computed total give the
    total computed from all the cards, whatever the order in which they
    are hit. *)
Theorem hits_in_any_order (cs ds ds' : list Card) :
  ds ≡ₚ ds' ->
  hitAll (HandSum.fromCards cs) ds = HandSum.fromCards (cs ++ ds)
  /\ hitAll (HandSum.fromCards cs) ds' = hitAll (HandSum.fromCards cs) ds.
Proof.
  intros Hp. rewrite !hitAll_fromCards. split; [reflexivity|].
  unfold HandSum.fromCards.
  rewrite (rawSum_Permutation (cs ++ ds') (cs ++ ds)),
    (someAce_Permutation (cs ++ ds') (cs ++ ds));
    [reflexivity | |]; apply Permutation_app_head; symmetry; exact Hp.
Qed.

(** X3 on a 9 hit by two aces and a 5, in two orders. *)
Lemma hits_in_any_order_witness :
  let nine := [mkCard CLUBS _9 false] in
  let a := mkCard CLUBS ACE false in
  let b := mkCard HEARTS ACE false in
  let c := mkCard SPADES _5 false in
  hitAll (HandSum.fromCards nine) [a; b; c] = HandSum.fromCards (nine ++ [a; b; c])
  /\ hitAll (HandSum.fromCards nine) [c; a; b]
     = hitAll (HandSum.fromCards nine) [a; b; c].
Proof.
  intros nine a b c. apply (hits_in_any_order nine [a; b; c] [c; a; b]).
  symmetry. apply (Permutation_cons_append [a; b] c).
Defined.

Lemma bust_fromCards (cs : list Card) :
  HandSum.bust (HandSum.fromCards cs) = true <-> HandSum.rawSum cs > 21.
Proof.
  unfold HandSum.fromCards, HandSum.bust, PERFECT.
  pose proof (rawSum_nonneg cs) as H0.
  destruct (HandSum.someAce cs);
    [destruct (bool_decide (HandSum.rawSum cs + 10 <= 21)) eqn:E;
     [apply bool_decide_eq_true in E | apply bool_decide_eq_false in E]|];
    cbn [sum soft]; rewrite bool_decide_eq_true; lia.
Qed.

(** X4.  The total of a hand counts one ace as 11 exactly when the hand
    holds an ace and the total stays at 21 or below that way; so a hand is
    bust exactly when its cards exceed 21 with every ace counted 1, and a
    soft total is between 11 and 21. *)
Theorem fromCards_best_total (cs : list Card) :
  let s := HandSum.fromCards cs in
  let raw := HandSum.rawSum cs in
  (soft s = true <-> HandSum.someAce cs = true /\ raw + 10 <= 21)
  /\ sum s = (if soft s then raw + 10 else raw)
  /\ (soft s = true -> 11 <= sum s <= 21)
  /\ (HandSum.bust s = true <-> raw > 21).
Proof.
  cbv zeta. unfold HandSum.fromCards, HandSum.bust, PERFECT.
  pose proof (rawSum_nonneg cs) as H0.
  destruct (HandSum.someAce cs) eqn:Ha.
  - apply someAce_rawSum in Ha.
    case_bool_decide as Hs; cbn [sum soft];
      (split; [split; [intros; first [split; [reflexivity | lia] | discriminate]
                      | intros [_ ?]; first [reflexivity | lia]]|]);
      (split; [reflexivity|]); (split; [intros; first [lia | discriminate]|]);
      rewrite bool_decide_eq_true; lia.
  - cbn [sum soft]. split; [split; [discriminate | intros [? _]; discriminate]|].
    split; [reflexivity|]. split; [discriminate|].
    rewrite bool_decide_eq_true. lia.
Qed.

(** X5.  A hand that is bust stays bust whatever cards are added. *)
Theorem bust_stays_bust (cs ds : list Card) :
  HandSum.bust (HandSum.fromCards cs) = true ->
  HandSum.bust (hitAll (HandSum.fromCards cs) ds) = true.
Proof.
  rewrite hitAll_fromCards, !bust_fromCards.
  assert (HandSum.rawSum (cs ++ ds) = HandSum.rawSum cs + HandSum.rawSum ds) as ->.
  { induction ds as [|d ds IH] using rev_ind.
    - rewrite app_nil_r. unfold HandSum.rawSum at 3. simpl. lia.
    - rewrite app_assoc, !rawSum_snoc, IH. lia. }
  pose proof (rawSum_nonneg ds). lia.
Qed.

(** X5 on king, queen, 5 hit by an ace. *)
Lemma bust_stays_bust_witness :
  HandSum.bust
    (hitAll (HandSum.fromCards [mkCard CLUBS KING false; mkCard CLUBS QUEEN false;
                                mkCard CLUBS _5 false])
            [mkCard CLUBS ACE false]) = true.
Proof. apply bust_stays_bust. reflexivity. Defined.

(** ** Hands *)

(** X6.  A hand of two cards is never bust, and it is built with the
    status BLACKJACK exactly when it is an ace with a card worth ten (in
    either order); otherwise its status is WAIT. *)
Theorem two_card_hand (c0 c1 : Card) :
  Hand.bust (Hand.new [c0; c1]) = false
  /\ (status (Hand.new [c0; c1]) = Status.BLACKJACK
      <-> (rank c0 = ACE /\ tenValued c1) \/ (tenValued c0 /\ rank c1 = ACE))
  /\ (status (Hand.new [c0; c1]) = Status.BLACKJACK
      \/ status (Hand.new [c0; c1]) = Status.WAIT).
Proof.
  unfold tenValued.
  destruct c0 as [s0 r0 d0], c1 as [s1 r1 d1].
  destruct r0, r1; (split; [reflexivity|]); vm_compute;
    (split; [|auto]);
    (split; [intros H; first [discriminate H | left; split; reflexivity
                              | right; split; reflexivity]
            | intros [[H1 H2]|[H1 H2]]; first [reflexivity | discriminate]]).
Qed.

Lemma compare_opposite (this hand : Hand) :
  Hand.compare hand this = opposite (Hand.compare this hand).
Proof.
  unfold Hand.compare, PERFECT. cbv zeta.
  repeat (case_bool_decide; simpl; try lia; try reflexivity).
Qed.

(** X7.  [compare] is symmetric: the result for one hand against another
    is the opposite of the result the other way round (WIN against LOSE,
    TIE against TIE); in particular a hand ties with itself. *)
Theorem compare_is_symmetric (this hand : Hand) :
  Hand.compare hand this = opposite (Hand.compare this hand)
  /\ Hand.compare this this = TIE.
Proof.
  split; [apply compare_opposite|].
  pose proof (compare_opposite this this) as H.
  destruct (Hand.compare this this); simpl in H; congruence.
Qed.

(** X8.  [compare] ranks hands consistently: if the first hand does not
    lose to the second and the second does not lose to the third, the
    first does not lose to the third, and it wins as soon as one of the
    two comparisons is a win. *)
Theorem compare_is_transitive (a b c : Hand) :
  Hand.compare a b <> LOSE ->
  Hand.compare b c <> LOSE ->
  Hand.compare a c <> LOSE
  /\ (Hand.compare a b = WIN \/ Hand.compare b c = WIN -> Hand.compare a c = WIN).
Proof.
  unfold Hand.compare, PERFECT. cbv zeta.
  repeat (case_bool_decide; simpl; try lia);
    intros; split; try congruence; intros [?|?]; congruence.
Qed.

(** X8 on 20 against 19 against 18. *)
Lemma compare_is_transitive_witness :
  let h20 := Hand.new [mkCard CLUBS KING false; mkCard CLUBS QUEEN false] in
  let h19 := Hand.new [mkCard CLUBS KING false; mkCard CLUBS _9 false] in
  let h18 := Hand.new [mkCard CLUBS KING false; mkCard CLUBS _8 false] in
  Hand.compare h20 h18 <> LOSE
  /\ (Hand.compare h20 h19 = WIN \/ Hand.compare h19 h18 = WIN ->
      Hand.compare h20 h18 = WIN).
Proof.
  intros h20 h19 h18.
  apply (compare_is_transitive h20 h19 h18); discriminate.
Defined.

(** ** The dealer *)

(** X9.  [reveal] turns the second card of the dealer face up and clears
    [hidden]; it changes no suit, no rank, no total and no status, and
    revealing again changes nothing more. *)
Theorem reveal_only_turns_the_card (d d' : Dealer) (card : Card) :
  Dealer.reveal d = Some (card, d') ->
  hidden d' = false
  /\ cards (super d') !! 1%nat = Some card
  /\ down card = false
  /\ map suit (cards (super d')) = map suit (cards (super d))
  /\ map rank (cards (super d')) = map rank (cards (super d))
  /\ handSum (super d') = handSum (super d)
  /\ status (super d') = status (super d)
  /\ Dealer.reveal d' = Some (card, d').
Proof.
  unfold Dealer.reveal.
  destruct (cards (super d) !! 1%nat) as [c|] eqn:Hc; [|discriminate].
  intros [= <- <-]. cbn [hidden super cards handSum status suit rank down].
  assert (Hlt : (1 < length (cards (super d)))%nat) by (eapply lookup_lt_Some; eauto).
  assert (H1 : <[1%nat := mkCard (suit c) (rank c) false]> (cards (super d)) !! 1%nat
               = Some (mkCard (suit c) (rank c) false)).
  { apply list_lookup_insert_eq. exact Hlt. }
  split; [reflexivity|]. split; [exact H1|]. split; [reflexivity|].
  split; [|split; [|split; [reflexivity|split; [reflexivity|]]]].
  - rewrite list_fmap_insert. cbn [suit]. apply list_insert_id.
    rewrite list_lookup_fmap, Hc. reflexivity.
  - rewrite list_fmap_insert. cbn [rank]. apply list_insert_id.
    rewrite list_lookup_fmap, Hc. reflexivity.
  - rewrite H1. cbn [suit rank]. rewrite list_insert_insert_eq. reflexivity.
Qed.

(** X9 on a dealer dealt 10 and a hidden 8. *)
Lemma reveal_only_turns_the_card_witness :
  let d := Dealer.new [mkCard CLUBS _10 false; mkCard SPADES _8 true] in
  exists card d',
    Dealer.reveal d = Some (card, d')
    /\ hidden d' = false
    /\ cards (super d') !! 1%nat = Some card
    /\ down card = false
    /\ map suit (cards (super d')) = map suit (cards (super d))
    /\ map rank (cards (super d')) = map rank (cards (super d))
    /\ handSum (super d') = handSum (super d)
    /\ status (super d') = status (super d)
    /\ Dealer.reveal d' = Some (card, d').
Proof.
  intros d. eexists. eexists. split; [reflexivity|].
  apply (reveal_only_turns_the_card d). reflexivity.
Defined.

Lemma hit_bust_bound (s : HandSum) (c : Card) :
  sum s < 17 \/ sum s = 17 /\ soft s = true ->
  sum (HandSum.hit s c) > PERFECT -> sum (HandSum.hit s c) <= 26.
Proof.
  pose proof (value_pos c). unfold HandSum.hit, PERFECT.
  destruct s as [n [|]]; simpl; intros [Hs|[Hs Hf]]; try discriminate;
    repeat (case_bool_decide; simpl in * ); lia.
Qed.

Lemma dealerLoop_totals randInt (deleted : nat -> bool) (n : nat) :
  forall g g' e,
    dealerLoop randInt deleted n g = (g', e) ->
    (e = Busted -> 22 <= sum (handSum (super (dealer g'))) <= 26)
    /\ (e = Stood ->
        17 <= sum (handSum (super (dealer g')))
        /\ ~ (sum (handSum (super (dealer g'))) = 17
              /\ soft (handSum (super (dealer g'))) = true)).
Proof.
  induction n as [|n IH]; intros g g' e; simpl; [intros [= _ <-]; split; discriminate|].
  destruct (dealerMove_cases g) as [[-> Hc]|[-> Hc]].
  - unfold draw, fromRandom. cbv zeta. cbn [dealer Blackjack.setDealer
      Blackjack.setDrawn Dealer.hit super Hand.hit handSum drawn].
    case_bool_decide as Hb; [|apply IH].
    intros [= <- <-]. rewrite display_dealer. simpl.
    split; [intros _|discriminate].
    pose proof (hit_bust_bound _ (Card.fromId (randInt (drawn g)) false) Hc Hb).
    unfold PERFECT in Hb. lia.
  - intros [= <- <-]. simpl. split; [discriminate|intros _].
    split; [lia | tauto].
Qed.

(** X10.  A dealer that enters its turn with at least two cards and a
    total of at most 21 ends it either standing, with the status STAND and
    a total from 17 to 21 that is not a soft 17, or bust, with the status
    BUST and a total from 22 to 26; the round then returns. *)
Theorem dealer_final_total randInt (deleted : nat -> bool) g hand :
  Blackjack.getHand g 0 0 = Some hand ->
  (2 <= length (cards (super (dealer g))))%nat ->
  Hand.bust (super (dealer g)) = false ->
  exists g',
    dealerTurn randInt deleted g = (g', Returned)
    /\ let s := handSum (super (dealer g')) in
       (status (super (dealer g')) = Status.STAND
        /\ 17 <= sum s <= 21 /\ ~ (sum s = 17 /\ soft s = true))
       \/ (status (super (dealer g')) = Status.BUST /\ 22 <= sum s <= 26).
Proof.
  intros Hget Hlen Hnb. unfold dealerTurn. cbv zeta.
  destruct (reveal_Some (dealer (Blackjack.setDealer
              (Dealer.setStatus Status.CURRENT (dealer g)) g)))
    as (card & d' & -> & Hsum & _); [exact Hlen|].
  cbn [dealer Blackjack.setDealer Dealer.setStatus super Hand.setStatus handSum]
    in Hsum.
  set (g1 := Blackjack.display deleted (DealerReveal card) _).
  assert (Hd1 : handSum (super (dealer g1)) = handSum (super (dealer g))).
  { unfold g1. rewrite display_dealer. exact Hsum. }
  assert (Hp1 : players g1 = players g).
  { unfold g1. rewrite display_players. reflexivity. }
  destruct (dealerLoop_ends randInt deleted
              (S (Z.to_nat (28 - weight (handSum (super (dealer g1)))))) g1)
    as (g' & Hp & _ & Hend); [lia | lia |].
  destruct Hend as [(Hrun & Hst & _ & _ & Hk)|(Hrun & Hst & _ & _)];
    pose proof (dealerLoop_totals randInt deleted _ _ _ _ Hrun) as [Hbust Hstood];
    rewrite Hrun.
  - unfold settle, Blackjack.getHand. rewrite Hp, Hp1.
    unfold Blackjack.getHand in Hget. rewrite Hget.
    eexists. split; [reflexivity|]. cbv zeta. rewrite display_dealer. left.
    destruct (Hstood eq_refl) as [H17 Hsoft].
    split; [exact Hst|]. split; [|exact Hsoft]. split; [exact H17|].
    unfold Hand.bust, HandSum.bust in Hnb. apply bool_decide_eq_false in Hnb.
    rewrite <- Hd1 in Hnb. specialize (Hk Hnb). unfold PERFECT in Hk. lia.
  - exists g'. split; [reflexivity|]. right. split; [exact Hst|].
    exact (Hbust eq_refl).
Qed.

(** X10 on the table [tableStood]: the dealer holds 10 and 8. *)
Lemma dealer_final_total_witness :
  exists g',
    dealerTurn (replay []) neverDeleted tableStood = (g', Returned)
    /\ let s := handSum (super (dealer g')) in
       (status (super (dealer g')) = Status.STAND
        /\ 17 <= sum s <= 21 /\ ~ (sum s = 17 /\ soft s = true))
       \/ (status (super (dealer g')) = Status.BUST /\ 22 <= sum s <= 26).
Proof.
  apply (dealer_final_total (replay []) neverDeleted tableStood
           (Hand.setStatus Status.STAND
              (Hand.new [mkCard CLUBS _10 false; mkCard HEARTS _10 false])));
    [reflexivity | simpl; lia | reflexivity].
Defined.

(** ** What a move does to the table *)

Lemma alter_lookup_insert {A} (f : A -> A) (l : list A) (i : nat) (x : A) :
  l !! i = Some x -> alter f i l = <[i := f x]> l.
Proof.
  revert i. induction l as [|y l IH]; intros [|i]; simpl; try discriminate.
  - intros [= ->]. reflexivity.
  - intros H. f_equal. apply IH. exact H.
Qed.

Lemma alter_replace (f : Hand -> Hand) (hs : list Hand) (h : nat) (hand : Hand) :
  hs !! h = Some hand -> alter f h hs = replaceHand h [f hand] hs.
Proof.
  intros Hh. unfold replaceHand.
  rewrite <- (take_drop_middle hs h hand Hh) at 1.
  assert (Hlen : length (take h hs) = h).
  { apply length_take_le. apply lookup_lt_Some in Hh. lia. }
  rewrite <- Hlen at 1. apply alter_at.
Qed.

Lemma replace_same (hs : list Hand) (h : nat) (hand : Hand) :
  hs !! h = Some hand -> replaceHand h [hand] hs = hs.
Proof. intros Hh. apply (take_drop_middle hs h hand Hh). Qed.

Lemma split_replace (hs : list Hand) (h : nat) (hand : Hand) (c0 c1 card1 card2 : Card) :
  hs !! h = Some hand ->
  cards hand = [c0; c1] ->
  let hs1 := alter (fun hand => mkHand (removelast (cards hand)) (handSum hand)
                                       (status hand)) h hs in
  let hs2 := take (S h) hs1 ++ Hand.new [c1] :: drop (S h) hs1 in
  let hs3 := alter (fun hand => mkHand (cards hand) (HandSum.fromCards (cards hand))
                                       (status hand)) h hs2 in
  let hs4 := alter (fun hand => Hand.hit hand card1) h hs3 in
  alter (fun hand => Hand.hit hand card2) (S h) hs4
  = replaceHand h
      [Hand.hit (mkHand [c0] (HandSum.fromCards [c0]) (status hand)) card1;
       Hand.hit (Hand.new [c1]) card2] hs.
Proof.
  intros Hh Hc. cbv zeta. unfold replaceHand.
  assert (Hlen : length (take h hs) = h).
  { apply length_take_le. apply lookup_lt_Some in Hh. lia. }
  pose proof (take_drop_middle hs h hand Hh) as Heq.
  set (pre := take h hs) in *. set (suf := drop (S h) hs) in *.
  clearbody pre suf. subst hs h.
  rewrite alter_at, splice_after, alter_at, alter_at, alter_after.
  cbn [cards status handSum]. rewrite Hc. reflexivity.
Qed.

(** The players after a change of the hands of participant [p]. *)
Lemma setHands_players (F : list Hand -> list Hand) (l : list Player) (p : nat)
    (player : Player) :
  l !! p = Some player ->
  alter (fun player => mkPlayer (F (hands player)) (user player)) p l
  = <[p := mkPlayer (F (hands player)) (user player)]> l.
Proof.
  apply (alter_lookup_insert
           (fun player => mkPlayer (F (hands player)) (user player))).
Qed.

Lemma insert_player_same (l : list Player) (p : nat) (player : Player) :
  l !! p = Some player ->
  <[p := mkPlayer (hands player) (user player)]> l = l.
Proof. intros H. destruct player. apply list_insert_id. exact H. Qed.

Lemma pair_not_bust (c0 c1 : Card) : Hand.bust (Hand.new [c0; c1]) = false.
Proof. destruct c0 as [s0 r0 d0], c1 as [s1 r1 d1]. destruct r0, r1; reflexivity. Qed.

Lemma hit_single_not_bust (c0 card : Card) (s : Status.t) :
  Hand.bust (Hand.hit (mkHand [c0] (HandSum.fromCards [c0]) s) card) = false.
Proof.
  unfold Hand.bust, Hand.hit. cbn [handSum]. rewrite hit_fromCards.
  exact (pair_not_bust c0 card).
Qed.

Lemma bustIn_one (x : Hand) :
  bustIn [x] = if Hand.bust x then 1%nat else 0%nat.
Proof. unfold bustIn. simpl. destruct (Hand.bust x); reflexivity. Qed.

(** Every pass of the loop of a hand in play is one of the steps of
    [turnStep]: it touches no other hand, no other participant and not
    the dealer; it never throws.  On a hand that is not bust it shows
    the line of a loss exactly when the hand goes bust. *)
Lemma playMove_turnStep randInt (deleted : nat -> bool) m g p h g' f player hand :
  players g !! p = Some player ->
  hands player !! h = Some hand ->
  (2 <= length (cards hand))%nat ->
  playMove randInt deleted m g p h = (g', f) ->
  exists repl n,
    turnStep (Card.fromId (randInt (drawn g)) false)
             (Card.fromId (randInt (S (drawn g))) false) hand repl n f
    /\ players g'
       = <[p := mkPlayer (replaceHand h repl (hands player)) (user player)]> (players g)
    /\ dealer g' = dealer g
    /\ drawn g' = (drawn g + n)%nat
    /\ (Hand.bust hand = false ->
        settlements (log g')
        = settlements (log g) ++ replicate (bustIn repl) LOSE).
Proof.
  intros Hp Hh Hlen.
  assert (Hget : Blackjack.getHand g p h = Some hand).
  { unfold Blackjack.getHand. rewrite Hp. exact Hh. }
  assert (Hsame : players g
    = <[p := mkPlayer (replaceHand h [hand] (hands player)) (user player)]> (players g)).
  { rewrite (replace_same _ _ _ Hh), (insert_player_same _ _ _ Hp). reflexivity. }
  assert (Hone : forall fh k,
    players (Blackjack.updHand p h fh (Blackjack.setDrawn k g))
    = <[p := mkPlayer (replaceHand h [fh hand] (hands player)) (user player)]> (players g)).
  { intros fh k. unfold Blackjack.updHand, Blackjack.setPlayers, Blackjack.setDrawn.
    cbn [players]. rewrite (setHands_players (alter fh h) _ _ _ Hp).
    rewrite (alter_replace fh _ _ _ Hh). reflexivity. }
  assert (Hone0 : forall fh,
    players (Blackjack.updHand p h fh g)
    = <[p := mkPlayer (replaceHand h [fh hand] (hands player)) (user player)]> (players g)).
  { intros fh. exact (Hone fh (drawn g)). }
  assert (Hrefuse : forall d, settlement d = None ->
    exists repl n,
      turnStep (Card.fromId (randInt (drawn g)) false)
               (Card.fromId (randInt (S (drawn g))) false) hand repl n Continue
      /\ players (Blackjack.display deleted d g)
         = <[p := mkPlayer (replaceHand h repl (hands player)) (user player)]> (players g)
      /\ dealer (Blackjack.display deleted d g) = dealer g
      /\ drawn (Blackjack.display deleted d g) = (drawn g + n)%nat
      /\ (Hand.bust hand = false ->
          settlements (log (Blackjack.display deleted d g))
          = settlements (log g) ++ replicate (bustIn repl) LOSE)).
  { intros d Hd. exists [hand], 0%nat. split; [constructor|].
    rewrite display_players, display_dealer, display_drawn, display_settlements.
    split; [exact Hsame|]. split; [reflexivity|].
    split; [rewrite Nat.add_comm; reflexivity|].
    intros Hnb. rewrite Hd, bustIn_one, Hnb. reflexivity. }
  unfold playMove. rewrite Hget.
  destruct (_ && _); [intros [= <- <-]; apply Hrefuse; reflexivity|].
  destruct m.
  - intros [= <- <-]. exists [hand], 0%nat. split; [constructor|].
    split; [exact Hsame|]. split; [reflexivity|].
    split; [rewrite Nat.add_comm; reflexivity|].
    intros Hnb. rewrite bustIn_one, Hnb. symmetry. apply app_nil_r.
  - unfold draw, fromRandom. cbv zeta.
    destruct (Hand.bust (Hand.hit _ _)) eqn:Hb; intros [= <- <-];
      eexists; exists 1%nat; (split; [constructor; exact Hb|]);
      rewrite display_players, display_dealer, display_drawn, display_settlements;
      (split; [apply Hone|]); (split; [reflexivity|]);
      (split; [rewrite Nat.add_comm; reflexivity|]);
      intros _; rewrite bustIn_one, Hb; reflexivity.
  - intros [= <- <-]. eexists. exists 0%nat. split; [apply ts_stand|].
    split; [apply Hone0|]. split; [reflexivity|].
    split; [rewrite Nat.add_comm; reflexivity|].
    intros Hnb. rewrite bustIn_one.
    change (Hand.bust (Hand.setStatus Status.STAND hand)) with (Hand.bust hand).
    rewrite Hnb. symmetry. apply app_nil_r.
  - unfold draw, fromRandom. cbv zeta.
    destruct (Hand.bust (Hand.hit _ _)) eqn:Hb; intros [= <- <-].
    + eexists. exists 1%nat. split; [apply ts_bust; exact Hb|].
      rewrite display_players, display_dealer, display_drawn, display_settlements.
      split; [apply Hone|]. split; [reflexivity|].
      split; [rewrite Nat.add_comm; reflexivity|].
      intros _. rewrite bustIn_one, Hb. reflexivity.
    + eexists. exists 1%nat. split; [apply ts_double; exact Hb|].
      rewrite display_players, display_dealer, display_drawn, display_settlements.
      split; [|split; [reflexivity|split; [rewrite Nat.add_comm; reflexivity|]]].
      * unfold Blackjack.updHand, Blackjack.setPlayers, Blackjack.setDrawn.
        cbn [players]. rewrite list_alter_alter_eq.
        rewrite (alter_lookup_insert _ _ _ _ Hp). unfold compose. cbn [hands user].
        rewrite list_alter_alter_eq.
        rewrite (alter_replace _ _ _ _ Hh). reflexivity.
      * intros _. rewrite bustIn_one.
        change (Hand.bust (Hand.setStatus Status.SURRENDER ?x)) with (Hand.bust x).
        rewrite Hb. reflexivity.
  - case_bool_decide as Hl; [intros [= <- <-]; apply Hrefuse; reflexivity|].
    destruct (cards hand) as [|c0 [|c1 [|c2 rest]]] eqn:Hc;
      simpl in Hlen, Hl; try lia.
    cbn [lookup list_lookup].
    case_bool_decide as Hv; [intros [= <- <-]; apply Hrefuse; reflexivity|].
    unfold draw, fromRandom. cbv zeta. intros [= <- <-].
    eexists. exists 2%nat.
    split; [apply (ts_split _ _ _ c0 c1 Hc);
            destruct (decide (Card.value c0 = Card.value c1)); [assumption|contradiction]|].
    rewrite display_players, display_dealer, display_drawn, display_settlements.
    split; [|split; [reflexivity|split; [rewrite Nat.add_comm; reflexivity|]]].
    + unfold Blackjack.updHand, Blackjack.spliceHand, Blackjack.setPlayers,
        Blackjack.setDrawn.
      cbn [players]. rewrite !list_alter_alter_eq.
      rewrite (alter_lookup_insert _ _ _ _ Hp). unfold compose. cbn [hands user].
      f_equal. f_equal.
      apply (split_replace (hands player) h hand c0 c1 _ _ Hh Hc).
    + intros _. unfold bustIn. cbn [map sum_list].
      rewrite hit_single_not_bust.
      change (Hand.new [c1]) with (mkHand [c1] (HandSum.fromCards [c1])
                                          (status (Hand.new [c1]))).
      rewrite hit_single_not_bust. reflexivity.
  - case_bool_decide as Hl; intros [= <- <-]; [apply Hrefuse; reflexivity|].
    eexists. exists 0%nat. split; [apply ts_surrender; lia|].
    rewrite display_players, display_dealer, display_drawn, display_settlements.
    split; [apply Hone0|]. split; [reflexivity|].
    split; [rewrite Nat.add_comm; reflexivity|].
    intros Hnb. rewrite bustIn_one.
    change (Hand.bust (Hand.setStatus Status.SURRENDER hand)) with (Hand.bust hand).
    rewrite Hnb. reflexivity.
Qed.

(** ** What the turns of the participants leave alone *)

Lemma playMove_dealer randInt (deleted : nat -> bool) m g p h g' f :
  playMove randInt deleted m g p h = (g', f) -> dealer g' = dealer g.
Proof.
  unfold playMove, draw, fromRandom.
  destruct (Blackjack.getHand g p h) as [hand|]; [|intros [= <- _]; reflexivity].
  destruct (_ && _); [intros [= <- _]; apply display_dealer|].
  destruct m; cbv zeta; repeat case_match; intros [= <- _];
    rewrite ?display_dealer; reflexivity.
Qed.

Lemma playMove_handCount_any randInt (deleted : nat -> bool) m g p h g' f (q : nat) :
  playMove randInt deleted m g p h = (g', f) -> (handCount g q <= handCount g' q)%nat.
Proof.
  unfold playMove, draw, fromRandom.
  destruct (Blackjack.getHand g p h) as [hand|]; [|intros [= <- _]; lia].
  destruct (_ && _); [intros [= <- _]; count_hands; lia|].
  destruct m; cbv zeta; repeat case_match; intros [= <- _]; count_hands;
    try lia.
  etransitivity; [|apply handCount_spliceHand]. count_hands. lia.
Qed.

Lemma enterPlayer_frame (deleted : nat -> bool) (n : nat) g p g' o :
  enterPlayer deleted n g p = (g', o) ->
  dealer g' = dealer g /\ drawn g' = drawn g
  /\ (forall q, handCount g' q = handCount g q)
  /\ map (fun player => map cards (hands player)) (players g')
     = map (fun player => map cards (hands player)) (players g).
Proof.
  revert g p. induction n as [|n IH]; intros g p; simpl;
    [intros [= <- _]; auto|].
  destruct (players g !! p) as [player|]; [|intros [= <- _]; auto].
  destruct (hands player !! 0%nat).
  - intros [= <- _]. unfold beginHand.
    split; [apply display_dealer|]. split; [apply display_drawn|].
    split; [intros q; count_hands; reflexivity|].
    unfold Blackjack.updHand, Blackjack.setPlayers. cbn [players].
    rewrite display_players. rewrite list_fmap_alter with (h := id);
      [apply list_alter_id; reflexivity|].
    apply Forall_forall. intros pl _. cbn [hands].
    rewrite list_fmap_alter with (h := id); [apply list_alter_id; reflexivity|].
    apply Forall_forall. intros hd _. reflexivity.
  - intros H. destruct (IH _ _ H) as (Hd & Hk & Hc & Hm).
    rewrite display_dealer in Hd. rewrite display_drawn in Hk.
    rewrite display_players in Hm.
    split; [exact Hd|]. split; [exact Hk|]. split; [|exact Hm].
    intros q. rewrite Hc. apply handCount_display.
Qed.

Lemma nextHand_frame (deleted : nat -> bool) g p h g' o :
  nextHand deleted g p h = (g', o) ->
  dealer g' = dealer g /\ drawn g' = drawn g
  /\ (forall q, handCount g' q = handCount g q)
  /\ map (fun player => map cards (hands player)) (players g')
     = map (fun player => map cards (hands player)) (players g).
Proof.
  unfold nextHand. destruct (Blackjack.getHand g p h); [|apply enterPlayer_frame].
  intros [= <- _]. unfold beginHand.
  split; [reflexivity|]. split; [reflexivity|].
  split; [intros q; count_hands; reflexivity|].
  unfold Blackjack.updHand, Blackjack.setPlayers. cbn [players].
  rewrite list_fmap_alter with (h := id); [apply list_alter_id; reflexivity|].
  apply Forall_forall. intros pl _. cbn [hands].
  rewrite list_fmap_alter with (h := id); [apply list_alter_id; reflexivity|].
  apply Forall_forall. intros hd _. reflexivity.
Qed.

(** ** Properties of every outcome of a round *)

Section Outcome.
Variable randInt : nat -> nat.
Variable deleted : nat -> bool.
Variable users : list User.

(** A property [I] of the round while a move is awaited, as in
    [playersLoop_invariant], and a property [Q] of the way it ends. *)
Variable I : Blackjack -> nat -> nat -> Prop.
Variable Q : Blackjack -> Outcome -> Prop.

Hypothesis I_Continue : forall m g p h g',
  I g p h -> playMove randInt deleted m g p h = (g', Continue) -> I g' p h.
Hypothesis I_BreakHand : forall m g p h g1 g' p' h',
  I g p h -> playMove randInt deleted m g p h = (g1, BreakHand) ->
  nextHand deleted g1 p (S h) = (g', Some (p', h')) -> I g' p' h'.
Hypothesis Q_Awaiting : forall g p h, I g p h -> Q g (Awaiting p h).
Hypothesis Q_Abandoned : forall g p h, I g p h -> Q (move Expired g).1 Abandoned.
Hypothesis Q_Throw : forall m g p h g',
  I g p h -> playMove randInt deleted m g p h = (g', Throw) -> Q g' Threw.
Hypothesis Q_dealer : forall m g p h g1 g2,
  I g p h -> playMove randInt deleted m g p h = (g1, BreakHand) ->
  nextHand deleted g1 p (S h) = (g2, None) ->
  Q (dealerTurn randInt deleted g2).1 (dealerTurn randInt deleted g2).2.

Lemma playersLoop_outcome (replies : list Reply) :
  forall g p h,
    I g p h ->
    Q (playersLoop randInt deleted replies g p h).1
      (playersLoop randInt deleted replies g p h).2.
Proof.
  induction replies as [|reply replies IH]; intros g p h Hi; simpl.
  - apply Q_Awaiting. exact Hi.
  - destruct reply as [m|]; [|exact (Q_Abandoned g p h Hi)]. cbn [move].
    destruct (playMove randInt deleted m g p h) as [g1 f] eqn:Hm.
    destruct f.
    + apply IH. exact (I_Continue m g p h g1 Hi Hm).
    + destruct (nextHand deleted g1 p (S h)) as [g2 [[p2 h2]|]] eqn:Hn.
      * apply IH. exact (I_BreakHand m g p h g1 g2 p2 h2 Hi Hm Hn).
      * exact (Q_dealer m g p h g1 g2 Hi Hm Hn).
    + exact (Q_Throw m g p h g1 Hi Hm).
Qed.

Hypothesis I_enter : forall g p h,
  enterPlayer deleted (length (players (deal randInt users))) (deal randInt users) 0
  = (g, Some (p, h)) -> I g p h.
Hypothesis Q_nobody : forall g,
  enterPlayer deleted (length (players (deal randInt users))) (deal randInt users) 0
  = (g, None) -> Q (dealerTurn randInt deleted g).1 (dealerTurn randInt deleted g).2.
Hypothesis Q_natural :
  sum (handSum (super (dealer (deal randInt users)))) = PERFECT ->
  Q (dealerBlackjack deleted (deal randInt users)).1
    (dealerBlackjack deleted (deal randInt users)).2.

Lemma runGame_outcome (replies : list Reply) :
  Q (runGame randInt deleted users replies).1 (runGame randInt deleted users replies).2.
Proof.
  unfold runGame. cbv zeta. case_bool_decide as Hn; [exact (Q_natural Hn)|].
  destruct (enterPlayer deleted _ _ _) as [g0 [[p0 h0]|]] eqn:He.
  - apply playersLoop_outcome. exact (I_enter g0 p0 h0 eq_refl).
  - exact (Q_nobody g0 eq_refl).
Qed.
End Outcome.

(** ** A round never throws *)

Lemma deal_dealer randInt (users : list User) :
  exists c0 c1,
    dealer (deal randInt users) = Dealer.new [c0; c1]
    /\ down c0 = false /\ down c1 = true.
Proof.
  unfold deal. destruct (dealPlayers randInt users 0) as [ps k].
  eexists. eexists. split; [reflexivity|]. split; reflexivity.
Qed.

Lemma dealt_dealer_ready randInt (users : list User) :
  (2 <= length (cards (super (dealer (deal randInt users)))))%nat
  /\ Hand.bust (super (dealer (deal randInt users))) = false.
Proof.
  destruct (deal_dealer randInt users) as (c0 & c1 & -> & _).
  split; [simpl; lia | apply pair_not_bust].
Qed.

Lemma playMove_no_throw randInt (deleted : nat -> bool) m g p h g' :
  tableOk g -> (h < handCount g p)%nat ->
  playMove randInt deleted m g p h <> (g', Throw).
Proof.
  intros Hok Hpos Hm.
  apply handCount_getHand in Hpos as [hand Hget].
  destruct (getHand_player g p h hand Hget) as (player & Hp & Hh).
  assert (Hin : inPlay hand).
  { apply (Forall_lookup_1 _ _ _ _ (Forall_lookup_1 _ _ _ _ Hok Hp) Hh). }
  destruct (playMove_turnStep randInt deleted m g p h g' Throw player hand Hp Hh
              (proj1 Hin) Hm) as (repl & n & Hstep & _).
  inversion Hstep.
Qed.

Lemma seated_Continue randInt (deleted : nat -> bool) users m g p h g' f :
  seated randInt users g p h ->
  playMove randInt deleted m g p h = (g', f) -> seated randInt users g' p h.
Proof.
  intros (Hok & Hpos & Hd & H0) Hm. split; [|split; [|split]].
  - exact (playMove_tableOk randInt deleted m g p h g' f Hok Hm).
  - pose proof (playMove_handCount_any randInt deleted m g p h g' f p Hm). lia.
  - rewrite (playMove_dealer randInt deleted m g p h g' f Hm). exact Hd.
  - pose proof (playMove_handCount_any randInt deleted m g p h g' f 0%nat Hm). lia.
Qed.

Lemma seated_nextHand randInt (deleted : nat -> bool) users g p h g' p' h' :
  tableOk g -> dealer g = dealer (deal randInt users) -> (0 < handCount g 0)%nat ->
  nextHand deleted g p h = (g', Some (p', h')) -> seated randInt users g' p' h'.
Proof.
  intros Hok Hd H0 Hn.
  destruct (nextHand_frame deleted g p h g' _ Hn) as (Hd' & _ & Hc & _).
  split; [|split; [|split]].
  - exact (nextHand_tableOk deleted g p h g' _ Hok Hn).
  - exact (nextHand_position deleted g p h g' p' h' Hn).
  - rewrite Hd'. exact Hd.
  - rewrite Hc. exact H0.
Qed.

Lemma deal_handCount_0 randInt (users : list User) :
  users <> [] -> (0 < handCount (deal randInt users) 0)%nat.
Proof.
  intros Hu. apply handCount_getHand.
  destruct (deal_first_hand randInt users Hu) as [hand ->]. eexists. reflexivity.
Qed.

Lemma seated_enter randInt (deleted : nat -> bool) users g p h :
  users <> [] ->
  enterPlayer deleted (length (players (deal randInt users))) (deal randInt users) 0
  = (g, Some (p, h)) -> seated randInt users g p h.
Proof.
  intros Hu He.
  destruct (enterPlayer_frame deleted _ _ _ _ _ He) as (Hd & _ & Hc & _).
  split; [|split; [|split]].
  - apply (enterPlayer_tableOk deleted _ _ _ _ _) with (2 := He). apply deal_tableOk.
  - exact (enterPlayer_position deleted _ _ _ _ _ _ He).
  - exact Hd.
  - rewrite Hc. apply deal_handCount_0. exact Hu.
Qed.

(** The turn of the dealer returns from every table on which the first
    participant has a hand and the dealer is as dealt. *)
Lemma dealerTurn_returns randInt (deleted : nat -> bool) users g :
  dealer g = dealer (deal randInt users) -> (0 < handCount g 0)%nat ->
  exists g', dealerTurn randInt deleted g = (g', Returned).
Proof.
  intros Hd H0. apply handCount_getHand in H0 as [hand Hget].
  destruct (dealt_dealer_ready randInt users) as [Hlen Hnb]. rewrite <- Hd in Hlen, Hnb.
  destruct (dealerTurn_settles randInt deleted g hand Hget Hlen Hnb) as (g' & Hrun & _).
  exists g'. exact Hrun.
Qed.

Lemma dealerBlackjack_returns randInt (deleted : nat -> bool) users :
  users <> [] ->
  exists g', dealerBlackjack deleted (deal randInt users) = (g', Returned).
Proof.
  intros Hu. unfold dealerBlackjack.
  destruct (reveal_Some (dealer (deal randInt users)))
    as (card & d' & -> & _); [apply dealt_dealer_ready|].
  destruct (deal_first_hand randInt users Hu) as [hand Hget].
  unfold Blackjack.getHand in *. cbn [players Blackjack.setDealer]. rewrite Hget.
  eexists. reflexivity.
Qed.

Lemma runGame_no_throw randInt (deleted : nat -> bool) users replies :
  users <> [] -> (runGame randInt deleted users replies).2 <> Threw.
Proof.
  intros Hu.
  apply (runGame_outcome randInt deleted users (seated randInt users)
           (fun _ o => o <> Threw)).
  - intros m g p h g' Hs Hm. exact (seated_Continue _ deleted _ _ _ _ _ _ _ Hs Hm).
  - intros m g p h g1 g' p' h' Hs Hm Hn.
    destruct (seated_Continue _ deleted _ _ _ _ _ _ _ Hs Hm) as (Hok & _ & Hd & H0).
    exact (seated_nextHand _ deleted _ _ _ _ _ _ _ Hok Hd H0 Hn).
  - discriminate.
  - discriminate.
  - intros m g p h g' (Hok & Hpos & _) Hm. exfalso.
    exact (playMove_no_throw randInt deleted m g p h g' Hok Hpos Hm).
  - intros m g p h g1 g2 Hs Hm Hn.
    destruct (seated_Continue _ deleted _ _ _ _ _ _ _ Hs Hm) as (_ & _ & Hd & H0).
    destruct (nextHand_frame deleted _ _ _ _ _ Hn) as (Hd' & _ & Hc & _).
    destruct (dealerTurn_returns randInt deleted users g2) as (g' & ->);
      [congruence | rewrite Hc; exact H0 | discriminate].
  - intros g p h He. exact (seated_enter _ deleted _ _ _ _ Hu He).
  - intros g He. destruct (enterPlayer_frame deleted _ _ _ _ _ He) as (Hd & _ & Hc & _).
    destruct (dealerTurn_returns randInt deleted users g) as (g' & ->);
      [exact Hd | rewrite Hc; apply deal_handCount_0; exact Hu | discriminate].
  - intros _. destruct (dealerBlackjack_returns randInt deleted users Hu) as (g' & ->).
    discriminate.
Qed.

(** X11.  A round with at least one participant never throws, whatever
    cards are drawn and whatever moves are sent: it has returned, it is
    awaiting a move, or it was abandoned on a collector that ended without
    a move. *)
Theorem round_never_throws randInt (deleted : nat -> bool)
    (users : list User) (replies : list Reply) :
  users <> [] ->
  exists g,
    runGame randInt deleted users replies = (g, Returned)
    \/ (exists p h, runGame randInt deleted users replies = (g, Awaiting p h))
    \/ runGame randInt deleted users replies = (g, Abandoned).
Proof.
  intros Hu.
  pose proof (runGame_no_throw randInt deleted users replies Hu) as Ht.
  destruct (runGame randInt deleted users replies) as [g o] eqn:Hrun. exists g.
  destruct o; simpl in Ht; try congruence; eauto.
  exfalso. exact (runGame_not_diverged randInt deleted users replies g Hrun).
Qed.

(** X11 on the round [roundTwoStand]. *)
Lemma round_never_throws_witness :
  exists g,
    roundTwoStand = (g, Returned)
    \/ (exists p h, roundTwoStand = (g, Awaiting p h))
    \/ roundTwoStand = (g, Abandoned).
Proof.
  apply (round_never_throws (replay [9; 9; 9; 6; 9; 7]%nat) neverDeleted [alice; bob]).
  discriminate.
Defined.

Lemma runGame_dealer_kept randInt (deleted : nat -> bool) users replies :
  users <> [] ->
  (runGame randInt deleted users replies).2 <> Returned ->
  dealer (runGame randInt deleted users replies).1 = dealer (deal randInt users).
Proof.
  intros Hu.
  apply (runGame_outcome randInt deleted users (seated randInt users)
           (fun g o => o <> Returned -> dealer g = dealer (deal randInt users))).
  - intros m g p h g' Hs Hm. exact (seated_Continue _ deleted _ _ _ _ _ _ _ Hs Hm).
  - intros m g p h g1 g' p' h' Hs Hm Hn.
    destruct (seated_Continue _ deleted _ _ _ _ _ _ _ Hs Hm) as (Hok & _ & Hd & H0).
    exact (seated_nextHand _ deleted _ _ _ _ _ _ _ Hok Hd H0 Hn).
  - intros g p h (_ & _ & Hd & _) _. exact Hd.
  - intros g p h (_ & _ & Hd & _) _. simpl. destruct (prompt g); exact Hd.
  - intros m g p h g' (Hok & Hpos & _) Hm. exfalso.
    exact (playMove_no_throw randInt deleted m g p h g' Hok Hpos Hm).
  - intros m g p h g1 g2 Hs Hm Hn.
    destruct (seated_Continue _ deleted _ _ _ _ _ _ _ Hs Hm) as (_ & _ & Hd & H0).
    destruct (nextHand_frame deleted _ _ _ _ _ Hn) as (Hd' & _ & Hc & _).
    destruct (dealerTurn_returns randInt deleted users g2) as (g' & ->);
      [congruence | rewrite Hc; exact H0 | intros Hne; simpl in Hne; congruence].
  - intros g p h He. exact (seated_enter _ deleted _ _ _ _ Hu He).
  - intros g He. destruct (enterPlayer_frame deleted _ _ _ _ _ He) as (Hd & _ & Hc & _).
    destruct (dealerTurn_returns randInt deleted users g) as (g' & ->);
      [exact Hd | rewrite Hc; apply deal_handCount_0; exact Hu
       | intros Hne; simpl in Hne; congruence].
  - intros _. destruct (dealerBlackjack_returns randInt deleted users Hu) as (g' & ->).
    intros Hne. simpl in Hne. congruence.
Qed.

(** X12.  While the participants play, the dealer is exactly as dealt: in
    every round that is awaiting a move or was abandoned, the dealer holds
    its two dealt cards, the first face up and the second face down, is
    still hidden, and does not total 21. *)
Theorem dealer_untouched_while_playing randInt (deleted : nat -> bool) users replies g o :
  users <> [] ->
  runGame randInt deleted users replies = (g, o) ->
  o <> Returned ->
  dealer g = dealer (deal randInt users)
  /\ hidden (dealer g) = true
  /\ sum (handSum (super (dealer g))) <> PERFECT
  /\ exists c0 c1,
      cards (super (dealer g)) = [c0; c1] /\ down c0 = false /\ down c1 = true.
Proof.
  intros Hu Hrun Ho.
  pose proof (runGame_dealer_kept randInt deleted users replies Hu) as Hd.
  rewrite Hrun in Hd. specialize (Hd Ho). cbn [fst] in Hd.
  assert (Hnat : sum (handSum (super (dealer (deal randInt users)))) <> PERFECT).
  { intros Hnat. apply Ho. unfold runGame in Hrun. cbv zeta in Hrun.
    rewrite bool_decide_eq_true_2 in Hrun by exact Hnat.
    destruct (dealerBlackjack_returns randInt deleted users Hu) as (g' & Hb).
    rewrite Hb in Hrun. congruence. }
  rewrite Hd.
  destruct (deal_dealer randInt users) as (c0 & c1 & E & H0 & H1).
  rewrite E in *. split; [reflexivity|]. split; [reflexivity|].
  split; [exact Hnat|]. exists c0, c1. auto.
Qed.

(** X12 on the round [splitThenLeave]. *)
Lemma dealer_untouched_while_playing_witness :
  exists g,
    splitThenLeave [] = (g, Abandoned)
    /\ dealer g = dealer (deal (replay [7; 7; 9; 7; 2; 3]%nat) [alice])
    /\ hidden (dealer g) = true
    /\ sum (handSum (super (dealer g))) <> PERFECT
    /\ exists c0 c1,
        cards (super (dealer g)) = [c0; c1] /\ down c0 = false /\ down c1 = true.
Proof.
  eexists. split; [vm_compute; reflexivity|].
  apply (dealer_untouched_while_playing (replay [7; 7; 9; 7; 2; 3]%nat) neverDeleted [alice]
           ([Collected SPLIT] ++ [Expired]) _ Abandoned);
    [discriminate | vm_compute; reflexivity | discriminate].
Defined.

(** ** The outcome line of the dealer's part *)

Lemma dealerTurn_settlements randInt (deleted : nat -> bool) g g' o :
  dealerTurn randInt deleted g = (g', o) ->
  match o with
  | Returned => exists r, settlements (log g') = settlements (log g) ++ [r]
  | _ => settlements (log g') = settlements (log g)
  end.
Proof.
  unfold dealerTurn. cbv zeta.
  destruct (Dealer.reveal _) as [[card d]|]; [|intros [= <- <-]; reflexivity].
  set (g1 := Blackjack.display deleted (DealerReveal card) _).
  assert (Hs1 : settlements (log g1) = settlements (log g)).
  { unfold g1. rewrite display_settlements. simpl. apply app_nil_r. }
  destruct (dealerLoop_ends randInt deleted
              (S (Z.to_nat (28 - weight (handSum (super (dealer g1)))))) g1)
    as (g2 & _ & _ & [(-> & _ & _ & Hl & _)|(-> & _ & _ & Hl)]); [lia | lia | |].
  - unfold settle. destruct (Blackjack.getHand g2 0 0) as [hand|].
    + intros [= <- <-]. rewrite display_settlements. simpl. rewrite Hl, Hs1. eauto.
    + intros [= <- <-]. congruence.
  - intros [= <- <-]. exists WIN. congruence.
Qed.

Lemma dealerBlackjack_settlements (deleted : nat -> bool) g g' o :
  dealerBlackjack deleted g = (g', o) ->
  match o with
  | Returned => exists r, settlements (log g') = settlements (log g) ++ [r]
  | _ => settlements (log g') = settlements (log g)
  end.
Proof.
  unfold dealerBlackjack.
  destruct (Dealer.reveal _) as [[card d]|]; [|intros [= <- <-]; reflexivity].
  destruct (Blackjack.getHand _ 0 0) as [hand|].
  - intros [= <- <-]. rewrite display_settlements. simpl. eauto.
  - intros [= <- <-]. reflexivity.
Qed.

(** ** Every card drawn is on the table *)

Lemma sum_list_insert (l : list nat) (i x y : nat) :
  l !! i = Some x -> (sum_list (<[i := y]> l) + x = sum_list l + y)%nat.
Proof.
  revert i. induction l as [|z l IH]; intros [|i]; simpl; try discriminate.
  - intros [= ->]. lia.
  - intros H. specialize (IH i H). lia.
Qed.

Lemma sum_list_app_nat (l k : list nat) :
  sum_list (l ++ k) = (sum_list l + sum_list k)%nat.
Proof. induction l as [|x l IH]; simpl; [reflexivity | rewrite IH; lia]. Qed.

Lemma cardsOf_replace (player : Player) (h : nat) (hand : Hand) (repl : list Hand) u :
  hands player !! h = Some hand ->
  (cardsOf (mkPlayer (replaceHand h repl (hands player)) u) + length (cards hand)
   = cardsOf player + sum_list (map (fun hand => length (cards hand)) repl))%nat.
Proof.
  intros Hh. unfold cardsOf, replaceHand. cbn [hands].
  rewrite <- (take_drop_middle (hands player) h hand Hh) at 3.
  rewrite !map_app, !sum_list_app_nat. simpl. lia.
Qed.

Lemma turnStep_cards card1 card2 hand repl n f :
  turnStep card1 card2 hand repl n f ->
  sum_list (map (fun hand => length (cards hand)) repl)
  = (length (cards hand) + n)%nat.
Proof.
  destruct 1; simpl; rewrite ?length_app; simpl; try lia.
  match goal with H : cards hand = _ |- _ => rewrite H end. simpl. lia.
Qed.

Lemma cardsHeld_frame g g' :
  map (fun player => map cards (hands player)) (players g')
  = map (fun player => map cards (hands player)) (players g) ->
  dealer g' = dealer g ->
  cardsHeld g' = cardsHeld g.
Proof.
  intros Hm Hd. unfold cardsHeld. rewrite Hd. f_equal.
  assert (Hc : forall ps, map cardsOf ps
    = map (fun cs => sum_list (map length cs))
          (map (fun player => map cards (hands player)) ps)).
  { intros ps. rewrite map_map. apply map_ext. intros pl. unfold cardsOf.
    rewrite map_map. reflexivity. }
  rewrite !Hc, Hm. reflexivity.
Qed.

Lemma cardsHeld_display (deleted :
  nat -> bool) d g : cardsHeld (Blackjack.display deleted d g) = cardsHeld g.
Proof. unfold cardsHeld. rewrite display_players, display_dealer. reflexivity. Qed.

Lemma playMove_conserves randInt (deleted : nat -> bool) m g p h g' f :
  tableOk g -> (h < handCount g p)%nat ->
  playMove randInt deleted m g p h = (g', f) ->
  (cardsHeld g' + drawn g = cardsHeld g + drawn g')%nat.
Proof.
  intros Hok Hpos Hm.
  apply handCount_getHand in Hpos as [hand Hget].
  destruct (getHand_player g p h hand Hget) as (player & Hp & Hh).
  assert (Hin : inPlay hand).
  { apply (Forall_lookup_1 _ _ _ _ (Forall_lookup_1 _ _ _ _ Hok Hp) Hh). }
  destruct (playMove_turnStep randInt deleted m g p h g' f player hand Hp Hh
              (proj1 Hin) Hm) as (repl & n & Hstep & Hpl & Hd & Hk & _).
  unfold cardsHeld. rewrite Hpl, Hd, Hk, list_fmap_insert.
  pose proof (sum_list_insert (map cardsOf (players g)) p (cardsOf player)
                (cardsOf (mkPlayer (replaceHand h repl (hands player)) (user player))))
    as Hsum.
  rewrite list_lookup_fmap, Hp in Hsum. specialize (Hsum eq_refl).
  pose proof (cardsOf_replace player h hand repl (user player) Hh) as Hrep.
  rewrite (turnStep_cards _ _ _ _ _ _ Hstep) in Hrep.
  change (cardsOf <$> players g) with (map cardsOf (players g)). lia.
Qed.

Lemma dealerLoop_conserves randInt (deleted : nat -> bool) (n : nat) :
  forall g g' e,
    dealerLoop randInt deleted n g = (g', e) ->
    (cardsHeld g' + drawn g = cardsHeld g + drawn g')%nat.
Proof.
  induction n as [|n IH]; intros g g' e; simpl; [intros [= <- _]; lia|].
  destruct (Blackjack.dealerMove g); try apply IH.
  - unfold draw, fromRandom. cbv zeta. case_bool_decide.
    + intros [= <- _]. rewrite cardsHeld_display, display_drawn.
      unfold cardsHeld. simpl. rewrite length_app. simpl. lia.
    + intros Hl. apply IH in Hl. rewrite cardsHeld_display, display_drawn in Hl.
      unfold cardsHeld in *. simpl in Hl. rewrite length_app in Hl. simpl in Hl. lia.
  - intros [= <- _]. unfold cardsHeld. simpl. lia.
Qed.

Lemma reveal_length (d d' : Dealer) (card : Card) :
  Dealer.reveal d = Some (card, d') ->
  length (cards (super d')) = length (cards (super d)).
Proof.
  unfold Dealer.reveal. destruct (cards (super d) !! 1%nat); [|discriminate].
  intros [= _ <-]. simpl. apply length_insert.
Qed.

Lemma dealerTurn_conserves randInt (deleted : nat -> bool) g :
  cardsHeld g = drawn g ->
  cardsHeld (dealerTurn randInt deleted g).1 = drawn (dealerTurn randInt deleted g).1.
Proof.
  intros Hc. unfold dealerTurn. cbv zeta.
  destruct (Dealer.reveal _) as [[card d]|] eqn:Hr; [|exact Hc].
  apply reveal_length in Hr. simpl in Hr.
  set (g1 := Blackjack.display deleted (DealerReveal card) _).
  assert (H1 : cardsHeld g1 = drawn g1).
  { unfold g1. rewrite cardsHeld_display, display_drawn.
    unfold cardsHeld in *. simpl. rewrite Hr. exact Hc. }
  destruct (dealerLoop randInt deleted _ g1) as [g2 e] eqn:Hl.
  apply dealerLoop_conserves in Hl.
  assert (H2 : cardsHeld g2 = drawn g2) by lia.
  destruct e; cbn [fst]; try exact H2.
  unfold settle. destruct (Blackjack.getHand g2 0 0); cbn [fst]; [|exact H2].
  rewrite cardsHeld_display, display_drawn. exact H2.
Qed.

Lemma dealerBlackjack_conserves (deleted : nat -> bool) g :
  cardsHeld g = drawn g ->
  cardsHeld (dealerBlackjack deleted g).1 = drawn (dealerBlackjack deleted g).1.
Proof.
  intros Hc. unfold dealerBlackjack.
  destruct (Dealer.reveal _) as [[card d]|] eqn:Hr; [|exact Hc].
  apply reveal_length in Hr.
  assert (H1 : cardsHeld (Blackjack.setDealer d g) = drawn (Blackjack.setDealer d g)).
  { unfold cardsHeld in *. simpl. rewrite Hr. exact Hc. }
  destruct (Blackjack.getHand _ 0 0); cbn [fst]; [|exact H1].
  rewrite cardsHeld_display, display_drawn. exact H1.
Qed.

Lemma dealPlayers_cards randInt (users : list User) (k : nat) :
  (sum_list (map cardsOf (dealPlayers randInt users k).1) + k
   = (dealPlayers randInt users k).2)%nat.
Proof.
  revert k. induction users as [|user users IH]; intros k; simpl; [reflexivity|].
  specialize (IH (S (S k))).
  destruct (dealPlayers randInt users (S (S k))) as [ps k']. simpl in *.
  rewrite <- IH. unfold cardsOf. simpl. lia.
Qed.

Lemma deal_conserves randInt (users : list User) :
  cardsHeld (deal randInt users) = drawn (deal randInt users).
Proof.
  pose proof (dealPlayers_cards randInt users 0) as H.
  unfold deal, dealDealer, fromRandom.
  destruct (dealPlayers randInt users 0) as [ps k]. simpl in *.
  unfold cardsHeld. simpl. lia.
Qed.

(** X14.  No card is lost and none appears from nowhere: in every state
    a round can reach, the cards held by the participants and the dealer
    are as many as the cards drawn from the shoe. *)
Theorem every_card_drawn_is_held randInt (deleted : nat -> bool)
    (users : list User) (replies : list Reply) :
  cardsHeld (runGame randInt deleted users replies).1
  = drawn (runGame randInt deleted users replies).1.
Proof.
  apply (runGame_outcome randInt deleted users
           (fun g p h => tableOk g /\ (h < handCount g p)%nat
                         /\ cardsHeld g = drawn g)
           (fun g _ => cardsHeld g = drawn g)).
  - intros m g p h g' (Hok & Hpos & Hc) Hm. split; [|split].
    + exact (playMove_tableOk randInt deleted m g p h g' _ Hok Hm).
    + pose proof (playMove_handCount randInt deleted m g p h g' _ Hm). lia.
    + pose proof (playMove_conserves randInt deleted m g p h g' _ Hok Hpos Hm). lia.
  - intros m g p h g1 g' p' h' (Hok & Hpos & Hc) Hm Hn.
    pose proof (playMove_conserves randInt deleted m g p h g1 _ Hok Hpos Hm) as H1.
    destruct (nextHand_frame deleted _ _ _ _ _ Hn) as (Hd & Hk & _ & Hmap).
    split; [|split].
    + apply (nextHand_tableOk deleted g1 p (S h) g' _) with (2 := Hn).
      exact (playMove_tableOk randInt deleted m g p h g1 _ Hok Hm).
    + exact (nextHand_position deleted g1 p (S h) g' p' h' Hn).
    + rewrite (cardsHeld_frame g1 g' Hmap Hd), Hk. lia.
  - intros g p h (_ & _ & Hc). exact Hc.
  - intros g p h (_ & _ & Hc). simpl. destruct (prompt g); exact Hc.
  - intros m g p h g' (Hok & Hpos & _) Hm. exfalso.
    exact (playMove_no_throw randInt deleted m g p h g' Hok Hpos Hm).
  - intros m g p h g1 g2 (Hok & Hpos & Hc) Hm Hn.
    pose proof (playMove_conserves randInt deleted m g p h g1 _ Hok Hpos Hm) as H1.
    destruct (nextHand_frame deleted _ _ _ _ _ Hn) as (Hd & Hk & _ & Hmap).
    apply dealerTurn_conserves.
    rewrite (cardsHeld_frame g1 g2 Hmap Hd), Hk. lia.
  - intros g p h He.
    destruct (enterPlayer_frame deleted _ _ _ _ _ He) as (Hd & Hk & _ & Hmap).
    split; [|split].
    + apply (enterPlayer_tableOk deleted _ _ _ _ _) with (2 := He). apply deal_tableOk.
    + exact (enterPlayer_position deleted _ _ _ _ _ _ He).
    + rewrite (cardsHeld_frame _ g Hmap Hd), Hk. apply deal_conserves.
  - intros g He.
    destruct (enterPlayer_frame deleted _ _ _ _ _ He) as (Hd & Hk & _ & Hmap).
    apply dealerTurn_conserves.
    rewrite (cardsHeld_frame _ g Hmap Hd), Hk. apply deal_conserves.
  - intros _. apply dealerBlackjack_conserves, deal_conserves.
Qed.

(** ** The hand that is asked for a move *)

Lemma replace_lookup (hs : list Hand) (h : nat) (hand x : Hand) (r : list Hand) :
  hs !! h = Some hand -> replaceHand h (x :: r) hs !! h = Some x.
Proof.
  intros Hh. unfold replaceHand.
  assert (Hlen : length (take h hs) = h).
  { apply length_take_le. apply lookup_lt_Some in Hh. lia. }
  rewrite lookup_app_r by lia. rewrite Hlen, Nat.sub_diag. reflexivity.
Qed.

Lemma replace_drop (hs : list Hand) (h : nat) (hand x : Hand) (r : list Hand) :
  hs !! h = Some hand ->
  drop (S h) (replaceHand h (x :: r) hs) = r ++ drop (S h) hs.
Proof.
  intros Hh. unfold replaceHand.
  assert (Hlen : length (take h hs) = h).
  { apply length_take_le. apply lookup_lt_Some in Hh. lia. }
  rewrite drop_app_ge by lia. rewrite Hlen.
  replace (S h - h)%nat with 1%nat by lia. reflexivity.
Qed.

Lemma twoCards_not_bust (hand : Hand) :
  inPlay hand -> twoCards hand -> Hand.bust hand = false.
Proof.
  intros [_ Hs] Ht. unfold twoCards in Ht.
  destruct (cards hand) as [|c0 [|c1 [|c2 rest]]] eqn:Hc; try discriminate.
  unfold Hand.bust. rewrite Hs. exact (pair_not_bust c0 c1).
Qed.

Lemma awaitedOk_Continue randInt (deleted : nat -> bool) m g p h g' :
  awaitedOk g p h ->
  playMove randInt deleted m g p h = (g', Continue) -> awaitedOk g' p h.
Proof.
  intros (Hok & player & hand & Hp & Hh & Hst & Hnb & Hlater & Hothers) Hm.
  split; [exact (playMove_tableOk randInt deleted m g p h g' _ Hok Hm)|].
  assert (Hin : inPlay hand).
  { apply (Forall_lookup_1 _ _ _ _ (Forall_lookup_1 _ _ _ _ Hok Hp) Hh). }
  destruct (playMove_turnStep randInt deleted m g p h g' Continue player hand Hp Hh
              (proj1 Hin) Hm) as (repl & n & Hstep & Hpl & _ & _).
  assert (Hlt : (p < length (players g))%nat) by (eapply lookup_lt_Some; eauto).
  assert (Hgoal : forall x r,
    repl = x :: r -> status x = Status.CURRENT -> Hand.bust x = false ->
    Forall twoCards r ->
    exists player' hand',
      players g' !! p = Some player' /\ hands player' !! h = Some hand'
      /\ status hand' = Status.CURRENT /\ Hand.bust hand' = false
      /\ Forall twoCards (drop (S h) (hands player'))
      /\ Forall (fun player => Forall twoCards (hands player))
                (drop (S p) (players g'))).
  { intros x r -> Hx Hb Hr. eexists. exists x. rewrite Hpl.
    split; [apply list_lookup_insert_eq; exact Hlt|]. cbn [hands].
    split; [exact (replace_lookup _ _ _ _ _ Hh)|].
    split; [exact Hx|]. split; [exact Hb|].
    rewrite (replace_drop _ _ _ _ _ Hh).
    split; [apply Forall_app; split; assumption|].
    rewrite drop_insert_lt by lia. exact Hothers. }
  inversion Hstep; subst.
  - apply (Hgoal hand []); auto.
  - eapply Hgoal; [reflexivity | exact Hst | assumption | constructor].
  - eapply Hgoal; [reflexivity | exact Hst | apply hit_single_not_bust|].
    repeat constructor.
Qed.

Lemma enterPlayer_awaitedOk (deleted : nat -> bool) (n : nat) g p g' p' h' :
  tableOk g ->
  Forall (fun player => Forall twoCards (hands player)) (drop p (players g)) ->
  enterPlayer deleted n g p = (g', Some (p', h')) -> awaitedOk g' p' h'.
Proof.
  revert g p. induction n as [|n IH]; intros g p Hok Hall; simpl; [discriminate|].
  destruct (players g !! p) as [player|] eqn:Hp; [|discriminate].
  rewrite (drop_S _ _ _ Hp) in Hall. apply Forall_cons in Hall as [Hpl Hrest].
  destruct (hands player !! 0%nat) as [hand|] eqn:Hh.
  - intros [= <- <- <-].
    split; [apply tableOk_updHand; [intros ?; apply inPlay_setStatus|];
            apply tableOk_display, Hok|].
    assert (Hin : inPlay hand).
    { apply (Forall_lookup_1 _ _ _ _ (Forall_lookup_1 _ _ _ _ Hok Hp) Hh). }
    assert (Htwo : twoCards hand) by (apply (Forall_lookup_1 _ _ _ _ Hpl Hh)).
    unfold beginHand, Blackjack.updHand, Blackjack.setPlayers. cbn [players].
    rewrite display_players.
    eexists. exists (Hand.setStatus Status.CURRENT hand).
    split; [rewrite list_lookup_alter_eq, Hp; reflexivity|]. cbn [hands].
    split; [rewrite list_lookup_alter_eq, Hh; reflexivity|].
    split; [reflexivity|].
    split; [exact (twoCards_not_bust hand Hin Htwo)|].
    split.
    + rewrite drop_alter_lt by lia. apply Forall_drop. exact Hpl.
    + rewrite drop_alter_lt by lia. exact Hrest.
  - apply IH; [apply tableOk_display, Hok|].
    rewrite display_players. exact Hrest.
Qed.

Lemma awaitedOk_BreakHand randInt (deleted : nat -> bool) m g p h g1 g' p' h' :
  awaitedOk g p h ->
  playMove randInt deleted m g p h = (g1, BreakHand) ->
  nextHand deleted g1 p (S h) = (g', Some (p', h')) -> awaitedOk g' p' h'.
Proof.
  intros (Hok & player & hand & Hp & Hh & Hst & Hnb & Hlater & Hothers) Hm Hn.
  pose proof (playMove_tableOk randInt deleted m g p h g1 _ Hok Hm) as Hok1.
  assert (Hin : inPlay hand).
  { apply (Forall_lookup_1 _ _ _ _ (Forall_lookup_1 _ _ _ _ Hok Hp) Hh). }
  destruct (playMove_turnStep randInt deleted m g p h g1 BreakHand player hand Hp Hh
              (proj1 Hin) Hm) as (repl & n & Hstep & Hpl & _ & _).
  assert (Hlt : (p < length (players g))%nat) by (eapply lookup_lt_Some; eauto).
  assert (Hone : exists x, repl = [x]) by (inversion Hstep; eauto).
  destruct Hone as [x ->].
  assert (Hp1 : players g1 !! p
                = Some (mkPlayer (replaceHand h [x] (hands player)) (user player))).
  { rewrite Hpl. apply list_lookup_insert_eq. exact Hlt. }
  assert (Hd1 : drop (S h) (replaceHand h [x] (hands player))
                = drop (S h) (hands player)).
  { rewrite (replace_drop _ _ _ _ _ Hh). reflexivity. }
  assert (Ho1 : drop (S p) (players g1) = drop (S p) (players g)).
  { rewrite Hpl. apply drop_insert_lt. lia. }
  unfold nextHand in Hn.
  destruct (Blackjack.getHand g1 p (S h)) as [hand2|] eqn:Hget2.
  - injection Hn as <- <- <-.
    split; [apply tableOk_updHand; [intros ?; apply inPlay_setStatus | exact Hok1]|].
    unfold Blackjack.getHand in Hget2. rewrite Hp1 in Hget2. cbn in Hget2.
    assert (Hin2 : inPlay hand2).
    { apply (Forall_lookup_1 _ _ _ _ (Forall_lookup_1 _ _ _ _ Hok1 Hp1) Hget2). }
    pose proof (drop_S _ _ _ Hget2) as Hds. rewrite Hd1 in Hds.
    rewrite Hds in Hlater. apply Forall_cons in Hlater as [Htwo Hlater2].
    unfold beginHand, Blackjack.updHand, Blackjack.setPlayers. cbn [players].
    eexists. exists (Hand.setStatus Status.CURRENT hand2).
    split; [rewrite list_lookup_alter_eq, Hp1; reflexivity|]. cbn [hands].
    split; [rewrite list_lookup_alter_eq, Hget2; reflexivity|].
    split; [reflexivity|].
    split; [exact (twoCards_not_bust hand2 Hin2 Htwo)|].
    split.
    + rewrite drop_alter_lt by lia.
      replace (drop (S (S h)) (replaceHand h [x] (hands player)))
        with (drop 1 (drop (S h) (replaceHand h [x] (hands player))))
        by (rewrite drop_drop; f_equal; lia).
      rewrite Hd1, Hds. exact Hlater2.
    + rewrite drop_alter_lt by lia. rewrite Ho1. exact Hothers.
  - apply (enterPlayer_awaitedOk deleted _ _ _ _ _ _ Hok1) in Hn; [exact Hn|].
    rewrite Ho1. exact Hothers.
Qed.

Lemma dealPlayers_twoCards randInt (users : list User) (k : nat) :
  Forall (fun player => Forall twoCards (hands player))
         (dealPlayers randInt users k).1.
Proof.
  revert k. induction users as [|user users IH]; intros k; simpl; [constructor|].
  specialize (IH (S (S k))).
  destruct (dealPlayers randInt users (S (S k))) as [ps k']. simpl in *.
  constructor; [|exact IH]. constructor; [reflexivity | constructor].
Qed.

Lemma runGame_awaitedOk randInt (deleted : nat -> bool) users replies g p h :
  runGame randInt deleted users replies = (g, Awaiting p h) -> awaitedOk g p h.
Proof.
  intros Hrun.
  destruct (runGame_awaiting randInt deleted users replies g p h Hrun)
    as (g0 & p0 & h0 & He & Hloop & _).
  refine (playersLoop_invariant randInt deleted awaitedOk _ _
            replies g0 p0 h0 g p h _ Hloop).
  - intros m g1 p1 h1 g2. apply awaitedOk_Continue.
  - intros m g1 p1 h1 g2 g3 p3 h3. apply awaitedOk_BreakHand.
  - apply (enterPlayer_awaitedOk deleted _ _ _ _ _ _ (deal_tableOk randInt users)) in He;
      [exact He|].
    destruct (deal_shape randInt users) as (c0 & c1 & _ & ->).
    apply dealPlayers_twoCards.
Qed.

(** X15.  A move is only ever awaited for a hand that exists, has the
    status CURRENT, holds at least two cards with its sum the sum of its
    cards, and is not bust: its total is at most 21. *)
Theorem awaited_hand_is_current_and_live randInt (deleted : nat -> bool) users replies g p h :
  runGame randInt deleted users replies = (g, Awaiting p h) ->
  exists hand,
    Blackjack.getHand g p h = Some hand
    /\ status hand = Status.CURRENT
    /\ (2 <= length (cards hand))%nat
    /\ handSum hand = HandSum.fromCards (cards hand)
    /\ sum (handSum hand) <= 21.
Proof.
  intros Hrun.
  destruct (runGame_awaitedOk randInt deleted users replies g p h Hrun)
    as (Hok & player & hand & Hp & Hh & Hst & Hnb & _).
  exists hand. unfold Blackjack.getHand. rewrite Hp. cbn.
  split; [exact Hh|]. split; [exact Hst|].
  destruct (Forall_lookup_1 _ _ _ _ (Forall_lookup_1 _ _ _ _ Hok Hp) Hh) as [Hl Hs].
  split; [exact Hl|]. split; [exact Hs|].
  unfold Hand.bust, HandSum.bust, PERFECT in Hnb.
  apply bool_decide_eq_false in Hnb. lia.
Qed.

(** X15 on the round [splitThenLeave] just after the split. *)
Lemma awaited_hand_is_current_and_live_witness :
  exists hand,
    Blackjack.getHand afterSplit 0 0 = Some hand
    /\ status hand = Status.CURRENT
    /\ (2 <= length (cards hand))%nat
    /\ handSum hand = HandSum.fromCards (cards hand)
    /\ sum (handSum hand) <= 21.
Proof.
  apply (awaited_hand_is_current_and_live (replay [7; 7; 9; 7; 2; 3]%nat) neverDeleted [alice]
           [Collected SPLIT] afterSplit 0 0).
  vm_compute. reflexivity.
Defined.

(** ** The outcome lines of a round *)

Lemma bustIn_app (hs hs' : list Hand) :
  bustIn (hs ++ hs') = (bustIn hs + bustIn hs')%nat.
Proof. unfold bustIn. rewrite map_app. apply sum_list_app_nat. Qed.

Lemma bustIn_replace (hs : list Hand) (h : nat) (hand : Hand) (repl : list Hand) :
  hs !! h = Some hand ->
  (bustIn (replaceHand h repl hs) + bustIn [hand] = bustIn hs + bustIn repl)%nat.
Proof.
  intros Hh. unfold replaceHand.
  rewrite <- (take_drop_middle hs h hand Hh) at 3.
  change (hand :: drop (S h) hs) with ([hand] ++ drop (S h) hs).
  rewrite !bustIn_app. lia.
Qed.

Lemma bustHands_turn g g' p h player hand (repl : list Hand) :
  players g !! p = Some player ->
  hands player !! h = Some hand ->
  Hand.bust hand = false ->
  players g'
  = <[p := mkPlayer (replaceHand h repl (hands player)) (user player)]> (players g) ->
  bustHands g' = (bustHands g + bustIn repl)%nat.
Proof.
  intros Hp Hh Hnb Hpl. unfold bustHands. rewrite Hpl.
  change (map (fun player => bustIn (hands player)) (<[p := ?x]> ?l))
    with ((fun player => bustIn (hands player)) <$> <[p := x]> l).
  rewrite list_fmap_insert. cbn [hands].
  pose proof (sum_list_insert (map (fun player => bustIn (hands player)) (players g))
                p (bustIn (hands player))
                (bustIn (replaceHand h repl (hands player)))) as Hsum.
  rewrite list_lookup_fmap, Hp in Hsum. specialize (Hsum eq_refl).
  pose proof (bustIn_replace (hands player) h hand repl Hh) as Hrep.
  rewrite bustIn_one, Hnb in Hrep.
  change ((fun player => bustIn (hands player)) <$> players g)
    with (map (fun player => bustIn (hands player)) (players g)).
  lia.
Qed.

Lemma bustIn_alter (f : Hand -> Hand) (h : nat) (hs : list Hand) :
  (forall hand, Hand.bust (f hand) = Hand.bust hand) ->
  bustIn (alter f h hs) = bustIn hs.
Proof.
  intros Hf. unfold bustIn. f_equal.
  change (map ?F (alter f h hs)) with (F <$> alter f h hs).
  rewrite list_fmap_alter with (h := id); [apply list_alter_id; reflexivity|].
  apply Forall_forall. intros hand _. rewrite Hf. reflexivity.
Qed.

Lemma bustHands_updHand p h (f : Hand -> Hand) g :
  (forall hand, Hand.bust (f hand) = Hand.bust hand) ->
  bustHands (Blackjack.updHand p h f g) = bustHands g.
Proof.
  intros Hf. unfold bustHands, Blackjack.updHand, Blackjack.setPlayers.
  cbn [players]. f_equal.
  change (map ?F (alter ?G p ?l)) with (F <$> alter G p l).
  rewrite list_fmap_alter with (h := id); [apply list_alter_id; reflexivity|].
  apply Forall_forall. intros player _. cbn [hands]. unfold id.
  apply bustIn_alter. exact Hf.
Qed.

Lemma bustHands_display (deleted : nat -> bool) d g :
  bustHands (Blackjack.display deleted d g) = bustHands g.
Proof. unfold bustHands. rewrite display_players. reflexivity. Qed.

Lemma bustLines_display (deleted : nat -> bool) d g :
  settlement d = None -> bustLines g -> bustLines (Blackjack.display deleted d g).
Proof.
  unfold bustLines. intros Hd Hj.
  rewrite display_settlements, bustHands_display, Hd, Hj. apply app_nil_r.
Qed.

Lemma bustLines_beginHand g p h : bustLines g -> bustLines (beginHand g p h).
Proof.
  unfold bustLines, beginHand. intros Hj.
  rewrite bustHands_updHand by reflexivity. exact Hj.
Qed.

Lemma bustLines_enterPlayer (deleted : nat -> bool) (n : nat) :
  forall g p, bustLines g -> bustLines (enterPlayer deleted n g p).1.
Proof.
  induction n as [|n IH]; intros g p Hj; simpl; [exact Hj|].
  destruct (players g !! p) as [player|]; [|exact Hj].
  pose proof (bustLines_display deleted Prompt g eq_refl Hj) as Hj1.
  destruct (hands player !! 0%nat); [apply bustLines_beginHand; exact Hj1|].
  apply IH. exact Hj1.
Qed.

Lemma bustLines_nextHand (deleted : nat -> bool) g p h :
  bustLines g -> bustLines (nextHand deleted g p h).1.
Proof.
  intros Hj. unfold nextHand. destruct (Blackjack.getHand g p h).
  - apply bustLines_beginHand. exact Hj.
  - apply bustLines_enterPlayer. exact Hj.
Qed.

Lemma bustLines_playMove randInt (deleted : nat -> bool) m g p h g' f :
  awaitedOk g p h -> bustLines g ->
  playMove randInt deleted m g p h = (g', f) -> bustLines g'.
Proof.
  intros (Hok & player & hand & Hp & Hh & _ & Hnb & _) Hj Hm.
  assert (Hin : inPlay hand).
  { apply (Forall_lookup_1 _ _ _ _ (Forall_lookup_1 _ _ _ _ Hok Hp) Hh). }
  destruct (playMove_turnStep randInt deleted m g p h g' f player hand Hp Hh
              (proj1 Hin) Hm) as (repl & n & _ & Hpl & _ & _ & Hlines).
  unfold bustLines in *.
  rewrite (Hlines Hnb), (bustHands_turn g g' p h player hand repl Hp Hh Hnb Hpl), Hj.
  symmetry. apply replicate_add.
Qed.

Lemma dealPlayers_bustIn randInt (users : list User) (k : nat) :
  sum_list (map (fun player => bustIn (hands player)) (dealPlayers randInt users k).1)
  = 0%nat.
Proof.
  revert k. induction users as [|user users IH]; intros k; simpl; [reflexivity|].
  unfold fromRandom. specialize (IH (S (S k))).
  destruct (dealPlayers randInt users (S (S k))) as [ps k']. simpl in *.
  rewrite IH, bustIn_one, pair_not_bust. reflexivity.
Qed.

Lemma bustLines_deal randInt (users : list User) : bustLines (deal randInt users).
Proof.
  unfold bustLines, bustHands.
  destruct (deal_shape randInt users) as (c0 & c1 & _ & ->). cbn [log players].
  rewrite dealPlayers_bustIn. reflexivity.
Qed.

Lemma dealerTurn_players randInt (deleted : nat -> bool) g :
  players (dealerTurn randInt deleted g).1 = players g.
Proof.
  unfold dealerTurn. cbv zeta.
  destruct (Dealer.reveal _) as [[card d]|]; [|reflexivity].
  set (g1 := Blackjack.display deleted (DealerReveal card) _).
  assert (H1 : players g1 = players g)
    by (unfold g1; rewrite display_players; reflexivity).
  destruct (dealerLoop_ends randInt deleted
              (S (Z.to_nat (28 - weight (handSum (super (dealer g1)))))) g1)
    as (g2 & Hp & _ & [(-> & _)|(-> & _)]); [lia | lia | |].
  - unfold settle. destruct (Blackjack.getHand g2 0 0); cbn [fst];
      rewrite ?display_players; congruence.
  - cbn [fst]. congruence.
Qed.

Lemma dealerBlackjack_players (deleted : nat -> bool) g :
  players (dealerBlackjack deleted g).1 = players g.
Proof.
  unfold dealerBlackjack. destruct (Dealer.reveal _) as [[card d]|]; [|reflexivity].
  destruct (Blackjack.getHand _ 0 0); cbn [fst]; rewrite ?display_players;
    reflexivity.
Qed.

(** The dealer's part of a round adds the one line of the round's
    outcome, when the round returns. *)
Lemma bustLines_dealerTurn randInt (deleted : nat -> bool) g :
  bustLines g ->
  exists final,
    settlements (log (dealerTurn randInt deleted g).1)
    = replicate (bustHands (dealerTurn randInt deleted g).1) LOSE ++ final
    /\ ((dealerTurn randInt deleted g).2 = Returned -> exists r, final = [r])
    /\ ((dealerTurn randInt deleted g).2 <> Returned -> final = []).
Proof.
  unfold bustLines. intros Hj.
  pose proof (dealerTurn_settlements randInt deleted g) as Hd.
  pose proof (dealerTurn_players randInt deleted g) as Hp.
  unfold bustHands. rewrite Hp. fold (bustHands g).
  destruct (dealerTurn randInt deleted g) as [g' o]. specialize (Hd g' o eq_refl).
  cbn [fst snd] in *. rewrite <- Hj.
  destruct o; try (exists []; rewrite app_nil_r;
                   split; [exact Hd | split; [discriminate | reflexivity]]).
  destruct Hd as [r Hr]. exists [r].
  split; [exact Hr | split; [eauto | congruence]].
Qed.

(** X13.  The outcome lines of a round.  At any point of a round, the
    lines shown that carry an outcome are one line of a loss for each
    hand of a participant that is bust (shown when the hand went bust,
    while the round goes on), followed, once the round has returned and
    only then, by exactly one more line: the outcome the round ends
    on. *)
Theorem outcome_lines_of_a_round randInt (deleted : nat -> bool)
    (users : list User) (replies : list Reply) :
  exists final,
    settlements (log (runGame randInt deleted users replies).1)
    = replicate (bustHands (runGame randInt deleted users replies).1) LOSE ++ final
    /\ ((runGame randInt deleted users replies).2 = Returned ->
        exists r, final = [r])
    /\ ((runGame randInt deleted users replies).2 <> Returned -> final = []).
Proof.
  apply (runGame_outcome randInt deleted users
           (fun g p h => awaitedOk g p h /\ bustLines g)
           (fun g o => exists final,
                settlements (log g) = replicate (bustHands g) LOSE ++ final
                /\ (o = Returned -> exists r, final = [r])
                /\ (o <> Returned -> final = []))).
  - intros m g p h g' [Hok Hj] Hm.
    split; [exact (awaitedOk_Continue randInt deleted m g p h g' Hok Hm)|].
    exact (bustLines_playMove randInt deleted m g p h g' _ Hok Hj Hm).
  - intros m g p h g1 g' p' h' [Hok Hj] Hm Hn.
    split; [exact (awaitedOk_BreakHand randInt deleted m g p h g1 g' p' h' Hok Hm Hn)|].
    pose proof (bustLines_nextHand deleted g1 p (S h)
                  (bustLines_playMove randInt deleted m g p h g1 _ Hok Hj Hm)) as H.
    rewrite Hn in H. exact H.
  - intros g p h [_ Hj]. exists []. rewrite app_nil_r.
    split; [exact Hj | split; [discriminate | reflexivity]].
  - intros g p h [_ Hj]. exists []. rewrite app_nil_r.
    split; [|split; [discriminate | reflexivity]].
    unfold bustLines in Hj. simpl.
    destruct (prompt g); [|exact Hj]. cbn [log]. unfold bustHands. cbn [players].
    rewrite settlements_snoc. cbn. rewrite app_nil_r. exact Hj.
  - intros m g p h g' [(Hok & player & hand & Hp & Hh & _) _] Hm. exfalso.
    apply (playMove_no_throw randInt deleted m g p h g' Hok); [|exact Hm].
    apply handCount_getHand. unfold Blackjack.getHand. rewrite Hp. cbn.
    rewrite Hh. eexists. reflexivity.
  - intros m g p h g1 g2 [Hok Hj] Hm Hn.
    apply bustLines_dealerTurn.
    pose proof (bustLines_nextHand deleted g1 p (S h)
                  (bustLines_playMove randInt deleted m g p h g1 _ Hok Hj Hm)) as H.
    rewrite Hn in H. exact H.
  - intros g p h He. split.
    + apply (enterPlayer_awaitedOk deleted _ _ _ _ _ _ (deal_tableOk randInt users)) in He;
        [exact He|].
      destruct (deal_shape randInt users) as (c0 & c1 & _ & ->).
      apply dealPlayers_twoCards.
    + pose proof (bustLines_enterPlayer deleted (length (players (deal randInt users)))
                    (deal randInt users) 0 (bustLines_deal randInt users)) as H.
      rewrite He in H. exact H.
  - intros g He. apply bustLines_dealerTurn.
    pose proof (bustLines_enterPlayer deleted (length (players (deal randInt users)))
                  (deal randInt users) 0 (bustLines_deal randInt users)) as H.
    rewrite He in H. exact H.
  - intros _. pose proof (bustLines_deal randInt users) as Hj.
    pose proof (dealerBlackjack_settlements deleted (deal randInt users)) as Hd.
    pose proof (dealerBlackjack_players deleted (deal randInt users)) as Hp.
    unfold bustHands. rewrite Hp. fold (bustHands (deal randInt users)).
    unfold bustLines in Hj.
    destruct (dealerBlackjack deleted (deal randInt users)) as [g' o].
    specialize (Hd g' o eq_refl). cbn [fst snd] in *. rewrite <- Hj.
    destruct o; try (exists []; rewrite app_nil_r;
                     split; [exact Hd | split; [discriminate | reflexivity]]).
    destruct Hd as [r Hr]. exists [r].
    split; [exact Hr | split; [eauto | congruence]].
Qed.

(** ** Split and surrender *)

Lemma new_single_status (c : Card) : status (Hand.new [c]) = Status.WAIT.
Proof. destruct c as [s r d]. destruct r; reflexivity. Qed.

(** X16.  A split that is carried out replaces the hand by two hands of
    two cards each, in its place in the list of the participant: the first
    keeps the first card and the status of the hand, the second takes the
    second card with the status WAIT; each gets one card more, the next
    two of the shoe in this order, and its sum is computed from its two
    cards.  Nothing else on the table changes. *)
Theorem split_makes_two_hands randInt (deleted : nat -> bool) g p h player hand c0 c1 :
  players g !! p = Some player ->
  hands player !! h = Some hand ->
  cards hand = [c0; c1] ->
  Card.value c0 = Card.value c1 ->
  handSum hand = HandSum.fromCards (cards hand) ->
  let card1 := Card.fromId (randInt (drawn g)) false in
  let card2 := Card.fromId (randInt (S (drawn g))) false in
  let first := mkHand [c0; card1] (HandSum.fromCards [c0; card1]) (status hand) in
  let second := mkHand [c1; card2] (HandSum.fromCards [c1; card2]) Status.WAIT in
  exists g',
    playMove randInt deleted SPLIT g p h = (g', Continue)
    /\ players g'
       = <[p := mkPlayer (take h (hands player) ++ first :: second
                            :: drop (S h) (hands player)) (user player)]> (players g)
    /\ dealer g' = dealer g
    /\ drawn g' = S (S (drawn g))
    /\ prompt g' = Some (SplitDraw card1 card2).
Proof.
  intros Hp Hh Hc Hv Hwf card1 card2 first second.
  assert (Hget : Blackjack.getHand g p h = Some hand).
  { unfold Blackjack.getHand. rewrite Hp. exact Hh. }
  assert (Hsum : sum (handSum hand) <> PERFECT).
  { rewrite Hwf, Hc. apply equal_pair_not_perfect. exact Hv. }
  unfold playMove. rewrite Hget.
  rewrite bool_decide_eq_false_2 by exact Hsum. cbn [andb].
  rewrite Hc. cbn [length lookup list_lookup].
  rewrite bool_decide_eq_false_2 by lia.
  rewrite bool_decide_eq_false_2 by (intros Hne; apply Hne; exact Hv).
  unfold draw, fromRandom. cbv zeta.
  unfold Blackjack.updHand, Blackjack.spliceHand, Blackjack.setPlayers,
    Blackjack.setDrawn.
  cbn [players drawn dealer prompt log]. fold card1 card2.
  eexists. split; [reflexivity|].
  rewrite display_players, display_dealer, display_drawn, display_prompt.
  split; [|split; [reflexivity | split; reflexivity]].
  cbn [players]. rewrite !list_alter_alter_eq.
  rewrite (alter_lookup_insert _ _ _ _ Hp). unfold compose. cbn [hands user].
  f_equal. f_equal.
  rewrite (split_replace (hands player) h hand c0 c1 _ _ Hh Hc).
  unfold replaceHand, Hand.hit, first, second. cbn [cards handSum status app].
  rewrite new_single_status.
  change (handSum (Hand.new [c1])) with (HandSum.fromCards [c1]).
  rewrite !hit_fromCards. reflexivity.
Qed.

(** X16 on a participant holding 10 and queen who draws 3 and 4. *)
Lemma split_makes_two_hands_witness :
  let card1 := mkCard CLUBS _3 false in
  let card2 := mkCard CLUBS _4 false in
  let c0 := mkCard CLUBS _10 false in
  let c1 := mkCard DIAMONDS QUEEN false in
  exists g',
    playMove (replay [9; 24; 9; 46; 2; 3]%nat) neverDeleted SPLIT (tableOf tenQueen) 0 0
    = (g', Continue)
    /\ players g'
       = [mkPlayer [mkHand [c0; card1] (HandSum.fromCards [c0; card1]) Status.CURRENT;
                    mkHand [c1; card2] (HandSum.fromCards [c1; card2]) Status.WAIT]
                   alice]
    /\ dealer g' = dealer (tableOf tenQueen)
    /\ drawn g' = 6%nat
    /\ prompt g' = Some (SplitDraw card1 card2).
Proof.
  intros card1 card2 c0 c1.
  apply (split_makes_two_hands (replay [9; 24; 9; 46; 2; 3]%nat) neverDeleted (tableOf tenQueen)
           0 0 (mkPlayer [tenQueen] alice) tenQueen c0 c1); reflexivity.
Defined.

(** X17.  SURRENDER is carried out exactly on a hand of two cards whose
    total is not 21: the hand gets the status SURRENDER, no card is drawn
    and its turn ends.  On any other hand in play it is refused: only the
    prompt changes and the turn of the hand goes on. *)
Theorem surrender_only_on_first_turn randInt (deleted : nat -> bool) g p h hand :
  Blackjack.getHand g p h = Some hand ->
  (2 <= length (cards hand))%nat ->
  (twoCards hand /\ sum (handSum hand) <> PERFECT ->
   playMove randInt deleted SURRENDER g p h
   = (Blackjack.display deleted Surrendered
        (Blackjack.updHand p h (Hand.setStatus Status.SURRENDER) g), BreakHand)
   /\ Blackjack.getHand
        (Blackjack.updHand p h (Hand.setStatus Status.SURRENDER) g) p h
      = Some (Hand.setStatus Status.SURRENDER hand))
  /\ (~ (twoCards hand /\ sum (handSum hand) <> PERFECT) ->
      exists d,
        playMove randInt deleted SURRENDER g p h
        = (Blackjack.display deleted d g, Continue)).
Proof.
  intros Hget Hlen. unfold playMove, twoCards. rewrite Hget. split.
  - intros [Ht Hs]. rewrite bool_decide_eq_false_2 by exact Hs. cbn [andb].
    rewrite bool_decide_eq_false_2 by lia.
    split; [reflexivity | apply getHand_updHand; exact Hget].
  - intros Hn. case_bool_decide as Hs; cbn [andb].
    + rewrite bool_decide_eq_true_2 by discriminate. eauto.
    + case_bool_decide as Hl; [eauto|]. exfalso. apply Hn. split; [lia | exact Hs].
Qed.

(** X17 on a participant holding 10 and 9. *)
Lemma surrender_only_on_first_turn_witness :
  playMove (replay []) neverDeleted SURRENDER (tableOf tenNine) 0 0
  = (Blackjack.display neverDeleted Surrendered
       (Blackjack.updHand 0 0 (Hand.setStatus Status.SURRENDER) (tableOf tenNine)),
     BreakHand).
Proof.
  destruct (surrender_only_on_first_turn (replay []) neverDeleted (tableOf tenNine) 0 0 tenNine)
    as [Hyes _]; [reflexivity | simpl; lia |].
  apply Hyes. split; [reflexivity | vm_compute; discriminate].
Defined.

(** ** The command: who is playing where *)

Lemma existsb_elem_of (X : gset User) (l : list User) :
  existsb (fun id => bool_decide (id ∈ X)) l = true <-> exists id, id ∈ l /\ id ∈ X.
Proof.
  rewrite existsb_exists. split.
  - intros (id & Hin & Hd). exists id. apply bool_decide_eq_true in Hd.
    split; [apply list_elem_of_In; exact Hin | exact Hd].
  - intros (id & Hin & Hd). exists id.
    split; [apply list_elem_of_In; exact Hin | apply bool_decide_eq_true; exact Hd].
Qed.

Lemma register_conflict channels message :
  let current := playingIn channels (channelId message) in
  (exists id, id ∈ playerUsers message /\ id ∈ current) ->
  register channels message
  = inl (mkBotError
           (filter (fun id => id ∈ current) (playerUsers message))
           (if bool_decide (head (filter (fun id => id ∈ current) (playerUsers message))
                            ≠ Some (author message))
               && bool_decide (length (filter (fun id => id ∈ current)
                                              (playerUsers message)) = 1%nat)
            then IS else ARE)).
Proof.
  cbv zeta. unfold register, playingIn. intros Hex.
  rewrite (proj2 (existsb_elem_of _ _) Hex).
  destruct Hex as (id & _ & Hid).
  rewrite bool_decide_eq_true_2; [reflexivity|].
  destruct (decide (size (default ∅ (channels !! channelId message)) = 0%nat))
    as [H0|H0]; [|lia].
  apply size_empty_iff in H0. set_solver.
Qed.

Lemma register_free channels message :
  let current := playingIn channels (channelId message) in
  (forall id, id ∈ playerUsers message -> id ∉ current) ->
  register channels message
  = inr (<[channelId message := current ∪ list_to_set (playerUsers message)]> channels).
Proof.
  cbv zeta. unfold register, playingIn. intros Hfree.
  destruct (existsb _ _) eqn:He; [|rewrite andb_false_r; reflexivity].
  apply existsb_elem_of in He as (id & Hin & Hid). exfalso.
  exact (Hfree id Hin Hid).
Qed.

(** X18.  A command is accepted exactly when none of its players (the
    author and the users mentioned) is already playing in its channel;
    the players are then added to those playing in that channel and no
    other channel changes.  Otherwise it is rejected with the players
    already playing there, in the order of the message, and nothing is
    registered. *)
Theorem register_accepts_free_players channels message :
  let current := playingIn channels (channelId message) in
  ((forall id, id ∈ playerUsers message -> id ∉ current) ->
   exists channels',
     register channels message = inr channels'
     /\ playingIn channels' (channelId message)
        = current ∪ list_to_set (playerUsers message)
     /\ forall channel, channel <> channelId message ->
          channels' !! channel = channels !! channel)
  /\ ((exists id, id ∈ playerUsers message /\ id ∈ current) ->
      exists e,
        register channels message = inl e
        /\ conflictIds e = filter (fun id => id ∈ current) (playerUsers message)
        /\ conflictIds e <> []).
Proof.
  cbv zeta. split.
  - intros Hfree. eexists. split; [apply register_free; exact Hfree|].
    unfold playingIn at 1. rewrite lookup_insert_eq. split; [reflexivity|].
    intros channel Hne. apply lookup_insert_ne. congruence.
  - intros Hex. eexists. split; [apply register_conflict; exact Hex|].
    cbn [conflictIds]. split; [reflexivity|].
    destruct Hex as (id & Hin & Hid). intros Hnil.
    assert (Hf : id ∈ filter (fun id => id ∈ playingIn channels (channelId message))
                        (playerUsers message)).
    { apply list_elem_of_filter. split; assumption. }
    rewrite Hnil in Hf. inversion Hf.
Qed.

(** X18 with alice playing in channel 1 and bob asking to play with
    her. *)
Lemma register_accepts_free_players_witness :
  exists e,
    register {[ 1%nat := {[ alice ]} ]} (mkMessage 1 bob [alice]) = inl e
    /\ conflictIds e
       = filter (fun id => id ∈ playingIn {[ 1%nat := {[ alice ]} ]} 1)
                (playerUsers (mkMessage 1 bob [alice]))
    /\ conflictIds e <> [].
Proof.
  apply (proj2 (register_accepts_free_players
                  {[ 1%nat := {[ alice ]} ]} (mkMessage 1 bob [alice]))).
  exists alice. split; [set_solver|].
  unfold playingIn. cbn [channelId]. rewrite lookup_singleton_eq. set_solver.
Defined.

Lemma release_registered channels message :
  let current := playingIn channels (channelId message) in
  (forall id, id ∈ playerUsers message -> id ∉ current) ->
  NoDup (playerUsers message) ->
  exists channels2,
    release (<[channelId message := current ∪ list_to_set (playerUsers message)]>
               channels) message = Some channels2
    /\ forall channel, playingIn channels2 channel = playingIn channels channel.
Proof.
  cbv zeta. intros Hfree Hnd. unfold release. rewrite lookup_insert_eq.
  set (current := playingIn channels (channelId message)) in *.
  assert (Hdisj : current ## list_to_set (playerUsers message)) by set_solver.
  assert (Hsize : size (current ∪ list_to_set (playerUsers message))
                  = (size current + length (playerUsers message))%nat).
  { rewrite size_union by exact Hdisj. rewrite size_list_to_set by exact Hnd.
    reflexivity. }
  case_bool_decide as Hl.
  - assert (H0 : current = ∅).
    { apply leibniz_equiv. apply size_empty_iff. lia. }
    eexists. split; [reflexivity|]. intros channel. unfold playingIn.
    destruct (decide (channel = channelId message)) as [->|Hne].
    + rewrite lookup_delete_eq. cbn [default]. symmetry. exact H0.
    + rewrite lookup_delete_ne by congruence. rewrite lookup_insert_ne by congruence.
      reflexivity.
  - eexists. split; [reflexivity|]. intros channel. unfold playingIn.
    destruct (decide (channel = channelId message)) as [->|Hne].
    + rewrite lookup_insert_eq. cbn [default].
      change (default ∅ (channels !! channelId message)) with current.
      apply leibniz_equiv. set_solver.
    + rewrite !lookup_insert_ne by congruence. reflexivity.
Qed.

Lemma register_cases channels message :
  let current := playingIn channels (channelId message) in
  (exists e, register channels message = inl e /\ conflictIds e <> [])
  \/ (register channels message
      = inr (<[channelId message := current ∪ list_to_set (playerUsers message)]>
               channels)
      /\ forall id, id ∈ playerUsers message -> id ∉ current).
Proof.
  cbv zeta.
  destruct (existsb (fun id => bool_decide
                       (id ∈ playingIn channels (channelId message)))
                    (playerUsers message)) eqn:He.
  - left. apply existsb_elem_of in He.
    rewrite (register_conflict channels message He). eexists.
    split; [reflexivity|]. cbn [conflictIds].
    destruct He as (id & Hin & Hid). intros Hnil.
    assert (Hf : id ∈ filter (fun id => id ∈ playingIn channels (channelId message))
                             (playerUsers message))
      by (apply list_elem_of_filter; split; assumption).
    rewrite Hnil in Hf. inversion Hf.
  - right.
    assert (Hfree : forall id, id ∈ playerUsers message ->
                               id ∉ playingIn channels (channelId message)).
    { intros id Hin Hid.
      assert (Ht : existsb (fun id => bool_decide
                              (id ∈ playingIn channels (channelId message)))
                           (playerUsers message) = true)
        by (apply existsb_elem_of; exists id; split; assumption).
      congruence. }
    split; [exact (register_free channels message Hfree) | exact Hfree].
Qed.

(** What a part of another command does to the entry of a channel. *)
Lemma call_other channels (c : Call) (channel : nat) :
  match c with Begin m | Resume m => channelId m <> channel end ->
  call channels c !! channel = channels !! channel.
Proof.
  destruct c as [m|m]; cbn [call]; intros Hne.
  - destruct (register_cases channels m) as [(e & -> & _)|[-> _]];
      [reflexivity | apply lookup_insert_ne; exact Hne].
  - unfold release. destruct (channels !! channelId m); [|reflexivity].
    case_bool_decide; [apply lookup_delete_ne | apply lookup_insert_ne]; exact Hne.
Qed.

Lemma call_keeps channels (c : Call) (channel : nat) :
  keeps channel c ->
  playingIn channels channel ⊆ playingIn (call channels c) channel
  /\ (is_Some (channels !! channel) -> is_Some (call channels c !! channel)).
Proof.
  intros Hk.
  destruct (decide (match c with Begin m | Resume m => channelId m end = channel))
    as [He|Hne].
  - destruct c as [m|m]; [|contradiction]. subst channel. cbn [call].
    destruct (register_cases channels m) as [(e & -> & _)|[-> _]];
      [split; [reflexivity | auto]|].
    unfold playingIn. rewrite lookup_insert_eq. cbn [default].
    split; [set_solver | intros _; eexists; reflexivity].
  - unfold playingIn. rewrite (call_other channels c channel);
      [split; [reflexivity | auto]|].
    destruct c; exact Hne.
Qed.

Lemma calls_keeps (cs : list Call) (channel : nat) :
  forall channels,
    Forall (keeps channel) cs ->
    playingIn channels channel ⊆ playingIn (calls channels cs) channel
    /\ (is_Some (channels !! channel) -> is_Some (calls channels cs !! channel)).
Proof.
  induction cs as [|c cs IH]; intros channels Hall; [split; [reflexivity | auto]|].
  apply Forall_cons in Hall as [Hc Hall]. cbn [calls fold_left].
  destruct (call_keeps channels c channel Hc) as [H1 H2].
  destruct (IH (call channels c) Hall) as [H3 H4].
  split; [etransitivity; [exact H1 | exact H3] | auto].
Qed.

(** X19.  A command whose round returns, no part of another command
    having run while it was awaited, leaves every channel with the
    players it had before: its own players, provided no user is listed
    twice among them, have left the channel and nobody else has. *)
Theorem finished_round_frees_its_players randInt (deleted : nat -> bool)
    channels message replies channels' g :
  NoDup (playerUsers message) ->
  execute randInt deleted channels message replies [] = (channels', Finished g) ->
  forall channel, playingIn channels' channel = playingIn channels channel.
Proof.
  intros Hnd. unfold execute. cbn [calls fold_left].
  destruct (register channels message) as [e|channels1] eqn:Hreg; [discriminate|].
  assert (Hfree : forall id, id ∈ playerUsers message ->
                             id ∉ playingIn channels (channelId message)).
  { intros id Hin Hid.
    rewrite (register_conflict channels message) in Hreg; [discriminate|].
    exists id. split; assumption. }
  rewrite (register_free channels message Hfree) in Hreg.
  assert (Heq : channels1
                = <[channelId message := playingIn channels (channelId message)
                                         ∪ list_to_set (playerUsers message)]> channels)
    by congruence.
  clear Hreg. subst channels1.
  destruct (release_registered channels message Hfree Hnd) as (channels2 & Hrel & Hsame).
  destruct (runGame randInt deleted (playerUsers message) replies) as [g' o].
  destruct o; try discriminate. rewrite Hrel. intros [= <- _]. exact Hsame.
Qed.

(** X20.  A command whose round has not returned (it awaits a move or
    was abandoned for inactivity) keeps its players registered for as
    long as no round returns in its channel: whatever commands begin
    meanwhile, in any channel, and whatever rounds return in other
    channels, a later command in the same channel that lists one of its
    players is rejected. *)
Theorem unfinished_round_keeps_its_players
    randInt (deleted : nat -> bool) channels message replies meanwhile
    channels' g o message' :
  execute randInt deleted channels message replies meanwhile
  = (channels', Pending g o) ->
  Forall (keeps (channelId message)) meanwhile ->
  channelId message' = channelId message ->
  (exists id, id ∈ playerUsers message /\ id ∈ playerUsers message') ->
  exists e, register channels' message' = inl e /\ conflictIds e <> [].
Proof.
  unfold execute. cbv zeta.
  destruct (register_cases channels message) as [(e & -> & _)|[-> _]];
    [discriminate|].
  set (channels1 := <[channelId message := _]> channels).
  intros Hex Hkeep Hch (id & Hid & Hid').
  assert (Hc : channels' = calls channels1 meanwhile).
  { destruct (runGame randInt deleted (playerUsers message) replies) as [g' o'].
    destruct o'; [destruct (release _ message)|..]; congruence. }
  subst channels'.
  assert (Hin : id ∈ playingIn (calls channels1 meanwhile) (channelId message)).
  { apply (proj1 (calls_keeps meanwhile (channelId message) channels1 Hkeep)).
    unfold channels1, playingIn. rewrite lookup_insert_eq. cbn [default].
    set_solver. }
  destruct (register_cases (calls channels1 meanwhile) message')
    as [Hrej|[_ Hfree]]; [exact Hrej|].
  exfalso. apply (Hfree id Hid'). rewrite Hch. exact Hin.
Qed.

(** X19 on alice and bob playing [roundTwoStand] in channel 1. *)
Lemma finished_round_frees_its_players_witness :
  NoDup (playerUsers (mkMessage 1 alice [bob]))
  /\ forall channel,
       playingIn (execute (replay [9; 9; 9; 6; 9; 7]%nat) neverDeleted ∅
                          (mkMessage 1 alice [bob])
                          [Collected STAND; Collected STAND] []).1 channel
       = playingIn ∅ channel.
Proof.
  assert (Hnd : NoDup (playerUsers (mkMessage 1 alice [bob]))).
  { unfold playerUsers, alice, bob. cbn [author mentions].
    repeat constructor; set_solver. }
  split; [exact Hnd|].
  apply (finished_round_frees_its_players (replay [9; 9; 9; 6; 9; 7]%nat) neverDeleted ∅
           (mkMessage 1 alice [bob]) [Collected STAND; Collected STAND] _
           roundTwoStand.1).
  - exact Hnd.
  - vm_compute. reflexivity.
Defined.

(** X20 on alice, who split and left, asking for a new game in the same
    channel after bob began a round there and carol finished one in
    another channel. *)
Lemma unfinished_round_keeps_its_players_witness :
  exists e,
    register (execute (replay [7; 7; 9; 7; 2; 3]%nat) neverDeleted ∅
                      (mkMessage 1 alice []) [Collected SPLIT; Expired]
                      [Begin (mkMessage 1 bob []); Begin (mkMessage 2 9%nat []);
                       Resume (mkMessage 2 9%nat [])]).1
             (mkMessage 1 alice []) = inl e
    /\ conflictIds e <> [].
Proof.
  apply (unfinished_round_keeps_its_players (replay [7; 7; 9; 7; 2; 3]%nat)
           neverDeleted ∅ (mkMessage 1 alice []) [Collected SPLIT; Expired]
           [Begin (mkMessage 1 bob []); Begin (mkMessage 2 9%nat []);
            Resume (mkMessage 2 9%nat [])] _
           (splitThenLeave []).1 Abandoned (mkMessage 1 alice [])).
  - vm_compute. reflexivity.
  - repeat constructor. cbn. lia.
  - reflexivity.
  - exists alice. split; set_solver.
Defined.

(** ** Reading the move of a participant *)

Lemma keep_None normalize user m :
  keep normalize user m = None -> ignored normalize user m.
Proof.
  unfold keep, ignored. destruct (decide (sender m ≠ user)) as [Hne|_];
    [left; exact Hne|].
  destruct (decide (getMove (normalize (content m)) = INVALID)) as [Hi|_];
    [right; exact Hi | discriminate].
Qed.

Lemma keep_Some normalize user m move :
  keep normalize user m = Some move ->
  sender m = user /\ getMove (normalize (content m)) = move /\ move <> INVALID.
Proof.
  unfold keep. destruct (decide (sender m ≠ user)) as [|He]; [discriminate|].
  destruct (decide (getMove (normalize (content m)) = INVALID)) as [|Hv];
    [discriminate|].
  intros [= <-]. split; [|split; [reflexivity | exact Hv]].
  destruct (decide (sender m = user)); [assumption | contradiction].
Qed.

(** X21.  The collector of [Player.move] resolves with the move of the
    first message that is from the participant and whose normalised text
    reads as a move; the messages before it, from other users or with
    another text, are passed over, and the move is never INVALID.  When
    no message qualifies the collector runs out of time. *)
Theorem collector_takes_first_move normalize user (incoming : list Incoming) :
  match collect normalize user incoming with
  | Collected move =>
      move <> INVALID
      /\ exists pre m post,
          incoming = pre ++ m :: post
          /\ Forall (ignored normalize user) pre
          /\ sender m = user
          /\ getMove (normalize (content m)) = move
  | Expired => Forall (ignored normalize user) incoming
  end.
Proof.
  induction incoming as [|m incoming IH]; simpl; [constructor|].
  destruct (keep normalize user m) as [move|] eqn:Hk.
  - destruct (keep_Some _ _ _ _ Hk) as (Hs & Hm & Hv).
    split; [exact Hv|]. exists [], m, incoming. repeat split; auto.
  - apply keep_None in Hk.
    destruct (collect normalize user incoming) as [move|].
    + destruct IH as (Hv & pre & m' & post & -> & Hpre & Hs & Hm).
      split; [exact Hv|]. exists (m :: pre), m', post.
      repeat split; auto.
    + constructor; assumption.
Qed.

(** ** The card of the dealer that lies face down *)

Lemma display_setDealer (deleted : nat -> bool) d x g :
  Blackjack.display deleted x (Blackjack.setDealer d g)
  = Blackjack.setDealer d (Blackjack.display deleted x g).
Proof.
  unfold Blackjack.display, Blackjack.setDealer. simpl.
  destruct (prompt g); [destruct (deleted _)|]; reflexivity.
Qed.

Lemma move_setDealer d reply g :
  move reply (Blackjack.setDealer d g)
  = (Blackjack.setDealer d (move reply g).1, (move reply g).2).
Proof. destruct reply; simpl; [reflexivity|]. destruct (prompt g); reflexivity. Qed.

Lemma move_drawn reply g : drawn (move reply g).1 = drawn g.
Proof. destruct reply; simpl; [reflexivity|]. destruct (prompt g); reflexivity. Qed.

Lemma move_dealer reply g : dealer (move reply g).1 = dealer g.
Proof. destruct reply; simpl; [reflexivity|]. destruct (prompt g); reflexivity. Qed.

Lemma playMove_setDealer randInt (deleted : nat -> bool) d m g p h :
  playMove randInt deleted m (Blackjack.setDealer d g) p h
  = (Blackjack.setDealer d (playMove randInt deleted m g p h).1,
     (playMove randInt deleted m g p h).2).
Proof.
  destruct g as [ps dl pr k lg].
  unfold playMove, draw, fromRandom, Blackjack.getHand.
  cbn [players drawn Blackjack.setDealer].
  destruct (ps !! p ≫= _) as [hand|]; [|reflexivity].
  destruct (_ && _);
    [unfold Blackjack.display; cbn [prompt log];
     destruct pr; [destruct (deleted _)|]; reflexivity|].
  destruct m; cbv zeta; repeat case_match; try reflexivity;
    unfold Blackjack.display, Blackjack.updHand, Blackjack.spliceHand,
      Blackjack.setPlayers, Blackjack.setDrawn;
    cbn [prompt log players dealer drawn];
    destruct pr; try destruct (deleted _); reflexivity.
Qed.

Lemma playMove_ext randInt (deleted : nat -> bool) randInt' m g p h :
  randInt (drawn g) = randInt' (drawn g) ->
  randInt (S (drawn g)) = randInt' (S (drawn g)) ->
  playMove randInt deleted m g p h = playMove randInt' deleted m g p h.
Proof.
  intros H0 H1. unfold playMove, draw, fromRandom.
  destruct (Blackjack.getHand g p h) as [hand|]; [|reflexivity].
  destruct (_ && _); [reflexivity|].
  destruct m; cbv zeta; cbn [drawn Blackjack.updHand Blackjack.setPlayers
                              Blackjack.setDrawn Blackjack.spliceHand];
    rewrite ?H0, ?H1; reflexivity.
Qed.

Lemma playMove_drawn randInt (deleted : nat -> bool) m g p h :
  (drawn g <= drawn (playMove randInt deleted m g p h).1)%nat.
Proof.
  unfold playMove, draw, fromRandom.
  destruct (Blackjack.getHand g p h) as [hand|]; [|reflexivity].
  destruct (_ && _); [cbn [fst]; rewrite display_drawn; reflexivity|].
  destruct m; cbv zeta; repeat case_match; cbn [fst];
    rewrite ?display_drawn; cbn; lia.
Qed.

Lemma beginHand_setDealer d g p h :
  beginHand (Blackjack.setDealer d g) p h
  = Blackjack.setDealer d (beginHand g p h).
Proof. reflexivity. Qed.

Lemma enterPlayer_setDealer (deleted : nat -> bool) d (n : nat) :
  forall g p,
    enterPlayer deleted n (Blackjack.setDealer d g) p
    = (Blackjack.setDealer d (enterPlayer deleted n g p).1, (enterPlayer deleted n g p).2).
Proof.
  induction n as [|n IH]; intros g p; simpl; [reflexivity|].
  destruct (players g !! p) as [player|]; [|reflexivity].
  destruct (hands player !! 0%nat).
  - rewrite display_setDealer. reflexivity.
  - rewrite display_setDealer. apply IH.
Qed.

Lemma nextHand_setDealer (deleted : nat -> bool) d g p h :
  nextHand deleted (Blackjack.setDealer d g) p h
  = (Blackjack.setDealer d (nextHand deleted g p h).1, (nextHand deleted g p h).2).
Proof.
  unfold nextHand.
  change (Blackjack.getHand (Blackjack.setDealer d g) p h)
    with (Blackjack.getHand g p h).
  destruct (Blackjack.getHand g p h); [reflexivity|].
  apply enterPlayer_setDealer.
Qed.

Lemma move_players reply g : players (move reply g).1 = players g.
Proof. destruct reply; simpl; [reflexivity|]. destruct (prompt g); reflexivity. Qed.

Lemma playMove_seats randInt (deleted : nat -> bool) m g p h :
  length (players (playMove randInt deleted m g p h).1) = length (players g).
Proof.
  unfold playMove, draw, fromRandom.
  destruct (Blackjack.getHand g p h) as [hand|]; [|reflexivity].
  destruct (_ && _); [cbn [fst]; rewrite display_players; reflexivity|].
  destruct m; cbv zeta; repeat case_match; cbn [fst];
    rewrite ?display_players;
    unfold Blackjack.updHand, Blackjack.spliceHand, Blackjack.setPlayers,
      Blackjack.setDrawn;
    cbn [players]; rewrite ?length_alter; reflexivity.
Qed.

Lemma nextHand_seats (deleted : nat -> bool) g p h :
  length (players (nextHand deleted g p h).1) = length (players g).
Proof.
  destruct (nextHand deleted g p h) as [g' o] eqn:Hn.
  destruct (nextHand_frame deleted _ _ _ _ _ Hn) as (_ & _ & _ & Hm).
  apply (f_equal length) in Hm. rewrite !length_map in Hm. exact Hm.
Qed.

Lemma enterPlayer_seats (deleted : nat -> bool) (n : nat) g p :
  length (players (enterPlayer deleted n g p).1) = length (players g).
Proof.
  destruct (enterPlayer deleted n g p) as [g' o] eqn:Hn.
  destruct (enterPlayer_frame deleted _ _ _ _ _ Hn) as (_ & _ & _ & Hm).
  apply (f_equal length) in Hm. rewrite !length_map in Hm. exact Hm.
Qed.

(** The turns of the participants run the same way, whatever the dealer
    holds and whatever the shoe held before the cards still to draw; they
    leave the dealer and the number of participants as they are. *)
Lemma playersLoop_setDealer randInt (deleted : nat -> bool) randInt' d (replies : list Reply) :
  forall g p h,
    (forall k, (drawn g <= k)%nat -> randInt k = randInt' k) ->
    playing (playersLoop randInt deleted replies g p h).2 ->
    playersLoop randInt' deleted replies (Blackjack.setDealer d g) p h
    = (Blackjack.setDealer d (playersLoop randInt deleted replies g p h).1,
       (playersLoop randInt deleted replies g p h).2)
    /\ dealer (playersLoop randInt deleted replies g p h).1 = dealer g
    /\ length (players (playersLoop randInt deleted replies g p h).1)
       = length (players g).
Proof.
  induction replies as [|reply replies IH]; intros g p h Hext; simpl;
    [split; [|split]; reflexivity|].
  rewrite move_setDealer.
  pose proof (move_drawn reply g) as Hk.
  pose proof (move_dealer reply g) as Hd.
  pose proof (move_players reply g) as Hs.
  destruct (move reply g) as [g1 [m|]]; cbn [fst snd] in *;
    [|intros _; split; [reflexivity | split; [exact Hd | congruence]]].
  rewrite <- (playMove_ext randInt deleted randInt')
    by (cbn [drawn Blackjack.setDealer]; apply Hext; lia).
  rewrite playMove_setDealer.
  pose proof (playMove_drawn randInt deleted m g1 p h) as Hk1.
  pose proof (playMove_dealer randInt deleted m g1 p h) as Hd1.
  pose proof (playMove_seats randInt deleted m g1 p h) as Hs1.
  destruct (playMove randInt deleted m g1 p h) as [g2 f]; cbn [fst snd] in *.
  specialize (Hd1 _ _ eq_refl).
  destruct f.
  - intros Hp. destruct (IH g2 p h) as (-> & -> & ->);
      [intros k Hle; apply Hext; lia | exact Hp |].
    split; [reflexivity | split; congruence].
  - rewrite nextHand_setDealer.
    pose proof (nextHand_frame deleted g2 p (S h)) as Hn.
    pose proof (nextHand_seats deleted g2 p (S h)) as Hs2.
    destruct (nextHand deleted g2 p (S h)) as [g3 [[p' h']|]]; cbn [fst snd] in *.
    + destruct (Hn _ _ eq_refl) as (Hd3 & Hk3 & _).
      intros Hp. destruct (IH g3 p' h') as (-> & -> & ->);
        [intros k Hle; apply Hext; lia | exact Hp |].
      split; [reflexivity | split; congruence].
    + intros [Ha|(p' & h' & Ha)]; exfalso.
      * eapply dealerTurn_not_abandoned. apply injective_projections;
          [reflexivity | exact Ha].
      * eapply dealerTurn_not_awaiting. apply injective_projections;
          [reflexivity | exact Ha].
  - intros [Ha|(p' & h' & Ha)]; discriminate.
Qed.

Lemma dealPlayers_ext randInt randInt' (users : list User) :
  forall k,
    (forall i, (k <= i < k + 2 * length users)%nat -> randInt i = randInt' i) ->
    dealPlayers randInt users k = dealPlayers randInt' users k
    /\ (dealPlayers randInt users k).2 = (k + 2 * length users)%nat.
Proof.
  induction users as [|user users IH]; intros k Hext; simpl;
    [split; [reflexivity | lia]|].
  unfold fromRandom.
  destruct (IH (S (S k))) as [E Ek];
    [intros i Hi; apply Hext; simpl; lia|].
  rewrite <- E. rewrite !Hext by (simpl; lia).
  destruct (dealPlayers randInt users (S (S k))) as [ps k'].
  simpl in *. split; [reflexivity | lia].
Qed.

(** The deal, written out: the card that lies face down is the draw
    number [2 * length users + 1]. *)
Lemma deal_hole randInt (users : list User) :
  deal randInt users
  = mkBlackjack (dealPlayers randInt users 0).1
      (Dealer.new [Card.fromId (randInt (2 * length users)%nat) false;
                   Card.fromId (randInt (S (2 * length users))) true])
      None (S (S (2 * length users))) [].
Proof.
  unfold deal. destruct (dealPlayers_ext randInt randInt users 0) as [_ Ek];
    [reflexivity|].
  destruct (dealPlayers randInt users 0) as [ps k]. simpl in Ek. subst k.
  reflexivity.
Qed.

Lemma deal_setDealer randInt randInt' (users : list User) :
  (forall k, k <> S (2 * length users) -> randInt k = randInt' k) ->
  deal randInt' users
  = Blackjack.setDealer (dealer (deal randInt' users)) (deal randInt users).
Proof.
  intros Hext. rewrite !deal_hole.
  destruct (dealPlayers_ext randInt randInt' users 0) as [-> _];
    [intros i Hi; apply Hext; lia|].
  reflexivity.
Qed.

(** What is shown of a dealer whose second card lies face down. *)
Lemma Dealer_toString_hidden range_2_11 (c0 c1 c1' : Card) :
  down c1 = true -> down c1' = true ->
  Dealer_toString range_2_11 (Dealer.new [c0; c1])
  = Dealer_toString range_2_11 (Dealer.new [c0; c1']).
Proof.
  intros H1 H1'. unfold Dealer_toString, Dealer.new. cbn [hidden super].
  unfold Hand.new. cbn [cards lookup list_lookup].
  unfold getCardsAsString. cbn [cards map]. unfold Card_toString at 2 4.
  rewrite H1, H1'. reflexivity.
Qed.

Lemma pair_status (c0 c1 : Card) :
  sum (handSum (Hand.new [c0; c1])) <> PERFECT ->
  status (Hand.new [c0; c1]) = Status.WAIT.
Proof.
  intros H. unfold Hand.new, Hand.blackjack in *. cbn [status handSum cards] in *.
  rewrite bool_decide_eq_false_2 by exact H. reflexivity.
Qed.

(** X22.  The card the dealer holds face down has no influence on the
    turns of the participants.  Take two shoes that differ at most in
    that card (draw number [2 * length users + 1]), neither giving the
    dealer 21.  If the round with the first shoe is waiting for a move,
    or was abandoned, after some replies, then so is the round with the
    second shoe after the same replies: same outcome, same hands of the
    participants, same messages sent, and the table is rendered the
    same, whatever the description. *)
Theorem hole_card_stays_secret randInt (deleted : nat -> bool) randInt' (users : list User)
    (replies : list Reply) :
  (forall k, k <> S (2 * length users) -> randInt k = randInt' k) ->
  sum (handSum (super (dealer (deal randInt users)))) <> PERFECT ->
  sum (handSum (super (dealer (deal randInt' users)))) <> PERFECT ->
  playing (runGame randInt deleted users replies).2 ->
  (runGame randInt' deleted users replies).2 = (runGame randInt deleted users replies).2
  /\ players (runGame randInt' deleted users replies).1
     = players (runGame randInt deleted users replies).1
  /\ log (runGame randInt' deleted users replies).1
     = log (runGame randInt deleted users replies).1
  /\ forall range_2_11 tag infoColor description,
       getEmbed range_2_11 tag infoColor
                (runGame randInt' deleted users replies).1 description
       = getEmbed range_2_11 tag infoColor
                  (runGame randInt deleted users replies).1 description.
Proof.
  intros Hext Hn Hn'. unfold runGame. cbv zeta.
  rewrite (bool_decide_eq_false_2 _ Hn), (bool_decide_eq_false_2 _ Hn').
  pose proof (deal_setDealer randInt randInt' users Hext) as Hdeal.
  set (d' := dealer (deal randInt' users)) in *.
  assert (Hlen : length (players (deal randInt' users))
                 = length (players (deal randInt users)))
    by (rewrite Hdeal; reflexivity).
  rewrite Hlen, Hdeal, enterPlayer_setDealer.
  pose proof (enterPlayer_frame deleted (length (players (deal randInt users)))
                (deal randInt users) 0) as Hfr.
  destruct (enterPlayer deleted (length (players (deal randInt users)))
              (deal randInt users) 0) as [g0 [[p h]|]]; cbn [fst snd] in *.
  - destruct (Hfr _ _ eq_refl) as (Hd0 & Hk0 & _).
    intros Hp.
    destruct (playersLoop_setDealer randInt deleted randInt' d' replies g0 p h)
      as (-> & Hd & _); [|exact Hp|].
    { intros k Hle. apply Hext. rewrite Hk0, deal_hole in Hle.
      cbn [drawn] in Hle. lia. }
    cbn [fst snd]. split; [reflexivity|]. split; [reflexivity|].
    split; [reflexivity|].
    intros range_2_11 tag infoColor description.
    set (g := (playersLoop randInt deleted replies g0 p h).1) in *.
    assert (Hdg : dealer g = dealer (deal randInt users)) by congruence.
    unfold getEmbed. cbn [players dealer Blackjack.setDealer].
    rewrite Hdg. subst d'. clear Hdeal Hlen Hfr Hd0 Hk0 Hdg Hd.
    rewrite !deal_hole in *. cbn [dealer] in *.
    rewrite <- (Hext (2 * length users)%nat) in * by lia.
    rewrite (Dealer_toString_hidden range_2_11 _ _
               (Card.fromId (randInt (S (2 * length users))) true))
      by reflexivity.
    unfold Dealer.new in *. cbn [super] in *.
    rewrite (pair_status _ _ Hn), (pair_status _ _ Hn'). reflexivity.
  - intros [Ha|(p' & h' & Ha)]; exfalso.
    + eapply dealerTurn_not_abandoned. apply injective_projections;
        [reflexivity | exact Ha].
    + eapply dealerTurn_not_awaiting. apply injective_projections;
        [reflexivity | exact Ha].
Qed.

Lemma hole_card_stays_secret_witness :
  (runGame (replay [1; 2; 5; 7; 3]%nat) neverDeleted [alice] [Collected HIT]).2
  = (runGame (replay [1; 2; 5; 6; 3]%nat) neverDeleted [alice] [Collected HIT]).2
  /\ players (runGame (replay [1; 2; 5; 7; 3]%nat) neverDeleted [alice] [Collected HIT]).1
     = players (runGame (replay [1; 2; 5; 6; 3]%nat) neverDeleted [alice] [Collected HIT]).1
  /\ log (runGame (replay [1; 2; 5; 7; 3]%nat) neverDeleted [alice] [Collected HIT]).1
     = log (runGame (replay [1; 2; 5; 6; 3]%nat) neverDeleted [alice] [Collected HIT]).1
  /\ forall range_2_11 tag infoColor description,
       getEmbed range_2_11 tag infoColor
         (runGame (replay [1; 2; 5; 7; 3]%nat) neverDeleted [alice] [Collected HIT]).1
         description
       = getEmbed range_2_11 tag infoColor
           (runGame (replay [1; 2; 5; 6; 3]%nat) neverDeleted [alice] [Collected HIT]).1
           description.
Proof.
  apply (hole_card_stays_secret (replay [1; 2; 5; 6; 3]%nat) neverDeleted
           (replay [1; 2; 5; 7; 3]%nat) [alice] [Collected HIT]).
  - intros k Hk. destruct k as [|[|[|[|k]]]]; try reflexivity.
    exfalso. apply Hk. reflexivity.
  - vm_compute. discriminate.
  - vm_compute. discriminate.
  - right. exists 0%nat, 0%nat. vm_compute. reflexivity.
Defined.

(** ** What the table shows during the turns of the participants *)

Lemma append_assoc (a b c : string) : (a +:+ b) +:+ c = a +:+ b +:+ c.
Proof.
  induction a as [|x a IH]; [reflexivity|].
  change (String x ((a +:+ b) +:+ c) = String x (a +:+ b +:+ c)).
  f_equal. exact IH.
Qed.

Lemma dealPlayers_length randInt (users : list User) :
  forall k, length (dealPlayers randInt users k).1 = length users.
Proof.
  induction users as [|user users IH]; intros k; simpl; [reflexivity|].
  unfold fromRandom. specialize (IH (S (S k))).
  destruct (dealPlayers randInt users (S (S k))) as [ps k'].
  simpl in *. rewrite IH. reflexivity.
Qed.

Lemma dealerBlackjack_not_playing (deleted :
  nat -> bool) g : ~ playing (dealerBlackjack deleted g).2.
Proof.
  unfold dealerBlackjack. repeat case_match; cbn [snd];
    intros [Ha|(? & ? & Ha)]; discriminate.
Qed.

Lemma dealerTurn_not_playing randInt (deleted :
  nat -> bool) g : ~ playing (dealerTurn randInt deleted g).2.
Proof.
  intros [Ha|(p' & h' & Ha)].
  - eapply dealerTurn_not_abandoned. apply injective_projections;
      [reflexivity | exact Ha].
  - eapply dealerTurn_not_awaiting. apply injective_projections;
      [reflexivity | exact Ha].
Qed.

(** A round in the turns of the participants: the dealer was not dealt
    21 and is as dealt, and nobody joined or left. *)
Lemma runGame_playing randInt (deleted : nat -> bool) users replies :
  playing (runGame randInt deleted users replies).2 ->
  sum (handSum (super (dealer (deal randInt users)))) <> PERFECT
  /\ dealer (runGame randInt deleted users replies).1 = dealer (deal randInt users)
  /\ length (players (runGame randInt deleted users replies).1) = length users.
Proof.
  unfold runGame. cbv zeta. case_bool_decide as Hn;
    [intros Hp; exfalso; exact (dealerBlackjack_not_playing deleted _ Hp)|].
  pose proof (enterPlayer_frame deleted (length (players (deal randInt users)))
                (deal randInt users) 0) as Hfr.
  pose proof (enterPlayer_seats deleted (length (players (deal randInt users)))
                (deal randInt users) 0) as Hs.
  destruct (enterPlayer deleted (length (players (deal randInt users)))
              (deal randInt users) 0) as [g0 [[p h]|]]; cbn [fst snd] in *;
    [|intros Hp; exfalso; exact (dealerTurn_not_playing _ deleted _ Hp)].
  destruct (Hfr _ _ eq_refl) as (Hd0 & _).
  intros Hp.
  destruct (playersLoop_setDealer randInt deleted randInt (dealer g0) replies g0 p h)
    as (_ & Hd & Hl); [reflexivity | exact Hp |].
  split; [exact Hn|]. split; [congruence|].
  rewrite Hl, Hs, deal_hole. cbn [players]. apply dealPlayers_length.
Qed.

(** X23.  While a round waits for a move (or was abandoned), the table
    can be rendered, with one field for the dealer followed by one field
    per participant.  The field of the dealer shows the black square of
    a waiting hand, the total of the first card alone followed by a plus
    sign, the first card, and two question marks in place of the second
    card. *)
Theorem table_shown_while_playing randInt (deleted : nat -> bool) (users : list User)
    (replies : list Reply) range_2_11 tag infoColor description :
  playing (runGame randInt deleted users replies).2 ->
  exists embed,
    getEmbed range_2_11 tag infoColor
             (runGame randInt deleted users replies).1 description = Some embed
    /\ fields embed !! 0%nat
       = Some (mkField "Dealer"
                 ("⬛ **"
                  +:+ HandSum_toString
                        (HandSum.fromCards
                           [Card.fromId (randInt (2 * length users)%nat) false])
                  +:+ "+** `"
                  +:+ Card_toString range_2_11
                        (Card.fromId (randInt (2 * length users)%nat) false)
                  +:+ "` `??`"))
    /\ length (fields embed) = S (length users).
Proof.
  intros Hp. destruct (runGame_playing _ deleted _ _ Hp) as (Hn & Hd & Hl).
  unfold getEmbed. rewrite Hd. rewrite deal_hole in *. cbn [dealer] in *.
  set (up := Card.fromId (randInt (2 * length users)%nat) false) in *.
  unfold Dealer.new in *. cbn [super] in *. rewrite (pair_status _ _ Hn).
  unfold Dealer_toString. cbn [hidden super].
  unfold Hand.new at 1. cbn [cards lookup list_lookup].
  eexists. split; [reflexivity|]. cbn [fields length lookup list_lookup].
  rewrite length_map. split; [|rewrite Hl; reflexivity].
  f_equal. f_equal.
  unfold getCardsAsString, Hand.new. cbn [cards map String.concat].
  unfold Card_toString at 2. cbn [down Card.fromId].
  assert (Hsum : (if decide (rank up = ACE)
                  then pretty 11 +:+ "s"
                  else pretty (Card.value up) +:+ "h")
                 = HandSum_toString (HandSum.fromCards [up])).
  { subst up. destruct (Card.fromId _ false) as [s r d].
    destruct r; reflexivity. }
  rewrite Hsum. cbn [element statusToEmoji Status_position lookup list_lookup
                     default].
  rewrite !append_assoc. reflexivity.
Qed.

Lemma table_shown_while_playing_witness :
  exists embed,
    getEmbed [2; 3; 4; 5; 6; 7; 8; 9; 10] (fun _ => "player") 0
             (runGame (replay [1; 2; 5; 6; 3]%nat) neverDeleted [alice] [Collected HIT]).1
             Prompt = Some embed
    /\ fields embed !! 0%nat
       = Some (mkField "Dealer"
                 ("⬛ **"
                  +:+ HandSum_toString
                        (HandSum.fromCards
                           [Card.fromId (replay [1; 2; 5; 6; 3]%nat
                                           (2 * length [alice])%nat) false])
                  +:+ "+** `"
                  +:+ Card_toString [2; 3; 4; 5; 6; 7; 8; 9; 10]
                        (Card.fromId (replay [1; 2; 5; 6; 3]%nat
                                        (2 * length [alice])%nat) false)
                  +:+ "` `??`"))
    /\ length (fields embed) = S (length [alice]).
Proof.
  apply (table_shown_while_playing (replay [1; 2; 5; 6; 3]%nat) neverDeleted [alice]
           [Collected HIT]).
  right. exists 0%nat, 0%nat. vm_compute. reflexivity.
Defined.

(** X24.  With [range(2, 11)] the numbers 2 to 10, two cards lying face
    up are rendered alike only if they are the same card. *)
Theorem face_up_cards_read_apart range_2_11 (c c' : Card) :
  range_2_11 = [2; 3; 4; 5; 6; 7; 8; 9; 10] ->
  down c = false -> down c' = false ->
  Card_toString range_2_11 c = Card_toString range_2_11 c' -> c = c'.
Proof.
  intros ->. destruct c as [s r d], c' as [s' r' d']. simpl. intros -> ->.
  unfold Card_toString. cbn [down suit rank].
  destruct s, s', r, r'; intros H; try reflexivity;
    vm_compute in H; discriminate H.
Qed.

Lemma face_up_cards_read_apart_witness :
  Card_toString [2; 3; 4; 5; 6; 7; 8; 9; 10] (mkCard HEARTS _10 false)
  = Card_toString [2; 3; 4; 5; 6; 7; 8; 9; 10] (Card.fromId 35 false)
  /\ mkCard HEARTS _10 false = Card.fromId 35 false.
Proof.
  split; [reflexivity|].
  apply (face_up_cards_read_apart [2; 3; 4; 5; 6; 7; 8; 9; 10]);
    reflexivity.
Defined.

(** ** A round in which everybody stands *)

Lemma dealPlayers_single randInt (users : list User) :
  forall k,
    Forall (fun player => length (hands player) = 1%nat)
           (dealPlayers randInt users k).1.
Proof.
  induction users as [|user users IH]; intros k; simpl; [constructor|].
  unfold fromRandom. specialize (IH (S (S k))).
  destruct (dealPlayers randInt users (S (S k))) as [ps k'].
  constructor; [reflexivity | exact IH].
Qed.

Lemma deal_handCount randInt (users : list User) (q : nat) :
  (q < length (players (deal randInt users)))%nat ->
  handCount (deal randInt users) q = 1%nat.
Proof.
  rewrite deal_hole. unfold handCount. cbn [players]. intros Hq.
  apply lookup_lt_is_Some in Hq as [player Hp]. rewrite Hp.
  exact (proj1 (Forall_lookup _ _) (dealPlayers_single randInt users 0) _ _ Hp).
Qed.

Lemma enterPlayer_single (deleted : nat -> bool) (n : nat) g p :
  (p < length (players g))%nat -> (0 < n)%nat -> handCount g p = 1%nat ->
  enterPlayer deleted n g p
  = (beginHand (Blackjack.display deleted Prompt g) p 0, Some (p, 0%nat)).
Proof.
  intros Hp Hn Hc. destruct n as [|n]; [lia|]. simpl.
  apply lookup_lt_is_Some in Hp as [player Hp].
  unfold handCount in Hc. rewrite Hp in *.
  destruct (hands player) as [|hand rest]; [discriminate|]. reflexivity.
Qed.

Lemma playersLoop_all_stand randInt (deleted : nat -> bool)
    (users : list User) (replies : list Reply) :
  forall g p,
    Forall (fun reply => reply = Collected STAND) replies ->
    (length (players g) - p <= length replies)%nat ->
    (p < length (players g))%nat ->
    (forall q, (q < length (players g))%nat -> handCount g q = 1%nat) ->
    dealer g = dealer (deal randInt users) ->
    (playersLoop randInt deleted replies g p 0).2 = Returned.
Proof.
  induction replies as [|reply replies IH]; intros g p Hall Hlen Hp Hone Hd;
    [simpl in Hlen; lia|].
  inversion Hall as [|? ? -> Hall']; subst. cbn [playersLoop move].
  destruct (proj1 (handCount_getHand g p 0)) as [hand Hget];
    [rewrite Hone by exact Hp; lia|].
  rewrite (playMove_STAND randInt deleted g p 0 hand Hget).
  set (g1 := Blackjack.updHand p 0 (Hand.setStatus Status.STAND) g).
  assert (Hl1 : length (players g1) = length (players g))
    by (unfold g1, Blackjack.updHand, Blackjack.setPlayers; cbn [players];
        apply length_alter).
  assert (Hone1 : forall q, (q < length (players g1))%nat ->
                            handCount g1 q = 1%nat)
    by (intros q Hq; unfold g1; rewrite handCount_updHand; apply Hone; lia).
  unfold nextHand.
  destruct (Blackjack.getHand g1 p 1) as [extra|] eqn:Hx.
  { assert (Hlt : (1 < handCount g1 p)%nat)
      by (apply handCount_getHand; rewrite Hx; eexists; reflexivity).
    rewrite Hone1 in Hlt by lia. lia. }
  destruct (decide (S p < length (players g1))%nat) as [Hnext|Hlast].
  - rewrite enterPlayer_single; [|exact Hnext | lia | apply Hone1; exact Hnext].
    apply IH.
    + exact Hall'.
    + unfold beginHand, Blackjack.updHand, Blackjack.setPlayers. cbn [players].
      rewrite length_alter, display_players. simpl in Hlen. lia.
    + unfold beginHand, Blackjack.updHand, Blackjack.setPlayers. cbn [players].
      rewrite length_alter, display_players. exact Hnext.
    + intros q Hq. unfold beginHand. rewrite handCount_updHand, handCount_display.
      apply Hone1.
      unfold beginHand, Blackjack.updHand, Blackjack.setPlayers in Hq.
      cbn [players] in Hq. rewrite length_alter, display_players in Hq.
      exact Hq.
    + unfold beginHand, Blackjack.updHand, Blackjack.setPlayers. cbn [dealer].
      rewrite display_dealer. exact Hd.
  - replace (length (players g1) - S p)%nat with 0%nat by lia.
    cbn [enterPlayer].
    destruct (dealerTurn_returns randInt deleted users g1) as (g' & ->);
      [exact Hd | rewrite Hone1 by lia; lia | reflexivity].
Qed.

(** X25.  A round in which every participant stands comes to its end:
    when every reply is the move STAND and there are at least as many
    replies as participants, [runGame] returns. *)
Theorem everybody_stands_round_returns randInt (deleted : nat -> bool) (users : list User)
    (replies : list Reply) :
  users <> [] ->
  (length users <= length replies)%nat ->
  Forall (fun reply => reply = Collected STAND) replies ->
  (runGame randInt deleted users replies).2 = Returned.
Proof.
  intros Hu Hlen Hall. unfold runGame. cbv zeta. case_bool_decide as Hn.
  - destruct (dealerBlackjack_returns randInt deleted users Hu) as (g' & ->).
    reflexivity.
  - assert (Hl : length (players (deal randInt users)) = length users)
      by (rewrite deal_hole; cbn [players]; apply dealPlayers_length).
    assert (Hpos : (0 < length users)%nat)
      by (destruct users; [congruence | simpl; lia]).
    rewrite enterPlayer_single;
      [|lia | lia | apply deal_handCount; lia].
    apply (playersLoop_all_stand randInt deleted users).
    + exact Hall.
    + unfold beginHand, Blackjack.updHand, Blackjack.setPlayers. cbn [players].
      rewrite length_alter, display_players. lia.
    + unfold beginHand, Blackjack.updHand, Blackjack.setPlayers. cbn [players].
      rewrite length_alter, display_players. lia.
    + intros q Hq. unfold beginHand. rewrite handCount_updHand, handCount_display.
      apply deal_handCount.
      unfold beginHand, Blackjack.updHand, Blackjack.setPlayers in Hq.
      cbn [players] in Hq. rewrite length_alter, display_players in Hq.
      exact Hq.
    + unfold beginHand, Blackjack.updHand, Blackjack.setPlayers. cbn [dealer].
      apply display_dealer.
Qed.

Lemma everybody_stands_round_returns_witness :
  (runGame (replay [9; 24; 9; 46; 2; 3]%nat) neverDeleted [alice; bob]
           [Collected STAND; Collected STAND]).2 = Returned.
Proof.
  apply (everybody_stands_round_returns (replay [9; 24; 9; 46; 2; 3]%nat) neverDeleted
           [alice; bob] [Collected STAND; Collected STAND]).
  - discriminate.
  - simpl. lia.
  - repeat constructor.
Defined.

(** ** The command as a whole *)



(** The last case does occur: bob begins a round in channel 1; while it
    is awaited alice begins one there, mentioning herself, and her round
    returns, which deletes the entry of the channel; when the round of
    bob returns, leaving throws. *)
Example leaving_can_throw :
  exists g,
    (execute (replay [9; 9; 9; 6]%nat) neverDeleted ∅ (mkMessage 1 bob [])
             [Collected STAND]
             [Begin (mkMessage 1 alice [alice]); Resume (mkMessage 1 alice [alice])]).2
    = ReleaseThrew g.
Proof. eexists. vm_compute. reflexivity. Qed.

(** X27.  The players of the channel once the round of a command has
    returned, no part of another command having run while it was
    awaited.  They are those who were playing there before the command,
    unless the list of the players of the command (the author, then the
    users mentioned) is as long as the set of all the users then playing
    in the channel: the entry of the channel is deleted in that case.
    With no user listed twice this happens only when nobody else was
    playing; with the author mentioned in the message it can end the
    registration of the players of another round.  No other channel is
    touched. *)
Theorem players_left_after_round randInt (deleted : nat -> bool)
    channels message replies channels' g :
  execute randInt deleted channels message replies [] = (channels', Finished g) ->
  let current := playingIn channels (channelId message) in
  playingIn channels' (channelId message)
  = (if bool_decide (length (playerUsers message)
                     = size (current ∪ list_to_set (playerUsers message)))
     then ∅ else current)
  /\ forall channel, channel <> channelId message ->
       channels' !! channel = channels !! channel.
Proof.
  unfold execute. cbn [calls fold_left].
  destruct (register_cases channels message) as [(e & -> & _)|[-> Hfree]];
    [discriminate|].
  destruct (runGame randInt deleted (playerUsers message) replies) as [g' o].
  destruct o; try discriminate.
  unfold release. rewrite lookup_insert_eq. cbv zeta.
  set (current := playingIn channels (channelId message)) in *.
  case_bool_decide as Hl; intros [= <- _]; (split; [|intros channel Hne]).
  - unfold playingIn. rewrite lookup_delete_eq. reflexivity.
  - rewrite lookup_delete_ne by congruence.
    rewrite lookup_insert_ne by congruence. reflexivity.
  - unfold playingIn at 1. rewrite lookup_insert_eq. cbn [default].
    apply leibniz_equiv. set_solver.
  - rewrite !lookup_insert_ne by congruence. reflexivity.
Qed.

(** X27 on alice, who mentions herself while bob plays in the channel:
    when her round returns, bob is no longer registered. *)
Lemma players_left_after_round_witness :
  bob ∈ playingIn {[ 1%nat := {[ bob ]} ]} 1
  /\ playingIn (execute (replay [9; 9; 9; 6; 9; 7]%nat) neverDeleted
                        {[ 1%nat := {[ bob ]} ]} (mkMessage 1 alice [alice])
                        [Collected STAND; Collected STAND] []).1 1
     = ∅.
Proof.
  split; [unfold playingIn; rewrite lookup_singleton_eq; set_solver|].
  destruct (players_left_after_round (replay [9; 9; 9; 6; 9; 7]%nat) neverDeleted
              {[ 1%nat := {[ bob ]} ]} (mkMessage 1 alice [alice])
              [Collected STAND; Collected STAND]
              (execute (replay [9; 9; 9; 6; 9; 7]%nat) neverDeleted
                       {[ 1%nat := {[ bob ]} ]} (mkMessage 1 alice [alice])
                       [Collected STAND; Collected STAND] []).1
              (runGame (replay [9; 9; 9; 6; 9; 7]%nat) neverDeleted [alice; alice]
                       [Collected STAND; Collected STAND]).1)
    as [Hch _].
  - vm_compute. reflexivity.
  - exact Hch.
Defined.

(** ** The turn of a hand dealt as a blackjack *)

Lemma players_updHand_other p h (f : Hand -> Hand) g (q : nat) :
  q <> p -> players (Blackjack.updHand p h f g) !! q = players g !! q.
Proof.
  intros Hne. unfold Blackjack.updHand, Blackjack.setPlayers. cbn [players].
  apply list_lookup_alter_ne. congruence.
Qed.

Lemma getHand_updHand_other p h (f : Hand -> Hand) g (q i : nat) :
  q <> p ->
  Blackjack.getHand (Blackjack.updHand p h f g) q i = Blackjack.getHand g q i.
Proof.
  intros Hne. unfold Blackjack.getHand.
  rewrite players_updHand_other by exact Hne. reflexivity.
Qed.

Lemma length_players_updHand p h (f : Hand -> Hand) g :
  length (players (Blackjack.updHand p h f g)) = length (players g).
Proof.
  unfold Blackjack.updHand, Blackjack.setPlayers. cbn [players].
  apply length_alter.
Qed.

(** Every hand is dealt as a hand of two cards. *)
Lemma dealPlayers_pairs randInt (users : list User) (k : nat) :
  Forall (fun player => exists c0 c1, hands player = [Hand.new [c0; c1]])
         (dealPlayers randInt users k).1.
Proof.
  revert k. induction users as [|user users IH]; intros k; simpl; [constructor|].
  unfold fromRandom. specialize (IH (S (S k))).
  destruct (dealPlayers randInt users (S (S k))) as [ps k']. simpl in *.
  constructor; [eexists; eexists; reflexivity | exact IH].
Qed.

Lemma deal_getHand randInt (users : list User) (p h : nat) (hand : Hand) :
  Blackjack.getHand (deal randInt users) p h = Some hand ->
  (p < length users)%nat /\ h = 0%nat /\ exists c0 c1, hand = Hand.new [c0; c1].
Proof.
  intros Hget. destruct (getHand_player _ _ _ _ Hget) as (player & Hp & Hh).
  rewrite deal_hole in Hp. cbn [players] in Hp.
  split.
  - apply lookup_lt_Some in Hp. rewrite dealPlayers_length in Hp. exact Hp.
  - destruct (proj1 (Forall_lookup _ _) (dealPlayers_pairs randInt users 0) _ _ Hp)
      as (c0 & c1 & Hc).
    rewrite Hc in Hh. destruct h as [|h]; [|discriminate].
    split; [reflexivity|]. exists c0, c1. simpl in Hh. congruence.
Qed.

Lemma atTurn_start randInt (deleted : nat -> bool) (users : list User) :
  atTurn (deal randInt users)
         (beginHand (Blackjack.display deleted Prompt (deal randInt users)) 0 0) 0.
Proof.
  set (g0 := deal randInt users). unfold beginHand.
  split; [rewrite length_players_updHand, display_players; reflexivity|].
  split; [intros q Hq; rewrite handCount_updHand, handCount_display;
          apply deal_handCount; exact Hq|].
  split; [apply display_dealer|]. split; [apply display_drawn|].
  split.
  - intros q Hq. rewrite players_updHand_other by lia. rewrite display_players.
    reflexivity.
  - intros hand Hget. apply getHand_updHand. rewrite display_getHand. exact Hget.
Qed.

(** STAND passes the turn from a participant to the next. *)
Lemma stand_passes_turn randInt (deleted : nat -> bool) g0 g p (rest : list Reply) :
  atTurn g0 g p ->
  (S p < length (players g0))%nat ->
  let g1 := Blackjack.updHand p 0 (Hand.setStatus Status.STAND) g in
  let g2 := beginHand (Blackjack.display deleted Prompt g1) (S p) 0 in
  playersLoop randInt deleted (Collected STAND :: rest) g p 0
  = playersLoop randInt deleted rest g2 (S p) 0
  /\ atTurn g0 g2 (S p)
  /\ forall hand, Blackjack.getHand g0 p 0 = Some hand ->
       Blackjack.getHand g2 p 0 = Some (Hand.setStatus Status.STAND hand).
Proof.
  intros (Hlen & Hone & Hd & Hk & Hlater & Hcur) Hnext g1 g2.
  destruct (proj1 (handCount_getHand g p 0)) as [x Hget];
    [rewrite Hone by lia; lia|].
  assert (Hone1 : forall q, (q < length (players g0))%nat -> handCount g1 q = 1%nat)
    by (intros q Hq; unfold g1; rewrite handCount_updHand; apply Hone; exact Hq).
  assert (Hl1 : length (players g1) = length (players g0))
    by (unfold g1; rewrite length_players_updHand; exact Hlen).
  split; [|split].
  - cbn [playersLoop move].
    rewrite (playMove_STAND randInt deleted g p 0 x Hget). fold g1.
    unfold nextHand.
    destruct (Blackjack.getHand g1 p 1) as [extra|] eqn:Hx.
    { assert (Hlt : (1 < handCount g1 p)%nat)
        by (apply handCount_getHand; rewrite Hx; eexists; reflexivity).
      rewrite Hone1 in Hlt by lia. lia. }
    rewrite enterPlayer_single; [reflexivity | lia | lia | apply Hone1; lia].
  - unfold g2, beginHand.
    split; [rewrite length_players_updHand, display_players; exact Hl1|].
    split; [intros q Hq; rewrite handCount_updHand, handCount_display;
            apply Hone1; exact Hq|].
    split; [etransitivity; [apply display_dealer | exact Hd]|].
    split; [etransitivity; [apply display_drawn | exact Hk]|].
    split.
    + intros q Hq. rewrite players_updHand_other by lia. rewrite display_players.
      unfold g1. rewrite players_updHand_other by lia. apply Hlater. lia.
    + intros hand Hh. apply getHand_updHand. rewrite display_getHand.
      unfold g1. rewrite getHand_updHand_other by lia.
      unfold Blackjack.getHand in *. rewrite (Hlater (S p)) by lia. exact Hh.
  - intros hand Hh. unfold g2, beginHand.
    rewrite getHand_updHand_other by lia. rewrite display_getHand.
    unfold g1. rewrite (getHand_updHand g p 0 _ _ (Hcur hand Hh)). reflexivity.
Qed.

Lemma stands_reach_turn randInt (deleted : nat -> bool) g0 (k : nat) :
  forall g p,
    atTurn g0 g p ->
    (p + k < length (players g0))%nat ->
    exists g',
      playersLoop randInt deleted (replicate k (Collected STAND)) g p 0
      = (g', Awaiting (p + k) 0)
      /\ atTurn g0 g' (p + k).
Proof.
  induction k as [|k IH]; intros g p Hat Hlt.
  - exists g. rewrite Nat.add_0_r. split; [reflexivity | exact Hat].
  - cbn [replicate].
    destruct (stand_passes_turn randInt deleted g0 g p (replicate k (Collected STAND))
                Hat) as (-> & Hat2 & _); [lia|].
    destruct (IH _ (S p) Hat2) as (g' & Hrun & Hat'); [lia|].
    exists g'. replace (p + S k)%nat with (S p + k)%nat by lia.
    split; [exact Hrun | exact Hat'].
Qed.

(** When everybody before has stood, the round awaits the move of
    participant [p]. *)
Lemma runGame_stands randInt (deleted : nat -> bool) (users : list User) (p : nat) :
  sum (handSum (super (dealer (deal randInt users)))) <> PERFECT ->
  (p < length users)%nat ->
  exists g,
    runGame randInt deleted users (replicate p (Collected STAND))
    = (g, Awaiting p 0)
    /\ atTurn (deal randInt users) g p.
Proof.
  intros Hn Hp. unfold runGame. cbv zeta.
  rewrite (bool_decide_eq_false_2 _ Hn).
  assert (Hl : length (players (deal randInt users)) = length users)
    by (rewrite deal_hole; cbn [players]; apply dealPlayers_length).
  rewrite enterPlayer_single; [|lia | lia | apply deal_handCount; lia].
  apply (stands_reach_turn randInt deleted (deal randInt users) p _ 0);
    [apply atTurn_start | simpl; lia].
Qed.

(** At 21 the moves other than STAND are refused one after the other. *)
Lemma refused_at_21 randInt (deleted : nat -> bool) (ms : list Move) :
  forall g p h hand,
    Blackjack.getHand g p h = Some hand ->
    sum (handSum hand) = PERFECT ->
    Forall (fun m => m <> STAND) ms ->
    exists g',
      playersLoop randInt deleted (map Collected ms) g p h = (g', Awaiting p h)
      /\ players g' = players g /\ dealer g' = dealer g /\ drawn g' = drawn g
      /\ (ms <> [] -> prompt g' = Some BestSum).
Proof.
  induction ms as [|m ms IH]; intros g p h hand Hget Hsum Hall.
  - exists g. repeat (split; [reflexivity|]). congruence.
  - apply Forall_cons in Hall as [Hm Hall]. cbn [map playersLoop move].
    rewrite (playMove_at_21 randInt deleted g p h hand m Hget Hsum Hm).
    destruct (IH (Blackjack.display deleted BestSum g) p h hand) as
      (g' & Hrun & Hp & Hd & Hk & Hpr); [rewrite display_getHand; exact Hget
                                         | exact Hsum | exact Hall |].
    exists g'. split; [exact Hrun|].
    rewrite display_players in Hp. rewrite display_dealer in Hd.
    rewrite display_drawn in Hk.
    repeat (split; [assumption|]). intros _.
    destruct ms as [|m' ms]; [|apply Hpr; discriminate].
    cbn in Hrun. injection Hrun as <-. apply display_prompt.
Qed.

Lemma getHand_updHand_ne p h (f : Hand -> Hand) g (q i : nat) :
  (q, i) <> (p, h) ->
  Blackjack.getHand (Blackjack.updHand p h f g) q i = Blackjack.getHand g q i.
Proof.
  intros Hne. destruct (decide (q = p)) as [->|Hq];
    [|apply getHand_updHand_other; exact Hq].
  unfold Blackjack.getHand, Blackjack.updHand, Blackjack.setPlayers.
  cbn [players]. rewrite list_lookup_alter_eq.
  destruct (players g !! p) as [player|]; [|reflexivity]. cbn.
  apply list_lookup_alter_ne. congruence.
Qed.

(** Entering the next participant touches nobody before, and begins a
    first hand. *)
Lemma enterPlayer_earlier (deleted : nat -> bool) (n : nat) :
  forall g p0 g' o,
    enterPlayer deleted n g p0 = (g', o) ->
    (forall q i, (q < p0)%nat -> Blackjack.getHand g' q i = Blackjack.getHand g q i)
    /\ (forall p' h', o = Some (p', h') -> (p0 <= p')%nat /\ h' = 0%nat).
Proof.
  induction n as [|n IH]; intros g p0 g' o; simpl.
  - intros [= <- <-]. split; [reflexivity | discriminate].
  - destruct (players g !! p0) as [player|];
      [|intros [= <- <-]; split; [reflexivity | discriminate]].
    destruct (hands player !! 0%nat).
    + intros [= <- <-]. split.
      * intros q i Hq. unfold beginHand.
        rewrite getHand_updHand_other by lia. apply display_getHand.
      * intros p' h' [= <- <-]. split; [lia | reflexivity].
    + intros He. destruct (IH _ _ _ _ He) as [Hkeep Hpos]. split.
      * intros q i Hq. rewrite Hkeep by lia. apply display_getHand.
      * intros p' h' Ho. destruct (Hpos p' h' Ho). split; [lia | assumption].
Qed.

(** Passing on from hand [h] leaves the hands up to [h] as they are, and
    does not come back to them. *)
Lemma nextHand_earlier (deleted : nat -> bool) g p h g' o :
  nextHand deleted g p (S h) = (g', o) ->
  (forall i, (i <= h)%nat -> Blackjack.getHand g' p i = Blackjack.getHand g p i)
  /\ (forall p' h', o = Some (p', h') -> (p', h') <> (p, 0%nat)).
Proof.
  unfold nextHand. destruct (Blackjack.getHand g p (S h)).
  - intros [= <- <-]. split.
    + intros i Hi. unfold beginHand. apply getHand_updHand_ne.
      intros [= ->]. lia.
    + intros p' h' [= <- <-]. congruence.
  - intros He. destruct (enterPlayer_earlier deleted _ _ _ _ _ He) as [Hkeep Hpos].
    split; [intros i _; apply Hkeep; lia|].
    intros p' h' Ho. destruct (Hpos p' h' Ho). intros [= -> _]. lia.
Qed.

(** C4, as the code has it.  A hand dealt with the status BLACKJACK gets
    its turn like any other hand: when everybody before has stood, the
    round awaits a move for it, its status now CURRENT.  And however the
    round came to await a move for it, the cards of the hand still those
    it was dealt: its status is CURRENT; every move but STAND is refused
    with nothing changed but the prompt, and the round goes on awaiting a
    move for the hand, however often; STAND gives it the status STAND and
    ends its turn. *)
Theorem blackjack_hand_must_stand randInt (deleted : nat -> bool)
    (users : list User) (p : nat) (hand : Hand) :
  sum (handSum (super (dealer (deal randInt users)))) <> PERFECT ->
  Blackjack.getHand (deal randInt users) p 0 = Some hand ->
  status hand = Status.BLACKJACK ->
  (exists g,
     runGame randInt deleted users (replicate p (Collected STAND))
     = (g, Awaiting p 0)
     /\ Blackjack.getHand g p 0 = Some (Hand.setStatus Status.CURRENT hand))
  /\ forall pre g x,
       runGame randInt deleted users pre = (g, Awaiting p 0) ->
       Blackjack.getHand g p 0 = Some x ->
       cards x = cards hand ->
       x = Hand.setStatus Status.CURRENT hand
       /\ (forall ms, Forall (fun m => m <> STAND) ms ->
           exists g',
             runGame randInt deleted users (pre ++ map Collected ms)
             = (g', Awaiting p 0)
             /\ players g' = players g /\ dealer g' = dealer g
             /\ drawn g' = drawn g
             /\ (ms <> [] -> prompt g' = Some BestSum))
       /\ exists g' o,
           runGame randInt deleted users (pre ++ [Collected STAND]) = (g', o)
           /\ o <> Awaiting p 0
           /\ Blackjack.getHand g' p 0
              = Some (Hand.setStatus Status.STAND hand).
Proof.
  intros Hn Hdealt Hst.
  destruct (deal_getHand randInt users p 0 hand Hdealt) as (Hp & _ & c0 & c1 & ->).
  pose proof (new_blackjack_sum _ Hst) as Hsum.
  split.
  - destruct (runGame_stands randInt deleted users p Hn Hp) as (g & Hrun & Hat).
    exists g. split; [exact Hrun|].
    destruct Hat as (_ & _ & _ & _ & _ & Hcur). exact (Hcur _ Hdealt).
  - intros pre g x Hrun Hget Hcards.
    destruct (runGame_awaiting randInt deleted users pre g p 0 Hrun)
      as (_ & _ & _ & _ & _ & Hgo).
    assert (Hx : x = Hand.setStatus Status.CURRENT (Hand.new [c0; c1])).
    { destruct (runGame_awaitedOk randInt deleted users pre g p 0 Hrun)
        as (Hok & player & hand' & Hpl & Hh & Hcur & _).
      assert (hand' = x)
        by (unfold Blackjack.getHand in Hget; rewrite Hpl in Hget; cbn in Hget;
            congruence).
      subst hand'.
      destruct (Forall_lookup_1 _ _ _ _ (Forall_lookup_1 _ _ _ _ Hok Hpl) Hh)
        as [_ Hs].
      destruct x as [cs s st]. cbn in Hcards, Hcur, Hs. subst cs s st.
      reflexivity. }
    subst x. split; [reflexivity|]. split.
    + intros ms Hall. rewrite Hgo.
      apply (refused_at_21 randInt deleted ms g p 0 _ Hget); [exact Hsum | exact Hall].
    + rewrite Hgo. cbn [playersLoop move].
      rewrite (playMove_STAND randInt deleted g p 0 _ Hget).
      set (g1 := Blackjack.updHand p 0 (Hand.setStatus Status.STAND) g).
      assert (H1 : Blackjack.getHand g1 p 0
                   = Some (Hand.setStatus Status.STAND (Hand.new [c0; c1])))
        by exact (getHand_updHand g p 0 _ _ Hget).
      destruct (nextHand deleted g1 p 1) as [g2 [[p' h']|]] eqn:Hnext;
        destruct (nextHand_earlier deleted g1 p 0 _ _ Hnext) as [Hkeep Hpos].
      * exists g2, (Awaiting p' h'). split; [reflexivity|].
        split; [intros [= -> ->]; exact (Hpos p 0%nat eq_refl eq_refl)|].
        rewrite Hkeep by lia. exact H1.
      * pose proof (dealerTurn_players randInt deleted g2) as Hpl.
        destruct (dealerTurn randInt deleted g2) as [g' o] eqn:Hturn.
        exists g', o. split; [reflexivity|].
        split; [intros ->; exact (dealerTurn_not_awaiting _ _ _ _ _ _ Hturn)|].
        cbn [fst] in Hpl. unfold Blackjack.getHand in *. rewrite Hpl.
        rewrite <- H1. apply Hkeep. lia.
Qed.

(** C4 on a participant dealt ace and king. *)
Lemma blackjack_hand_must_stand_witness :
  let hand := Hand.new [mkCard CLUBS ACE false; mkCard CLUBS KING false] in
  (exists g,
     roundBlackjack [] = (g, Awaiting 0 0)
     /\ Blackjack.getHand g 0 0 = Some (Hand.setStatus Status.CURRENT hand))
  /\ forall pre g x,
       roundBlackjack pre = (g, Awaiting 0 0) ->
       Blackjack.getHand g 0 0 = Some x ->
       cards x = cards hand ->
       x = Hand.setStatus Status.CURRENT hand
       /\ (forall ms, Forall (fun m => m <> STAND) ms ->
           exists g',
             roundBlackjack (pre ++ map Collected ms) = (g', Awaiting 0 0)
             /\ players g' = players g /\ dealer g' = dealer g
             /\ drawn g' = drawn g
             /\ (ms <> [] -> prompt g' = Some BestSum))
       /\ exists g' o,
           roundBlackjack (pre ++ [Collected STAND]) = (g', o)
           /\ o <> Awaiting 0 0
           /\ Blackjack.getHand g' 0 0
              = Some (Hand.setStatus Status.STAND hand).
Proof.
  intros hand.
  apply (blackjack_hand_must_stand (replay [0; 12; 4; 5]%nat) neverDeleted
           [alice] 0 hand).
  - vm_compute. discriminate.
  - reflexivity.
  - reflexivity.
Defined.
